(** * Order extraction and conversation sessions of [app.py]

    A shallow embedding of the order-extraction engine ([normalize],
    [levenshtein_distance], [similarity_percentage], the number-word
    lexicon, [separate_numbers_and_words], [extract_numbers_and_positions],
    [find_associated_number], [parse_order_interactive]) and of the
    [OrderSession] state machine, followed by the properties of the
    specification that were checked against them.

    Conventions.
    - A Python [str] is a list of Unicode code points ([str := list N]);
      literals are transcribed byte for byte from the source file and
      decoded from UTF-8 by [py], exactly as the interpreter reads them.
    - A Python [int] is a [Z]; a Python [float] is a primitive binary64
      [float], so that [/], [-], [*] and the comparisons round as in the
      interpreter.  An [int] becomes a [float] through [float_of_int],
      which is exact below [2^53]; the integers the program turns into
      floats are lengths of strings and edit distances.
    - The catalogs are lists of mutable two-element lists: every inner
      list lives at a location of an explicit [heap], [deepcopy]
      allocates, and [+=] on a quantity writes to the heap.
    - A Python exception is a value of [exn]; functions that can raise
      return a [result]. *)

From Stdlib Require Import ZArith NArith List Bool Lia Floats Uint63.
From Stdlib Require Import Ascii String DecimalString Sorted.
From stdpp Require Import base list.
Import ListNotations.

Open Scope Z_scope.

(** ** Python values *)

Definition str := list N.

Inductive exn := ValueError.

Inductive result (A : Type) :=
| Ok (a : A)
| Raise (e : exn).
Arguments Ok {A} a.
Arguments Raise {A} e.

Definition bind {A B} (r : result A) (k : A -> result B) : result B :=
  match r with
  | Ok a => k a
  | Raise e => Raise e
  end.

Notation "'let*' x ':=' r 'in' k" := (bind r (fun x => k))
  (at level 10, x name, r at level 100, k at level 200).

(** *** Source literals

    The source file is UTF-8; [py] decodes the bytes of a literal into
    the code points the interpreter sees. *)

Fixpoint utf8_decode (bs : list N) : str :=
  match bs with
  | [] => []
  | b :: r =>
    if (b <? 128)%N then b :: utf8_decode r
    else if (b <? 224)%N then
      match r with
      | b1 :: r1 => ((b - 192) * 64 + (b1 - 128))%N :: utf8_decode r1
      | _ => []
      end
    else if (b <? 240)%N then
      match r with
      | b1 :: b2 :: r2 =>
        ((b - 224) * 4096 + (b1 - 128) * 64 + (b2 - 128))%N :: utf8_decode r2
      | _ => []
      end
    else
      match r with
      | b1 :: b2 :: b3 :: r3 =>
        ((b - 240) * 262144 + (b1 - 128) * 4096 + (b2 - 128) * 64 + (b3 - 128))%N
          :: utf8_decode r3
      | _ => []
      end
  end.

Definition py (s : string) : str :=
  utf8_decode (map N_of_ascii (list_ascii_of_string s)).
Arguments py s%_string.

(** *** Character classes

    [unicodedata], [str.lower], [str.isdigit], [str.isspace] and the
    classes of [re] are tables of the interpreter.  They are transcribed
    exactly for the code points below U+0100 (Basic Latin and Latin-1
    Supplement, which hold every character of the source literals and of
    Portuguese text) and for white space; the combining marks are those
    of the block U+0300..U+036F; any other code point is treated as a
    caseless letter without decomposition, and as no digit.  Where a
    property depends on the tables, it is stated for text of code points
    below U+0100 and combining marks. *)

Definition in_range (lo hi c : N) : bool := ((lo <=? c) && (c <=? hi))%N.

(** [str.isspace] on one code point; also the class [\s] of [re]. *)
Definition isspace (c : N) : bool :=
  in_range 9 13 c || in_range 28 32 c || (c =? 133)%N || (c =? 160)%N
  || (c =? 5760)%N || in_range 8192 8202 c || (c =? 8232)%N || (c =? 8233)%N
  || (c =? 8239)%N || (c =? 8287)%N || (c =? 12288)%N.

(** The class [\d] of [re] (category Nd). *)
Definition isdecimal (c : N) : bool := in_range 48 57 c.

(** [str.isdigit] on one code point: the decimal digits and the
    superscripts U+00B2, U+00B3, U+00B9. *)
Definition isdigit_char (c : N) : bool :=
  isdecimal c || (c =? 178)%N || (c =? 179)%N || (c =? 185)%N.

(** The class [[a-zA-Z]] of [re]. *)
Definition is_ascii_letter (c : N) : bool :=
  in_range 65 90 c || in_range 97 122 c.

(** The class [\w] of [re]: alphanumerics and the underscore. *)
Definition is_word_char (c : N) : bool :=
  in_range 48 57 c || in_range 65 90 c || (c =? 95)%N || in_range 97 122 c
  || (c =? 170)%N || (c =? 178)%N || (c =? 179)%N || (c =? 181)%N
  || (c =? 185)%N || (c =? 186)%N || in_range 188 190 c
  || in_range 192 214 c || in_range 216 246 c || in_range 248 255 c
  || (256 <=? c)%N && negb (isspace c) && negb (in_range 768 879 c).

(** [str.lower] on one code point. *)
Definition lower_char (c : N) : N :=
  if in_range 65 90 c then (c + 32)%N
  else if in_range 192 222 c && negb (c =? 215)%N then (c + 32)%N
  else c.

(** [unicodedata.normalize('NFD', c)] with the characters of category
    [Mn] removed: an accented Latin-1 letter becomes its base letter and
    a combining mark disappears. *)
Definition strip_marks_char (c : N) : str :=
  if in_range 768 879 c then []
  else if in_range 192 197 c then [65%N]
  else if (c =? 199)%N then [67%N]
  else if in_range 200 203 c then [69%N]
  else if in_range 204 207 c then [73%N]
  else if (c =? 209)%N then [78%N]
  else if in_range 210 214 c then [79%N]
  else if in_range 217 220 c then [85%N]
  else if (c =? 221)%N then [89%N]
  else if in_range 224 229 c then [97%N]
  else if (c =? 231)%N then [99%N]
  else if in_range 232 235 c then [101%N]
  else if in_range 236 239 c then [105%N]
  else if (c =? 241)%N then [110%N]
  else if in_range 242 246 c then [111%N]
  else if in_range 249 252 c then [117%N]
  else if (c =? 253)%N || (c =? 255)%N then [121%N]
  else [c].

(** *** String methods *)

Definition lower (s : str) : str := map lower_char s.

Fixpoint lstrip (s : str) : str :=
  match s with
  | c :: r => if isspace c then lstrip r else s
  | [] => []
  end.

Definition rstrip (s : str) : str := rev (lstrip (rev s)).

Definition strip (s : str) : str := rstrip (lstrip s).

(** [s.split()]: the maximal runs of characters that are not white
    space.  [cur] is the run being read, most recent character first. *)
Fixpoint split_from (cur : str) (s : str) : list str :=
  match s with
  | [] => match cur with [] => [] | _ => [rev cur] end
  | c :: r =>
    if isspace c then
      match cur with
      | [] => split_from [] r
      | _ => rev cur :: split_from [] r
      end
    else split_from (c :: cur) r
  end.

Definition split (s : str) : list str := split_from [] s.

(** [" ".join(ws)]. *)
Fixpoint join (ws : list str) : str :=
  match ws with
  | [] => []
  | [w] => w
  | w :: r => w ++ 32%N :: join r
  end.

Definition str_eqb (a b : str) : bool := bool_decide (a = b).

(** [w in ws] for a list (or the keys of a dict) of strings. *)
Definition mem (w : str) (ws : list str) : bool := existsb (str_eqb w) ws.

Fixpoint starts_with (w s : str) : bool :=
  match w, s with
  | [], _ => true
  | a :: w', b :: s' => (a =? b)%N && starts_with w' s'
  | _ :: _, [] => false
  end.

(** [w in s] for two strings: [w] occurs in [s] as a substring. *)
Fixpoint contains (s w : str) : bool :=
  starts_with w s || match s with [] => false | _ :: r => contains r w end.

(** [s.isdigit()]. *)
Definition isdigit (s : str) : bool :=
  match s with [] => false | _ => forallb isdigit_char s end.

(** The most digits [int] converts ([sys.int_info.default_max_str_digits]). *)
Definition max_str_digits : nat := 4300.

(** [int(s)] for a string that passed [isdigit]: the decimal value when
    every character is a decimal digit and there are no more than
    [max_str_digits] of them, [ValueError] otherwise (the superscript
    digits are digits to [isdigit] and not to [int], and the
    interpreter refuses to convert a longer string). *)
Definition int_of_str (s : str) : result Z :=
  if forallb isdecimal s && negb (bool_decide (s = []))
     && (length s <=? max_str_digits)%nat then
    Ok (fold_left (fun acc c => 10 * acc + (Z.of_N c - 48)) s 0)
  else Raise ValueError.

(** [str(n)] for an integer. *)
Definition str_of_int (n : Z) : str :=
  map N_of_ascii (list_ascii_of_string (NilZero.string_of_int (Z.to_int n))).

(** *** Floats *)

(** Conversion of an [int] to a [float]; exact for [0 <= n < 2^53]. *)
Definition float_of_int (n : Z) : float := PrimFloat.of_uint63 (Uint63.of_Z n).

(** [a / b] on two integers (true division); the quotient is correctly
    rounded because both operands are exact. *)
Definition truediv (a b : Z) : float := (float_of_int a / float_of_int b)%float.

Definition round_half_even (num den : Z) : Z :=
  let q := num / den in
  match 2 * (num mod den) ?= den with
  | Lt => q
  | Gt => q + 1
  | Eq => if Z.even q then q else q + 1
  end.

(** [round(x, 2)]: the exact value of [x] is rounded half-even to two
    decimals, and the decimal is read back as the nearest float (the
    division of the integer numerator by 100 is correctly rounded; the
    numerator is exact for the scores, which lie between 0 and 100). *)
Definition round2 (x : float) : float :=
  match Prim2SF x with
  | S754_finite s m e =>
    let n := if 0 <=? e then 100 * Z.pos m * 2 ^ e
             else round_half_even (100 * Z.pos m) (2 ^ (- e)) in
    let r := (float_of_int n / 100)%float in
    if s then (- r)%float else r
  | _ => x
  end.

(** *** Dictionaries

    A [dict] keeps its keys in insertion order; assigning to a key that
    is present overwrites the value in place. *)

Definition dict (V : Type) := list (str * V).

Fixpoint dict_set {V} (d : dict V) (k : str) (v : V) : dict V :=
  match d with
  | [] => [(k, v)]
  | (k', v') :: r =>
    if str_eqb k k' then (k', v) :: r else (k', v') :: dict_set r k v
  end.

Fixpoint dict_get {V} (d : dict V) (k : str) : option V :=
  match d with
  | [] => None
  | (k', v) :: r => if str_eqb k k' then Some v else dict_get r k
  end.

(** A dict display [{k1: v1, k2: v2, ...}], and [{**d1, **d2}] when
    applied to the concatenation of the items. *)
Definition dict_of_items {V} (items : list (str * V)) : dict V :=
  fold_left (fun d kv => dict_set d kv.1 kv.2) items [].

Definition dict_in {V} (k : str) (d : dict V) : bool :=
  match dict_get d k with Some _ => true | None => false end.

Definition keys {V} (d : dict V) : list str := map fst d.

(** [sorted(l, key=key, reverse=True)]: a stable sort, elements with
    equal keys keep their order. *)
Fixpoint insert_desc {A} (key : A -> nat) (x : A) (l : list A) : list A :=
  match l with
  | [] => [x]
  | y :: r => if (key y <? key x)%nat then x :: l else y :: insert_desc key x r
  end.

Definition sorted_desc {A} (key : A -> nat) (l : list A) : list A :=
  fold_left (fun acc x => insert_desc key x acc) l [].

(** *** The substitutions of [re] and [str.replace] used by the program *)

(** [re.sub(r"(\d+)([a-zA-Z])", r"\1 \2", s)]: a match is a maximal run
    of digits and the letter after it, so a space is inserted wherever a
    digit is followed by a letter. *)
Fixpoint sub_digit_letter (s : str) : str :=
  match s with
  | a :: r =>
    match r with
    | b :: _ =>
      if isdecimal a && is_ascii_letter b then a :: 32%N :: sub_digit_letter r
      else a :: sub_digit_letter r
    | [] => [a]
    end
  | [] => []
  end.

(** [re.sub(r"([a-zA-Z])(\d+)", r"\1 \2", s)]: a space is inserted
    wherever a letter is followed by a digit. *)
Fixpoint sub_letter_digit (s : str) : str :=
  match s with
  | a :: r =>
    match r with
    | b :: _ =>
      if is_ascii_letter a && isdecimal b then a :: 32%N :: sub_letter_digit r
      else a :: sub_letter_digit r
    | [] => [a]
    end
  | [] => []
  end.

(** [s.replace(old, new)]: the occurrences of [old] are replaced from
    left to right without overlap.  [skip] counts the characters of the
    current occurrence that remain to be passed over. *)
Fixpoint replace_from (old new : str) (skip : nat) (s : str) : str :=
  match s with
  | [] => []
  | c :: r =>
    match skip with
    | S k => replace_from old new k r
    | O =>
      if starts_with old s then new ++ replace_from old new (length old - 1) r
      else c :: replace_from old new 0 r
    end
  end.

Definition replace (s old new : str) : str := replace_from old new 0 s.

(** The assertion [\b] between two neighbouring characters ([None] at
    either end of the text). *)
Definition word_boundary (before after : option N) : bool :=
  xorb (from_option is_word_char false before)
       (from_option is_word_char false after).

(** [re.sub(rf"\b{re.escape(w)}\b", f" {w} ", s)]: every occurrence of
    [w] that lies between two word boundaries is wrapped in spaces,
    from left to right without overlap.  [before] is the character that
    precedes [s] in the text. *)
Fixpoint sub_word_from (w : str) (before : option N) (skip : nat) (s : str)
  : str :=
  match s with
  | [] => []
  | c :: r =>
    match skip with
    | S k => sub_word_from w (Some c) k r
    | O =>
      if starts_with w s
         && word_boundary before (head w)
         && word_boundary (last w) (head (drop (length w) s))
      then 32%N :: w ++ 32%N :: sub_word_from w (Some c) (length w - 1) r
      else c :: sub_word_from w (Some c) 0 r
    end
  end.

Definition sub_word (w s : str) : str := sub_word_from w None 0 s.

(** [re.sub(r"\s+", " ", s)]. *)
Fixpoint collapse_spaces_from (in_run : bool) (s : str) : str :=
  match s with
  | [] => []
  | c :: r =>
    if isspace c then
      if in_run then collapse_spaces_from true r
      else 32%N :: collapse_spaces_from true r
    else c :: collapse_spaces_from false r
  end.

Definition collapse_spaces (s : str) : str := collapse_spaces_from false s.

(** [re.sub(r"[,\.;\+\-\/\(\)\[\]\:]", " ", s)]. *)
Definition is_punctuation (c : N) : bool :=
  mem [c] (map (fun x => [x]) (py ",.;+-/()[]:")).

Definition sub_punctuation (s : str) : str :=
  map (fun c => if is_punctuation c then 32%N else c) s.

(** ** Core order processing functions *)

Definition normalize (text : str) : str :=
  strip (concat (map strip_marks_char (lower text))).

(** *** [levenshtein_distance]

    The table [dp] is a list of rows, read with [dp_get] and assigned
    with [dp_set]; every index the function uses is in range. *)

Definition dp_get (dp : list (list Z)) (i j : nat) : Z :=
  from_option (fun row => from_option id 0 (row !! j)) 0 (dp !! i).

Definition dp_set (dp : list (list Z)) (i j : nat) (v : Z) : list (list Z) :=
  alter (fun row => <[j:=v]> row) i dp.

Definition char_at (s : str) (i : nat) : option N := s !! i.

Definition levenshtein_distance (a b : str) : Z :=
  let m := length a in
  let n := length b in
  if (m =? 0)%nat then Z.of_nat n
  else if (n =? 0)%nat then Z.of_nat m
  else
    let dp := replicate (m + 1) (replicate (n + 1) 0) in
    let dp := fold_left (fun dp i => dp_set dp i 0%nat (Z.of_nat i))
                        (seq 0 (m + 1)) dp in
    let dp := fold_left (fun dp j => dp_set dp 0%nat j (Z.of_nat j))
                        (seq 0 (n + 1)) dp in
    let dp :=
      fold_left (fun dp i =>
        fold_left (fun dp j =>
          let cost :=
            if bool_decide (char_at a (i - 1) = char_at b (j - 1)) then 0 else 1 in
          dp_set dp i j
            (Z.min (Z.min (dp_get dp (i - 1) j + 1) (dp_get dp i (j - 1) + 1))
                   (dp_get dp (i - 1) (j - 1) + cost)))
          (seq 1 n) dp)
        (seq 1 m) dp in
    dp_get dp m n.

Definition similarity_percentage (a b : str) : float :=
  let a := normalize a in
  let b := normalize b in
  let distance := levenshtein_distance a b in
  let max_len := Z.max (Z.of_nat (length a)) (Z.of_nat (length b)) in
  if max_len =? 0 then 100%float
  else ((1 - truediv distance max_len) * 100)%float.

(** *** The number-word lexicon *)

Definition units : dict Z := dict_of_items (map (fun kv => (py kv.1, kv.2)) [
    ("0",0); ("1",1); ("2",2); ("3",3); ("4",4); ("5",5); ("6",6); ("7",7); ("8",8); ("9",9);
    ("zero",0); ("um",1); ("uma",1); ("dois",2); ("duas",2); ("dos",2); ("tres",3); ("tres",3); ("treis", 3);
    ("quatro",4); ("quarto",4); ("cinco",5); ("cnico", 5); ("seis",6); ("ses",6); ("sete",7); ("oito",8); ("nove",9); ("nov", 9)
  ]%string).

Definition teens : dict Z := dict_of_items (map (fun kv => (py kv.1, kv.2)) [
    ("dez",10); ("onze",11); ("doze",12); ("treze",13); ("quatorze",14); ("catorze",14);
    ("quinze",15); ("dezesseis",16); ("dezessete",17); ("dezoito",18); ("dezenove",19)
  ]%string).

Definition tens : dict Z := dict_of_items (map (fun kv => (py kv.1, kv.2)) [
    ("vinte",20); ("trinta",30); ("quarenta",40); ("cinquenta",50); ("sessenta",60);
    ("setenta",70); ("oitenta",80); ("noventa",90)
  ]%string).

Definition hundreds : dict Z := dict_of_items (map (fun kv => (py kv.1, kv.2)) [
    ("cem",100); ("cento",100); ("duzentos",200); ("trezentos",300); ("quatrocentos",400);
    ("quinhentos",500); ("seiscentos",600); ("setecentos",700); ("oitocentos",800);
    ("novecentos",900)
  ]%string).

Definition word2num_all : dict Z :=
  Eval vm_compute in dict_of_items (units ++ teens ++ tens ++ hundreds).

(** [parse_number_words]: the loop over [i] walks the tokens from left
    to right, so it is written on the tokens that remain; [total] is the
    running sum. *)
Fixpoint parse_number_words_loop (tokens : list str) (total : Z) : Z :=
  match tokens with
  | [] => total
  | t :: rest =>
    match dict_get hundreds t with
    | Some h => parse_number_words_loop rest (total + h)
    | None =>
      match dict_get tens t with
      | Some val =>
        match rest with
        | u :: rest' =>
          match dict_get units u with
          | Some v => parse_number_words_loop rest' (total + (val + v))
          | None => parse_number_words_loop rest (total + val)
          end
        | [] => parse_number_words_loop rest (total + val)
        end
      | None =>
        match dict_get teens t with
        | Some v => parse_number_words_loop rest (total + v)
        | None =>
          match dict_get units t with
          | Some v => parse_number_words_loop rest (total + v)
          | None => parse_number_words_loop rest total
          end
        end
      end
    end
  end.

(** Parse list of number-word tokens (no 'e' tokens) into integer;
    [None] when the total is not positive. *)
Definition parse_number_words (tokens : list str) : option Z :=
  let total := parse_number_words_loop tokens 0 in
  if 0 <? total then Some total else None.

Definition protected_teens : list str :=
  map py ["dezesseis"; "dezessete"; "dezoito"; "dezenove"]%string.

(** Insert spaces between digit-word and between number-words glued to
    words. *)
Definition separate_numbers_and_words (text : str) : str :=
  let text := lower text in
  let text := sub_digit_letter text in
  let text := sub_letter_digit text in
  let text := fold_left (fun text teen =>
                replace text teen (32%N :: teen ++ [32%N]))
              protected_teens text in
  let keys := sorted_desc (@length N) (keys word2num_all) in
  let text := fold_left (fun text w =>
                if negb (mem w protected_teens) then sub_word w text else text)
              keys text in
  strip (collapse_spaces text).

(** *** [extract_numbers_and_positions] *)

Definition e_token : str := py "e".

(** The inner loop: from [tokens[j:]], the tokens appended to
    [num_tokens] and the distance [j] advances; a pair is taken while an
    "e" is followed by a number word. *)
Fixpoint number_run (rest : list str) : list str * nat :=
  match rest with
  | t1 :: t2 :: rest' =>
    if str_eqb t1 e_token && dict_in t2 word2num_all then
      let '(run, k) := number_run rest' in (t1 :: t2 :: run, S (S k))
    else ([], 0%nat)
  | _ => ([], 0%nat)
  end.

(** The outer loop at index [i], with [rest = tokens[i:]]; [skip] is the
    number of tokens still to pass over after [i = j]. *)
Fixpoint extract_from (i skip : nat) (rest : list str)
  : result (list (nat * Z)) :=
  match rest with
  | [] => Ok []
  | t :: rest' =>
    match skip with
    | S k => extract_from (S i) k rest'
    | O =>
      if isdigit t then
        let* n := int_of_str t in
        let* numbers := extract_from (S i) 0 rest' in
        Ok ((i, n) :: numbers)
      else if dict_in t word2num_all then
        let '(run, k) := number_run rest' in
        let num_tokens := t :: run in
        match parse_number_words
                (filter (fun t => negb (str_eqb t e_token)) num_tokens) with
        | Some number =>
          let* numbers := extract_from (S i) k rest' in
          Ok ((i, number) :: numbers)
        | None => extract_from (S i) 0 rest'
        end
      else extract_from (S i) 0 rest'
    end
  end.

(** Extract all numbers and their positions from tokens. *)
Definition extract_numbers_and_positions (tokens : list str)
  : result (list (nat * Z)) :=
  extract_from 0 0 tokens.

(** *** [find_associated_number] *)

Definition is_number_token (t : option str) : bool :=
  from_option (fun t => isdigit t || dict_in t word2num_all) false t.

(** [max(l, key=lambda x: x[0])] and [min(l, key=lambda x: x[0])] on a
    list of pairs: the first element with the extreme position. *)
Fixpoint max_by_pos (best : nat * Z) (l : list (nat * Z)) : nat * Z :=
  match l with
  | [] => best
  | x :: r => max_by_pos (if (best.1 <? x.1)%nat then x else best) r
  end.

Fixpoint min_by_pos (best : nat * Z) (l : list (nat * Z)) : nat * Z :=
  match l with
  | [] => best
  | x :: r => min_by_pos (if (x.1 <? best.1)%nat then x else best) r
  end.

(** The loop [for pos, val in numbers: if pos == p: return val, pos]. *)
Definition number_at (p : nat) (numbers : list (nat * Z)) : option (nat * Z) :=
  find (fun x => (x.1 =? p)%nat) numbers.

(** Find the number associated with a product based on word order
    patterns; the result is the quantity and the position of the number
    it came from ([None] for the default).  [product_position] is the
    index of a token, as in the one call of the program, or the number
    of tokens: beyond that, and with numbers present, the source raises
    [IndexError] at [all_tokens[product_position - 1]], which this
    function does not do. *)
Definition find_associated_number (product_position : nat)
    (all_tokens : list str) (numbers_with_positions : list (nat * Z))
  : Z * option nat :=
  match numbers_with_positions with
  | [] => (1, None)
  | _ =>
    let pattern1 :=
      if (0 <? product_position)%nat
         && is_number_token (all_tokens !! (product_position - 1)%nat)
      then number_at (product_position - 1) numbers_with_positions
      else None in
    match pattern1 with
    | Some (pos, val) => (val, Some pos)
    | None =>
      let numbers_before :=
        filter (fun x => (x.1 <? product_position)%nat) numbers_with_positions in
      match numbers_before with
      | first :: others =>
        let closest_before := max_by_pos first others in
        (closest_before.2, Some closest_before.1)
      | [] =>
        let pattern3 :=
          if (product_position + 1 <? length all_tokens)%nat
             && is_number_token (all_tokens !! (product_position + 1)%nat)
          then number_at (product_position + 1) numbers_with_positions
          else None in
        match pattern3 with
        | Some (pos, val) => (val, Some pos)
        | None =>
          let numbers_after :=
            filter (fun x => (product_position <? x.1)%nat)
                   numbers_with_positions in
          match numbers_after with
          | first :: others =>
            let closest_after := min_by_pos first others in
            (closest_after.2, Some closest_after.1)
          | [] => (1, None)
          end
        end
      end
    end
  end.

(** ** The heap of catalog rows

    A catalog is a list of inner lists [[name, quantity]].  An inner
    list is a mutable object: it lives at a location of the heap, and a
    catalog is the list of the locations of its rows.  (No function of
    the program assigns to, appends to or removes from the outer list,
    so it is kept as a value.) *)

Record row := Row { row_name : str; row_qty : Z }.

#[global] Instance row_inhabited : Inhabited row := populate (Row [] 0).

Abbreviation loc := nat (only parsing).
Abbreviation heap := (list row) (only parsing).
Abbreviation catalog := (list nat) (only parsing).

(** The rows of a catalog, read through the heap. *)
Definition rows_of (h : heap) (db : catalog) : list row :=
  map (fun l : loc => h !!! l) db.

(** [deepcopy(db)]: every row is copied to a fresh location; a row that
    occurs twice in [db] is copied once ([memo] maps the rows already
    copied to their copies). *)
Fixpoint deepcopy_from (memo : list (loc * loc)) (db : catalog) (h : heap)
  : catalog * heap :=
  match db with
  | [] => ([], h)
  | l :: rest =>
    match find (fun m => (m.1 =? l)%nat) memo with
    | Some m =>
      let '(copy, h') := deepcopy_from memo rest h in (m.2 :: copy, h')
    | None =>
      let l' := length h in
      let '(copy, h') :=
        deepcopy_from ((l, l') :: memo) rest (h ++ [h !!! l]) in
      (l' :: copy, h')
    end
  end.

Definition deepcopy (db : catalog) (h : heap) : catalog * heap :=
  deepcopy_from [] db h.

(** [db[idx][1] += quantity]. *)
Definition add_quantity (db : catalog) (idx : nat) (quantity : Z) (h : heap)
  : heap :=
  match db !! idx with
  | Some l => alter (fun r => Row (row_name r) (row_qty r + quantity)) l h
  | None => h
  end.

(** ** [parse_order_interactive] *)

(** A parsed order line [{"product": .., "qty": .., "score": ..}]. *)
Record order := Order { product : str; qty : Z; score : float }.

Definition similarity_threshold : float := 80.

Definition filler_words : list str := map py ["quero"; "e"]%string.

(** The scan for the best product: [candidates] are the pairs
    (product name, original index) in the order they are tried, and a
    candidate replaces the best one only with a strictly higher score. *)
Definition best_match (candidates : list (str * nat)) (phrase_norm : str)
  : float * option (str * nat) :=
  fold_left (fun best cand =>
      let score := similarity_percentage phrase_norm (normalize cand.1) in
      if (best.1 <? score)%float then (score, Some cand) else best)
    candidates (0%float, None).

(** "If number position is already used, try to find another number":
    the first number, in the order of extraction, whose position is not
    in [used_numbers]; the association is kept when there is none. *)
Definition take_unused_number (found : Z * option nat)
    (numbers_with_positions : list (nat * Z)) (used_numbers : list nat)
  : Z * option nat :=
  match found.2 with
  | Some number_position =>
    if bool_decide (number_position ∈ used_numbers) then
      match find (fun x => negb (bool_decide (x.1 ∈ used_numbers)))
                 numbers_with_positions with
      | Some (pos, val) => (val, Some pos)
      | None => found
      end
    else found
  | None => found
  end.

(** The state of the main loop. *)
Record parse_state := ParseState {
  ps_i : nat;
  used_positions : list nat;
  used_numbers : list nat;
  parsed_orders : list order;
  ps_heap : heap
}.

Section MainLoop.
Variable tokens : list str.
Variable numbers_with_positions : list (nat * Z).
Variable product_names : list str.
Variable sorted_products : list (str * nat).
Variable max_prod_words : nat.
Variable product_words : list str.
Variable working_db : catalog.

Definition token_at (k : nat) : str := from_option id [] (tokens !! k).

Definition is_filler (t : str) : bool :=
  mem t filler_words && negb (mem t product_words).

(** Lines 432-451 and 474-494: associate a quantity, merge it into the
    working catalog, record the line and mark what was consumed. *)
Definition commit (st : parse_state) (best_product : str)
    (best_original_idx : nat) (best_score : float) (size : nat)
  : parse_state :=
  let i := ps_i st in
  let '(quantity, number_position) :=
    take_unused_number
      (find_associated_number i tokens numbers_with_positions)
      numbers_with_positions (used_numbers st) in
  {| ps_i := i;
     used_positions := used_positions st ++ seq i size;
     used_numbers :=
       match number_position with
       | Some p => used_numbers st ++ [p]
       | None => used_numbers st
       end;
     parsed_orders :=
       parsed_orders st ++ [Order best_product quantity (round2 best_score)];
     ps_heap := add_quantity working_db best_original_idx quantity (ps_heap st)
  |}.

(** The test that rejects a window (lines 401-408). *)
Definition skip_phrase (st : parse_state) (size : nat) : bool :=
  existsb (fun j =>
      bool_decide ((ps_i st + j)%nat ∈ used_positions st)
      || (let t := token_at (ps_i st + j) in
          isdigit t || dict_in t word2num_all || is_filler t))
    (seq 0 size).

(** The loop over the window sizes, longest first; [Some] is the state
    after the first window that reached the threshold (the [break]). *)
Fixpoint try_sizes (st : parse_state) (sizes : list nat) : option parse_state :=
  match sizes with
  | [] => None
  | size :: smaller =>
    if (length tokens <? ps_i st + size)%nat then try_sizes st smaller
    else if skip_phrase st size then try_sizes st smaller
    else
      let phrase_tokens := take size (drop (ps_i st) tokens) in
      let phrase_norm := normalize (join phrase_tokens) in
      match best_match sorted_products phrase_norm with
      | (best_score, Some (best_product, best_original_idx)) =>
        if (similarity_threshold <=? best_score)%float then
          let st' := commit st best_product best_original_idx best_score size in
          Some {| ps_i := (ps_i st + size)%nat;
                  used_positions := used_positions st';
                  used_numbers := used_numbers st';
                  parsed_orders := parsed_orders st';
                  ps_heap := ps_heap st' |}
        else try_sizes st smaller
      | (_, None) => try_sizes st smaller
      end
  end.

(** The fall-back on the single token (lines 457-498). *)
Definition fallback (st : parse_state) : parse_state :=
  let phrase_norm := normalize (token_at (ps_i st)) in
  let st' :=
    match best_match (imap (fun idx p => (p, idx)) product_names) phrase_norm with
    | (best_score, Some (best_product, best_original_idx)) =>
      if negb (bool_decide (best_product = [])) && (50 <? best_score)%float
      then commit st best_product best_original_idx best_score 1
      else st
    | (_, None) => st
    end in
  {| ps_i := (ps_i st + 1)%nat;
     used_positions := used_positions st';
     used_numbers := used_numbers st';
     parsed_orders := parsed_orders st';
     ps_heap := ps_heap st' |}.

Definition advance (st : parse_state) : parse_state :=
  {| ps_i := (ps_i st + 1)%nat;
     used_positions := used_positions st;
     used_numbers := used_numbers st;
     parsed_orders := parsed_orders st;
     ps_heap := ps_heap st |}.

(** One iteration of [while i < len(tokens)]. *)
Definition parse_step (st : parse_state) : parse_state :=
  let i := ps_i st in
  if bool_decide (i ∈ used_positions st) then advance st
  else
    let token := token_at i in
    if is_filler token
       || (isdigit token
           && negb (bool_decide (i ∈ map fst numbers_with_positions)))
       || dict_in token word2num_all
    then advance st
    else
      match try_sizes st (rev (seq 1 (Nat.min max_prod_words 4))) with
      | Some st' => st'
      | None => fallback st
      end.

(** [while i < len(tokens)]: every iteration advances [i], so
    [length tokens] iterations are enough (see [parse_loop_fuel]). *)
Fixpoint parse_loop (fuel : nat) (st : parse_state) : parse_state :=
  match fuel with
  | O => st
  | S fuel' =>
    if (ps_i st <? length tokens)%nat then parse_loop fuel' (parse_step st)
    else st
  end.
End MainLoop.

(** [max(l)] of a generator of integers. *)
Definition max_of (l : list nat) : result nat :=
  match l with
  | [] => Raise ValueError
  | x :: r => Ok (fold_left Nat.max r x)
  end.

(** Interactive version that uses pattern-based quantity association
    with multi-word product support.  The result is the heap after the
    call and either the exception raised or the parsed order lines with
    the working catalog. *)
Definition parse_order_interactive (message : str) (products_db : catalog)
    (h : heap) : heap * result (list order * catalog) :=
  let message := normalize message in
  let message := separate_numbers_and_words message in
  let message := sub_punctuation message in
  let message := strip (collapse_spaces message) in
  let tokens := split message in
  let '(working_db, h) := deepcopy products_db h in
  match extract_numbers_and_positions tokens with
  | Raise e => (h, Raise e)
  | Ok numbers_with_positions =>
    let product_names := map row_name (rows_of h products_db) in
    let sorted_products :=
      sorted_desc (fun x : str * nat => length (split x.1))
                  (imap (fun i p => (p, i)) product_names) in
    match max_of (map (fun p => length (split p)) product_names) with
    | Raise e => (h, Raise e)
    | Ok max_prod_words =>
      let product_words :=
        concat (map (fun p => map normalize (split p)) product_names) in
      let st :=
        parse_loop tokens numbers_with_positions product_names sorted_products
                   max_prod_words product_words working_db
                   (length tokens) (ParseState 0 [] [] [] h) in
      (ps_heap st, Ok (parsed_orders st, working_db))
    end
  end.

(** ** Initialize products_db *)

Definition products_db_literal : list (str * Z) :=
  map (fun kv => (py kv.1, kv.2)) [
    ("limÃ£o", 0);
    ("abacaxi", 0); ("abacaxi com hortelÃ£", 0); ("aÃ§aÃ­", 0); ("acerola", 0);
    ("ameixa", 0); ("cajÃ¡", 0); ("cajÃº", 0); ("goiaba", 0); ("graviola", 0);
    ("manga", 0); ("maracujÃ¡", 0); ("morango", 0); ("seriguela", 0); ("tamarindo", 0);
    ("caixa de ovos", 0); ("ovo", 0); ("queijo", 0)
  ]%string.

(** Evaluating a list display of rows allocates them one after the
    other. *)
Definition new_catalog (items : list (str * Z)) (h : heap) : catalog * heap :=
  (seq (length h) (length items), h ++ map (fun kv => Row kv.1 kv.2) items).

(** The module-level [products_db] in the heap of a fresh interpreter. *)
Definition products_db : catalog := (new_catalog products_db_literal []).1.
Definition initial_heap : heap := (new_catalog products_db_literal []).2.

(** ** OrderSession

    A session object together with the part of the process it acts on:
    [memory] is the heap of catalog rows and [confirmed_orders_table]
    the table [confirmed_orders] of the database, to which
    [_save_final_orders] appends.  A [threading.Timer] is its callback
    and whether it is still waiting to run; [time.time()] and
    [random.choices] are inputs of the operations that read them. *)

Inductive session_state :=
| waiting_for_next | option_ | collecting | confirming | pending_confirmation.

#[global] Instance session_state_eq_dec : EqDecision session_state.
Proof. solve_decision. Defined.

Inductive callback := cb_send_summary | cb_send_reminder.

Record timer := Timer { target : callback; alive : bool }.

Record sql_row := SqlRow {
  sql_user_id : str; sql_session_id : str; sql_product : str;
  sql_quantity : Z; sql_status : str; sql_order_group : str
}.

(** The dict a call of [process_message] returns; a missing ['message']
    key reads as [None]. *)
Record reply := Reply { success : bool; message : option str }.

Definition global_products_db : catalog := products_db.

Module OrderSession.

Record t := {
  session_id : str;
  user_id : str;
  products_db : catalog;
  current_db : catalog;
  confirmed_orders : list (dict Z);
  pending_orders : list (dict Z);
  state : session_state;
  reminder_count : Z;
  message_queue : list str;
  active_timer : option timer;
  last_activity : Z;
  waiting_for_option : bool;
  memory : heap;
  confirmed_orders_table : list sql_row
}.

Definition set_current_db (v : catalog) (s : t) : t :=
  {| session_id := session_id s;
     user_id := user_id s;
     products_db := products_db s;
     current_db := v;
     confirmed_orders := confirmed_orders s;
     pending_orders := pending_orders s;
     state := state s;
     reminder_count := reminder_count s;
     message_queue := message_queue s;
     active_timer := active_timer s;
     last_activity := last_activity s;
     waiting_for_option := waiting_for_option s;
     memory := memory s;
     confirmed_orders_table := confirmed_orders_table s |}.

Definition set_confirmed_orders (v : list (dict Z)) (s : t) : t :=
  {| session_id := session_id s;
     user_id := user_id s;
     products_db := products_db s;
     current_db := current_db s;
     confirmed_orders := v;
     pending_orders := pending_orders s;
     state := state s;
     reminder_count := reminder_count s;
     message_queue := message_queue s;
     active_timer := active_timer s;
     last_activity := last_activity s;
     waiting_for_option := waiting_for_option s;
     memory := memory s;
     confirmed_orders_table := confirmed_orders_table s |}.

Definition set_pending_orders (v : list (dict Z)) (s : t) : t :=
  {| session_id := session_id s;
     user_id := user_id s;
     products_db := products_db s;
     current_db := current_db s;
     confirmed_orders := confirmed_orders s;
     pending_orders := v;
     state := state s;
     reminder_count := reminder_count s;
     message_queue := message_queue s;
     active_timer := active_timer s;
     last_activity := last_activity s;
     waiting_for_option := waiting_for_option s;
     memory := memory s;
     confirmed_orders_table := confirmed_orders_table s |}.

Definition set_state (v : session_state) (s : t) : t :=
  {| session_id := session_id s;
     user_id := user_id s;
     products_db := products_db s;
     current_db := current_db s;
     confirmed_orders := confirmed_orders s;
     pending_orders := pending_orders s;
     state := v;
     reminder_count := reminder_count s;
     message_queue := message_queue s;
     active_timer := active_timer s;
     last_activity := last_activity s;
     waiting_for_option := waiting_for_option s;
     memory := memory s;
     confirmed_orders_table := confirmed_orders_table s |}.

Definition set_reminder_count (v : Z) (s : t) : t :=
  {| session_id := session_id s;
     user_id := user_id s;
     products_db := products_db s;
     current_db := current_db s;
     confirmed_orders := confirmed_orders s;
     pending_orders := pending_orders s;
     state := state s;
     reminder_count := v;
     message_queue := message_queue s;
     active_timer := active_timer s;
     last_activity := last_activity s;
     waiting_for_option := waiting_for_option s;
     memory := memory s;
     confirmed_orders_table := confirmed_orders_table s |}.

Definition set_message_queue (v : list str) (s : t) : t :=
  {| session_id := session_id s;
     user_id := user_id s;
     products_db := products_db s;
     current_db := current_db s;
     confirmed_orders := confirmed_orders s;
     pending_orders := pending_orders s;
     state := state s;
     reminder_count := reminder_count s;
     message_queue := v;
     active_timer := active_timer s;
     last_activity := last_activity s;
     waiting_for_option := waiting_for_option s;
     memory := memory s;
     confirmed_orders_table := confirmed_orders_table s |}.

Definition set_active_timer (v : option timer) (s : t) : t :=
  {| session_id := session_id s;
     user_id := user_id s;
     products_db := products_db s;
     current_db := current_db s;
     confirmed_orders := confirmed_orders s;
     pending_orders := pending_orders s;
     state := state s;
     reminder_count := reminder_count s;
     message_queue := message_queue s;
     active_timer := v;
     last_activity := last_activity s;
     waiting_for_option := waiting_for_option s;
     memory := memory s;
     confirmed_orders_table := confirmed_orders_table s |}.

Definition set_last_activity (v : Z) (s : t) : t :=
  {| session_id := session_id s;
     user_id := user_id s;
     products_db := products_db s;
     current_db := current_db s;
     confirmed_orders := confirmed_orders s;
     pending_orders := pending_orders s;
     state := state s;
     reminder_count := reminder_count s;
     message_queue := message_queue s;
     active_timer := active_timer s;
     last_activity := v;
     waiting_for_option := waiting_for_option s;
     memory := memory s;
     confirmed_orders_table := confirmed_orders_table s |}.

Definition set_waiting_for_option (v : bool) (s : t) : t :=
  {| session_id := session_id s;
     user_id := user_id s;
     products_db := products_db s;
     current_db := current_db s;
     confirmed_orders := confirmed_orders s;
     pending_orders := pending_orders s;
     state := state s;
     reminder_count := reminder_count s;
     message_queue := message_queue s;
     active_timer := active_timer s;
     last_activity := last_activity s;
     waiting_for_option := v;
     memory := memory s;
     confirmed_orders_table := confirmed_orders_table s |}.

Definition set_memory (v : heap) (s : t) : t :=
  {| session_id := session_id s;
     user_id := user_id s;
     products_db := products_db s;
     current_db := current_db s;
     confirmed_orders := confirmed_orders s;
     pending_orders := pending_orders s;
     state := state s;
     reminder_count := reminder_count s;
     message_queue := message_queue s;
     active_timer := active_timer s;
     last_activity := last_activity s;
     waiting_for_option := waiting_for_option s;
     memory := v;
     confirmed_orders_table := confirmed_orders_table s |}.

Definition set_confirmed_orders_table (v : list sql_row) (s : t) : t :=
  {| session_id := session_id s;
     user_id := user_id s;
     products_db := products_db s;
     current_db := current_db s;
     confirmed_orders := confirmed_orders s;
     pending_orders := pending_orders s;
     state := state s;
     reminder_count := reminder_count s;
     message_queue := message_queue s;
     active_timer := active_timer s;
     last_activity := last_activity s;
     waiting_for_option := waiting_for_option s;
     memory := memory s;
     confirmed_orders_table := v |}.


Definition put (text : str) (s : t) : t :=
  set_message_queue (message_queue s ++ [text]) s.

Definition init (session_id user_id : str) (now : Z) (h : heap)
    (table : list sql_row) : t :=
  let '(pdb, h) := deepcopy global_products_db h in
  let '(cdb, h) := deepcopy global_products_db h in
  {| session_id := session_id; user_id := user_id;
     products_db := pdb; current_db := cdb;
     confirmed_orders := []; pending_orders := [];
     state := waiting_for_next; reminder_count := 0;
     message_queue := []; active_timer := None;
     last_activity := now; waiting_for_option := false;
     memory := h; confirmed_orders_table := table |}.

Definition current_rows (s : t) : list row := rows_of (memory s) (current_db s).

(** Check if there are any items in the order *)
Definition has_items (s : t) : bool :=
  existsb (fun r => 0 <? row_qty r) (current_rows s).

(** Get current orders as dict *)
Definition get_current_orders (s : t) : dict Z :=
  dict_of_items
    (map (fun r => (row_name r, row_qty r))
         (filter (fun r => 0 <? row_qty r) (current_rows s))).

(** Save orders with order_group support *)
Definition _save_final_orders (orders_list : list (dict Z))
    (status order_group : str) (s : t) : t :=
  set_confirmed_orders_table
    (confirmed_orders_table s ++
     concat (map (fun order : dict Z =>
               map (fun kv => SqlRow (user_id s) (session_id s) kv.1 kv.2
                                     status order_group)
                   (filter (fun kv => 0 <? kv.2) order))
             orders_list)) s.

(** Cancel active timer *)
Definition _cancel_timer (s : t) : t := set_active_timer None s.

Definition start_timer (cb : callback) (s : t) : t :=
  set_active_timer (Some (Timer cb true)) s.

(** Start the inactivity timer *)
Definition _start_inactivity_timer (s : t) : t :=
  start_timer cb_send_summary (_cancel_timer s).

(** Reset current session (temp items) completely *)
Definition _reset_current (s : t) : t :=
  let '(db, h) := deepcopy (products_db s) (memory s) in
  let s := set_current_db db (set_memory h s) in
  let s := set_state collecting s in
  let s := set_reminder_count 0 s in
  _cancel_timer s.

(** The text [start_new_conversation] queues. *)
Definition restart_notice : str :=
  (py "ðŸ”„ **Conversa reiniciada!**").

(** Reset for a new conversation and wait for next message *)
Definition start_new_conversation (s : t) : t :=
  let '(db, h) := deepcopy (products_db s) (memory s) in
  let s := set_current_db db (set_memory h s) in
  let s := set_state waiting_for_next s in
  let s := set_reminder_count 0 s in
  let s := set_waiting_for_option false s in
  let s := _cancel_timer s in
  put restart_notice s.

(** The loop shared by [add_item] and [reset_cycle]: each order is
    added to the first row of the current catalog with its product. *)
Definition add_orders (parsed_orders : list order) (s : t) : t :=
  fold_left (fun s order =>
      match find (fun ir : nat * row => str_eqb (row_name ir.2) (product order))
                 (imap (fun idx r => (idx, r)) (current_rows s)) with
      | Some (idx, _) =>
        set_memory (add_quantity (current_db s) idx (qty order) (memory s)) s
      | None => s
      end)
    parsed_orders s.

(** Add parsed items to current database *)
Definition add_item (parsed_orders : list order) (s : t) : t :=
  let s := add_orders parsed_orders s in
  let s := set_state collecting s in
  _start_inactivity_timer s.

(** Reset cycle and add items during confirmation phase *)
Definition reset_cycle (parsed_orders : list order) (s : t) : t :=
  let s := _cancel_timer s in
  let s := add_orders parsed_orders s in
  let s := set_state collecting s in
  let s := set_reminder_count 0 s in
  _start_inactivity_timer s.

(** Build summary message *)
Definition _build_summary (s : t) : str :=
  let summary := (py "ðŸ“‹ **RESUMO DO SEU PEDIDO:**" ++ [10%N]) in
  let summary :=
    fold_left (fun summary kv =>
        if 0 <? kv.2 then
          summary ++ (py "â€¢ ") ++ kv.1 ++ (py ": ") ++ str_of_int kv.2 ++ ([10%N])
        else summary)
      (get_current_orders s) summary in
  summary ++ ([10%N] ++ py "âš ï¸ **Confirma o pedido?** (responda com 'confirmar' ou 'nao')").

(** Start reminder cycle *)
Definition _start_reminder_cycle (s : t) : t :=
  let s := set_reminder_count 1 s in
  let s := _cancel_timer s in
  start_timer cb_send_reminder s.

(** Send summary and start confirmation cycle *)
Definition _send_summary (s : t) : t :=
  if bool_decide (state s = collecting) && has_items s then
    let s := set_state confirming s in
    let s := set_reminder_count 0 s in
    let summary := _build_summary s in
    let s := put summary s in
    _start_reminder_cycle s
  else if bool_decide (state s = collecting) then _start_inactivity_timer s
  else s.

Definition main_group : str := py "main".

(** The text [_mark_as_pending] queues. *)
Definition auto_confirmed_notice : str :=
  (py "ðŸŸ¡ **PEDIDO CONFIRMADO AUTOMATICAMENTE** - O pedido foi salvo e aguarda sua confirmaÃ§Ã£o final na barra lateral.").

(** Mark current order as auto-confirmed with unique order group;
    [now] is [int(time.time())] and [random_part] the six characters
    drawn by [random.choices]. *)
Definition _mark_as_pending (now : Z) (random_part : str) (s : t) : t :=
  if has_items s then
    let auto_order := get_current_orders s in
    let timestamp :=
      let digits := str_of_int now in drop (length digits - 6) digits in
    let order_group_id :=
      py "auto_" ++ timestamp ++ py "_" ++ random_part in
    let s := _save_final_orders [auto_order] (py "auto_confirmed")
                                order_group_id s in
    let s := put auto_confirmed_notice s in
    let s := _reset_current s in
    set_state waiting_for_next s
  else s.

(** Send a reminder *)
Definition _send_reminder (now : Z) (random_part : str) (s : t) : t :=
  if bool_decide (state s = confirming) && (reminder_count s <=? 5) then
    let summary := _build_summary s in
    let s := put ((py "ðŸ”” **LEMBRETE (") ++ str_of_int (reminder_count s)
                  ++ (py "/5):**" ++ [10%N]) ++ summary) s in
    if reminder_count s =? 5 then _mark_as_pending now random_part s
    else
      let s := set_reminder_count (reminder_count s + 1) s in
      let s := _cancel_timer s in
      start_timer cb_send_reminder s
  else s.

(** Check if message contains cancel commands *)
Definition cancel_commands : list str :=
  [(py "cancelar"); (py "hoje nÃ£o"); (py "hoje nao")].

Definition _check_cancel_command (message_lower : str) : bool :=
  existsb (fun command => contains message_lower command) cancel_commands.

(** [any(word in message_lower.split() for word in words)] *)
Definition any_word (words : list str) (message_lower : str) : bool :=
  existsb (fun word => mem word (split message_lower)) words.

Definition parse_current (message : str) (s : t)
  : t * result (list order * catalog) :=
  let '(h, r) := parse_order_interactive message (current_db s) (memory s) in
  (set_memory h s, r).

(** Process incoming message; [now] is the reading of the clock. *)
Definition process_message (now : Z) (message : str) (s : t)
  : t * result reply :=
  let message_lower := strip (lower message) in
  let s := set_last_activity now s in
  if _check_cancel_command message_lower then
    (start_new_conversation s, Ok (Reply true None))
  else if bool_decide (state s = waiting_for_next) then
    let s := set_state option_ s in
    let s := set_waiting_for_option true s in
    (s, Ok (Reply true (Some (py "ðŸ”„ **Conversa reiniciada!**" ++ [10%N] ++ [10%N] ++ py "VocÃª quer pedir(1) ou falar com o gerente(2)?"))))
  else if bool_decide (state s = option_) && waiting_for_option s then
    if str_eqb message_lower (py "1") then
      let s := set_waiting_for_option false s in
      let s := set_state collecting s in
      let s := _start_inactivity_timer s in
      (s, Ok (Reply true (Some (py "Ã“timo! Digite seus pedidos. Ex: '2 mangas e 3 queijos'"))))
    else if str_eqb message_lower (py "2") then
      let s := set_waiting_for_option false s in
      let s := set_state waiting_for_next s in
      (s, Ok (Reply true (Some (py "Ok entÃ£o."))))
    else (s, Ok (Reply false (Some (py "Por favor, escolha uma opÃ§Ã£o: 1 para pedir ou 2 para falar com o gerente."))))
  else if bool_decide (state s = pending_confirmation) then
    if any_word [(py "confirmar"); (py "sim"); (py "s")] message_lower then
      match pending_orders s with
      | _ :: _ =>
        let s := set_confirmed_orders (confirmed_orders s ++ pending_orders s) s in
        let s := _save_final_orders (pending_orders s) (py "confirmed")
                                    main_group s in
        let pending_count := Z.of_nat (length (pending_orders s)) in
        let s := set_pending_orders [] s in
        let s := set_state collecting s in
        let s := _start_inactivity_timer s in
        (s, Ok (Reply true (Some ((py "âœ… **PEDIDO PENDENTE CONFIRMADO!** ") ++ str_of_int pending_count
                                  ++ (py " pedido(s) adicionado(s) Ã  lista.")))))
      | [] =>
        if any_word [(py "cancelar"); (py "nao"); (py "nÃ£o"); (py "n")] message_lower then
          let s := set_pending_orders [] s in
          let s := set_state collecting s in
          let s := _start_inactivity_timer s in
          (s, Ok (Reply true (Some (py "ðŸ”„ Pedidos pendentes cancelados. Continue adicionando itens."))))
        else (s, Ok (Reply false (Some (py "âŒ Por favor, confirme ou cancele o pedido pendente. Digite 'confirmar' para confirmar ou 'cancelar' para cancelar."))))
      end
    else
      let s := set_state collecting s in
      let s := _start_inactivity_timer s in
      match parse_current message s with
      | (s, Raise e) => (s, Raise e)
      | (s, Ok (parsed_orders, updated_db)) =>
        let s := set_current_db updated_db s in
        match parsed_orders with
        | _ :: _ => (s, Ok (Reply true None))
        | [] => (s, Ok (Reply true (Some (py "âŒ Nenhum item reconhecido. Tente usar termos como '2 mangas', 'cinco queijos', etc."))))
        end
      end
  else if bool_decide (state s = confirming) then
    if any_word [(py "confirmar"); (py "sim"); (py "s")] message_lower then
      let s := _cancel_timer s in
      let confirmed_order := get_current_orders s in
      let s := set_confirmed_orders (confirmed_orders s ++ [confirmed_order]) s in
      let s := _save_final_orders [confirmed_order] (py "confirmed")
                                  main_group s in
      let s := _reset_current s in
      let response := (py "âœ… **PEDIDO CONFIRMADO COM SUCESSO!**" ++ [10%N] ++ [10%N] ++ py "**Itens confirmados:**" ++ [10%N]) in
      let response :=
        fold_left (fun response kv =>
            if 0 <? kv.2 then
              response ++ (py "â€¢ ") ++ str_of_int kv.2 ++ (py "x ") ++ kv.1
                       ++ ([10%N])
            else response)
          confirmed_order response in
      let response := response ++ ([10%N] ++ py "Obrigado pelo pedido! ðŸŽ‰") in
      (s, Ok (Reply true (Some response)))
    else if any_word [(py "nao"); (py "nÃ£o"); (py "n")] message_lower then
      let s := _cancel_timer s in
      let s := _reset_current s in
      let s := _start_inactivity_timer s in
      (s, Ok (Reply true (Some (py "ðŸ”„ **Lista limpa!** Digite novos itens."))))
    else
      match parse_current message s with
      | (s, Raise e) => (s, Raise e)
      | (s, Ok (parsed_orders, updated_db)) =>
        match parsed_orders with
        | _ :: _ =>
          let s := set_current_db updated_db s in
          let s := _cancel_timer s in
          let s := set_state collecting s in
          let s := set_reminder_count 0 s in
          let s := _start_inactivity_timer s in
          (s, Ok (Reply true None))
        | [] => (s, Ok (Reply false (Some (py "âŒ Item nÃ£o reconhecido. Digite 'confirmar' para confirmar ou 'nao' para cancelar."))))
        end
      end
  else if bool_decide (state s = collecting) then
    if mem message_lower [(py "pronto"); (py "confirmar")] then
      if has_items s then
        let s := _send_summary s in
        (s, Ok (Reply true (Some (py "ðŸ“‹ Preparando seu resumo..."))))
      else (s, Ok (Reply false (Some (py "âŒ Lista vazia. Adicione itens primeiro."))))
    else
      match parse_current message s with
      | (s, Raise e) => (s, Raise e)
      | (s, Ok (parsed_orders, updated_db)) =>
        let s := set_current_db updated_db s in
        match parsed_orders with
        | _ :: _ =>
          let s := _start_inactivity_timer s in
          (s, Ok (Reply true None))
        | [] =>
          let s := _start_inactivity_timer s in
          (s, Ok (Reply false (Some (py "âŒ Nenhum item reconhecido. Tente usar termos como '2 mangas', 'cinco queijos', etc."))))
        end
      end
  else (s, Ok (Reply false (Some (py "Estado nÃ£o reconhecido. Digite 'cancelar' para reiniciar.")))).

(** Get pending message if any *)
Definition get_pending_message (s : t) : t * option str :=
  match message_queue s with
  | text :: rest => (set_message_queue rest s, Some text)
  | [] => (s, None)
  end.

(** The timer thread: a timer that is still alive runs its callback
    once. *)
Definition fire (now : Z) (random_part : str) (s : t) : option t :=
  match active_timer s with
  | Some (Timer cb true) =>
    let s := set_active_timer (Some (Timer cb false)) s in
    Some match cb with
         | cb_send_summary => _send_summary s
         | cb_send_reminder => _send_reminder now random_part s
         end
  | _ => None
  end.

End OrderSession.

(** ** Definitions used by the statements *)

(** *** Edit distance, by its recurrence

    [lev a b i j] is the edit distance between the first [i] characters
    of [a] and the first [j] characters of [b]; the table of
    [levenshtein_distance] is filled with its values. *)

Definition edit_cost (a b : str) (i j : nat) : Z :=
  if bool_decide (char_at a i = char_at b j) then 0 else 1.

Fixpoint lev (a b : str) (i : nat) : nat -> Z :=
  match i with
  | O => fun j => Z.of_nat j
  | S i' =>
    fix row (j : nat) : Z :=
      match j with
      | O => Z.of_nat (S i')
      | S j' =>
        Z.min (Z.min (lev a b i' (S j') + 1) (row j' + 1))
              (lev a b i' j' + edit_cost a b i' j')
      end
  end.

(** A table of [m + 1] rows of [n + 1] cells. *)
Definition well_shaped (m n : nat) (dp : list (list Z)) : Prop :=
  length dp = S m /\ Forall (fun row => length row = S n) dp.

(** The state of the table when the loops reach the cell [(i, j)]: the
    first column, the rows above [i] and the cells of row [i] to the left
    of [j] hold the distances. *)
Definition filled (a b : str) (i j : nat) (dp : list (list Z)) : Prop :=
  well_shaped (length a) (length b) dp /\
  (forall i', (i' <= length a)%nat -> dp_get dp i' 0 = Z.of_nat i') /\
  (forall i' j', (i' < i)%nat -> (j' <= length b)%nat ->
                 dp_get dp i' j' = lev a b i' j') /\
  (forall j', (j' < j)%nat -> (j' <= length b)%nat ->
              dp_get dp i j' = lev a b i j').

(** *** Reading the result of an extraction *)

(** The product and the quantity of the order lines. *)
Definition lines_of (orders : list order) : list (str * Z) :=
  map (fun o => (product o, qty o)) orders.

(** A run of [parse_order_interactive] on a catalog given by its rows,
    in a heap that holds nothing else: the order lines, the rows of the
    working catalog returned, and the rows of the catalog passed in as
    they are after the call. *)
Definition parse_rows (message : str) (items : list (str * Z))
  : result (list order * list row) * list row :=
  let '(db, h) := new_catalog items [] in
  let '(h', r) := parse_order_interactive message db h in
  (match r with
   | Ok (orders, working_db) => Ok (orders, rows_of h' working_db)
   | Raise e => Raise e
   end,
   rows_of h' db).

(** The tokens the main loop of [parse_order_interactive] walks. *)
Definition tokenize (message : str) : list str :=
  split (strip (collapse_spaces (sub_punctuation
    (separate_numbers_and_words (normalize message))))).

(** The lines and the quantities of the working catalog for a message
    against the catalog of the program. *)
Definition program_lines (message : str) : option (list (str * Z) * list Z) :=
  match (parse_rows message products_db_literal).1 with
  | Ok (orders, rows) => Some (lines_of orders, map row_qty rows)
  | Raise _ => None
  end.

(** *** Heaps and catalogs *)

(** Every location of the catalog is allocated. *)
Definition valid (h : heap) (db : catalog) : Prop :=
  Forall (fun l : loc => (l < length h)%nat) db.

(** No location of the catalog is allocated in [h]: the catalog was
    created after [h]. *)
Definition fresh (h : heap) (db : catalog) : Prop :=
  Forall (fun l : loc => (length h <= l)%nat) db.

(** [h'] has every row of [h], at the same location and unchanged. *)
Definition frame (h h' : heap) : Prop :=
  forall l : loc, (l < length h)%nat -> h' !! l = h !! l.

(** [h'] has every row of [h], with the same name and a quantity that
    is not smaller. *)
Definition grows (h h' : heap) : Prop :=
  (length h <= length h')%nat /\
  forall l : loc, (l < length h)%nat ->
    row_name (h' !!! l) = row_name (h !!! l) /\
    row_qty (h !!! l) <= row_qty (h' !!! l).

Definition nonneg_heap (h : heap) : Prop := Forall (fun r => 0 <= row_qty r) h.

(** Row by row, the same product with a quantity that is not smaller. *)
Definition rows_le (before after : list row) : Prop :=
  Forall2 (fun r r' => row_name r = row_name r' /\ row_qty r <= row_qty r')
          before after.

(** A property of the heap and of the order lines recorded so far, read
    on a state of the main loop. *)
Definition holds (P : heap -> list order -> Prop) (st : parse_state) : Prop :=
  P (ps_heap st) (parsed_orders st).

(** *** Sessions *)

Import OrderSession.

(** What holds of the catalogs of a session: their rows are allocated,
    the rows of the session's own [products_db] hold zeros and are not
    rows of [current_db], and no row of the heap is negative. *)
Definition session_inv (s : OrderSession.t) : Prop :=
  valid (memory s) (products_db s) /\
  valid (memory s) (current_db s) /\
  Forall (fun l : nat => row_qty (memory s !!! l) = 0) (products_db s) /\
  Forall (fun l : nat => l ∉ products_db s) (current_db s) /\
  nonneg_heap (memory s).

#[global] Instance session_inv_dec s : Decision (session_inv s).
Proof. unfold session_inv, valid, nonneg_heap. apply _. Defined.

(** The same without the sign of the rows: what holds of the catalogs
    of a session whatever order lines it is handed. *)
Definition session_shape (s : OrderSession.t) : Prop :=
  valid (memory s) (products_db s) /\
  valid (memory s) (current_db s) /\
  Forall (fun l : nat => row_qty (memory s !!! l) = 0) (products_db s) /\
  Forall (fun l : nat => l ∉ products_db s) (current_db s).

(** What one operation does to the catalogs of a session: nothing; a
    reset of the working catalog to a copy of [products_db]; a run of
    the extraction on the working catalog, whose result replaces it or
    is dropped; or a merge of order lines into the rows of the working
    catalog. *)
Inductive catalog_effect (s s' : OrderSession.t) : Prop :=
| effect_none :
    memory s' = memory s -> current_db s' = current_db s ->
    catalog_effect s s'
| effect_reset :
    deepcopy (products_db s) (memory s) = (current_db s', memory s') ->
    catalog_effect s s'
| effect_parse message r :
    parse_order_interactive message (current_db s) (memory s) = (memory s', r) ->
    current_db s' = current_db s \/ (exists orders, r = Ok (orders, current_db s')) ->
    catalog_effect s s'
| effect_merge :
    current_db s' = current_db s ->
    grows (memory s) (memory s') ->
    length (memory s') = length (memory s) ->
    (forall l : nat, l ∉ current_db s -> memory s' !! l = memory s !! l) ->
    catalog_effect s s'.

(** The operations on a session: a message arrives, the timer runs
    out, the session is reset by hand, a queued message is fetched, and
    order lines are handed to [add_item] or [reset_cycle], which take
    them as they are. *)
Inductive step : OrderSession.t -> OrderSession.t -> Prop :=
| step_process_message now message s :
    step s (process_message now message s).1
| step_fire now random_part s s' :
    fire now random_part s = Some s' -> step s s'
| step_start_new_conversation s :
    step s (start_new_conversation s)
| step_get_pending_message s :
    step s (get_pending_message s).1
| step_add_item parsed_orders s :
    step s (add_item parsed_orders s)
| step_reset_cycle parsed_orders s :
    step s (reset_cycle parsed_orders s).

(** The sessions of a run of the program: a session is created in a
    heap that holds the catalog of the program, unchanged, and rows that
    are not negative; then operations follow one another. *)
Inductive reachable : OrderSession.t -> Prop :=
| reachable_init session_id user_id now h table :
    frame initial_heap h -> nonneg_heap h ->
    reachable (init session_id user_id now h table)
| reachable_step s s' : reachable s -> step s s' -> reachable s'.

(** The same operations, with [add_item] and [reset_cycle] given order
    lines whose quantities are not negative, as the extraction produces
    them; and the sessions they lead to. *)
Inductive step_nonneg : OrderSession.t -> OrderSession.t -> Prop :=
| nonneg_process_message now message s :
    step_nonneg s (process_message now message s).1
| nonneg_fire now random_part s s' :
    fire now random_part s = Some s' -> step_nonneg s s'
| nonneg_start_new_conversation s :
    step_nonneg s (start_new_conversation s)
| nonneg_get_pending_message s :
    step_nonneg s (get_pending_message s).1
| nonneg_add_item parsed_orders s :
    Forall (fun o => 0 <= qty o) parsed_orders ->
    step_nonneg s (add_item parsed_orders s)
| nonneg_reset_cycle parsed_orders s :
    Forall (fun o => 0 <= qty o) parsed_orders ->
    step_nonneg s (reset_cycle parsed_orders s).

Inductive reachable_nonneg : OrderSession.t -> Prop :=
| reachable_nonneg_init session_id user_id now h table :
    frame initial_heap h -> nonneg_heap h ->
    reachable_nonneg (init session_id user_id now h table)
| reachable_nonneg_step s s' :
    reachable_nonneg s -> step_nonneg s s' -> reachable_nonneg s'.


(** The session of a user who chose to order and typed "2 mangas": in
    state [collecting] with the inactivity timer armed. *)
Definition session_with_mangas : OrderSession.t :=
  let s := init (py "session") (py "user") 0 initial_heap [] in
  let s := (process_message 1 (py "oi") s).1 in
  let s := (process_message 2 (py "1") s).1 in
  (process_message 3 (py "2 mangas") s).1.

(** The same session once the inactivity timer has run out: in state
    [confirming]. *)
Definition session_confirming : OrderSession.t :=
  from_option id session_with_mangas (fire 8 [] session_with_mangas).

(** What the operations keep *)
Definition keeps (s s' : OrderSession.t) : Prop :=
  products_db s' = products_db s /\
  session_id s' = session_id s /\ user_id s' = user_id s /\
  confirmed_orders s `prefix_of` confirmed_orders s'.

(** What a reminder that is not the last one keeps. *)
Definition same_order (s s' : OrderSession.t) : Prop :=
  memory s' = memory s /\ current_db s' = current_db s /\
  products_db s' = products_db s /\
  confirmed_orders_table s' = confirmed_orders_table s /\
  user_id s' = user_id s /\ session_id s' = session_id s.

(** A session that was just created. *)
Definition new_session : OrderSession.t :=
  init (py "session") (py "user") 0 initial_heap [].

(** The session of a user who chose to order and has typed no item: in
    state [collecting] with an empty working catalog. *)
Definition session_without_items : OrderSession.t :=
  let s := (process_message 1 (py "oi") new_session).1 in
  (process_message 2 (py "1") s).1.

(** A new session whose [add_item] was handed one line of -3 "manga". *)
Definition session_with_negative_line : OrderSession.t :=
  add_item [Order (py "manga") (-3) 100] new_session.

(** ** Definitions used by the further properties *)

(** The edit distance by recursion on the two strings: the recurrence of
    [lev] read on the strings themselves instead of on indices. *)
Fixpoint ed (a : str) : str -> Z :=
  match a with
  | [] => fun b => Z.of_nat (length b)
  | x :: a' =>
    fix ed_row (b : str) : Z :=
      match b with
      | [] => Z.of_nat (length a)
      | y :: b' =>
        Z.min (Z.min (ed a' b + 1) (ed_row b' + 1))
              (ed a' b' + (if bool_decide (x = y) then 0 else 1))
      end
  end.

(** The code points for which the character tables are exact: Basic
    Latin, Latin-1 Supplement and the combining diacritical marks. *)
Definition latin1_or_mark (c : N) : Prop :=
  (c < 256)%N \/ (768 <= c <= 879)%N.

(** The value of a token in the lexicon, [word2num_all.get(t, 0)]. *)
Definition word_value (t : str) : Z := from_option id 0 (dict_get word2num_all t).

Definition sum_values (tokens : list str) : Z :=
  foldr (fun t acc => word_value t + acc) 0 tokens.

(** A token that [str.isdigit] accepts and [int] rejects. *)
Definition bad_digit_token (t : str) : bool :=
  isdigit t && match int_of_str t with Ok _ => false | Raise _ => true end.

(** The digits of Latin-1 that are not decimal digits: the superscripts
    U+00B2, U+00B3 and U+00B9. *)
Definition superscript_digit (c : N) : bool :=
  (c =? 178)%N || (c =? 179)%N || (c =? 185)%N.

(** The quantity the order lines give to a product. *)
Definition ordered_quantity (name : str) (orders : list order) : Z :=
  foldr (fun o acc => (if str_eqb (product o) name then qty o else 0) + acc)
        0 orders.

(** The catalog rows with the order lines merged in. *)
Definition merge_lines (orders : list order) (rows : list row) : list row :=
  map (fun r => Row (row_name r) (row_qty r + ordered_quantity (row_name r) orders))
      rows.

(** The reply of the last line of [process_message], for a state that
    no branch handles. *)
Definition unrecognised_state : reply :=
  Reply false (Some (py "Estado nÃ£o reconhecido. Digite 'cancelar' para reiniciar.")).

(** The session has a timer that is still waiting to run. *)
Definition live (s : OrderSession.t) : bool :=
  match active_timer s with
  | Some (Timer _ true) => true
  | _ => false
  end.

(** What holds of the control part of a session: the state
    [pending_confirmation] and the list of pending orders are not used;
    the reminder count stays between 0 and 5; a choice is awaited in
    state [option]; in state [confirming] there is something to confirm
    and the reminder timer is armed; no timer is armed while the session
    waits for a first message or for a choice. *)
Definition session_wf (s : OrderSession.t) : Prop :=
  state s <> pending_confirmation /\
  pending_orders s = [] /\
  0 <= reminder_count s <= 5 /\
  (state s = option_ -> waiting_for_option s = true) /\
  (state s = confirming ->
     has_items s = true /\ 1 <= reminder_count s /\
     active_timer s = Some (Timer cb_send_reminder true)) /\
  (state s = waiting_for_next \/ state s = option_ -> live s = false).



(** A row of the table as a session writes it: a positive quantity,
    the identifiers of the session, and either a confirmed order of the
    group "main" or an automatically confirmed order of another group. *)
Definition written_by (s : OrderSession.t) (r : sql_row) : Prop :=
  0 < sql_quantity r /\
  sql_user_id r = user_id s /\ sql_session_id r = session_id s /\
  ((sql_status r = py "confirmed" /\ sql_order_group r = main_group) \/
   (sql_status r = py "auto_confirmed" /\ sql_order_group r <> main_group)).

(** Operations one after the other. *)
Inductive steps : OrderSession.t -> OrderSession.t -> Prop :=
| steps_refl s : steps s s
| steps_step s s' s'' : steps s s' -> step s' s'' -> steps s s''.

(** What the operations do to the table: rows are appended. *)
Definition table_grows (s s' : OrderSession.t) : Prop :=
  exists rows,
    confirmed_orders_table s' = confirmed_orders_table s ++ rows /\
    Forall (written_by s) rows.

(** The messages that [process_message] hands to the extraction: they
    have no cancel phrase, and the session is in state [collecting] and
    the text is not "pronto" or "confirmar", or it is in state
    [confirming] and the text has no word of confirmation or of
    refusal. *)
Definition runs_extraction (s : OrderSession.t) (message : str) : bool :=
  let message_lower := strip (lower message) in
  negb (_check_cancel_command message_lower) &&
  (bool_decide (state s = confirming)
   && negb (any_word [(py "confirmar"); (py "sim"); (py "s")] message_lower)
   && negb (any_word [(py "nao"); (py "nÃ£o"); (py "n")] message_lower)
   || bool_decide (state s = collecting)
      && negb (mem message_lower [(py "pronto"); (py "confirmar")])).

(** ** The registry of sessions and the routes

    The state of the process is the dict [user_sessions], the heap of
    catalog rows and the table [confirmed_orders].  A session object is
    shared between the registry and the route that works on it: the
    route gets the object with the heap and the table of the process as
    its [memory] and [confirmed_orders_table] ([load]), and what it does
    to the object is seen in the registry, under the session's key, and
    in the heap and the table of the process ([store]).
    [str(uuid.uuid4())] and [time.time()] are inputs. *)

Record process := Process {
  user_sessions : dict OrderSession.t;
  process_heap : list row;
  process_table : list sql_row
}.

Definition load (p : process) (s : OrderSession.t) : OrderSession.t :=
  set_confirmed_orders_table (process_table p) (set_memory (process_heap p) s).

Definition store (s : OrderSession.t) (p : process) : process :=
  Process (dict_set (user_sessions p) (session_id s) s) (memory s)
          (confirmed_orders_table s).

(** Truthiness of an optional string: [None] and [""] are false. *)
Definition truthy (x : option str) : bool :=
  match x with
  | Some (_ :: _) => true
  | _ => false
  end.

(** Get or create user session *)
Definition get_user_session (user_id : str) (session_id : option str)
    (uuid4 : str) (now : Z) (p : process) : process * OrderSession.t :=
  let session_id := if truthy session_id then from_option id [] session_id
                    else uuid4 in
  match dict_get (user_sessions p) session_id with
  | Some s => (p, load p s)
  | None =>
    let s := OrderSession.init session_id user_id now (process_heap p)
                               (process_table p) in
    (store s p, s)
  end.

(** The JSON body of a request and the cookie session of Flask, as far
    as the routes read them. *)
Record request := Request {
  json_message : option str;
  json_user_id : option str;
  cookie_user_id : option str
}.

(** [data.get("user_id") or session.get('user_id', "default")] *)
Definition request_user_id (r : request) : str :=
  if truthy (json_user_id r) then from_option id [] (json_user_id r)
  else from_option id (py "default") (cookie_user_id r).

(** What [jsonify] is given: an error or the body of the response. *)
Inductive response (A : Type) :=
| JsonError (text : str)
| Json (body : A).
Arguments JsonError {A} text.
Arguments Json {A} body.

(** The body of the response of [send_message]; [resp_bot_message] is
    [None] when the key is absent. *)
Record message_response := MessageResponse {
  resp_status : session_state;
  resp_current_orders : dict Z;
  resp_confirmed_orders : list (dict Z);
  resp_pending_orders : list (dict Z);
  resp_bot_message : option str
}.

Definition send_message (r : request) (uuid4 : str) (now : Z) (p : process)
  : process * result (response message_response) :=
  let text := strip (from_option id [] (json_message r)) in
  let user_id := request_user_id r in
  if bool_decide (text = []) then (p, Ok (JsonError (py "Mensagem vazia")))
  else
    let '(p, session_obj) := get_user_session user_id None uuid4 now p in
    let '(session_obj, result) := process_message now text session_obj in
    let p := store session_obj p in
    match result with
    | Raise e => (p, Raise e)
    | Ok result =>
      (p, Ok (Json {|
         resp_status := state session_obj;
         resp_current_orders := get_current_orders session_obj;
         resp_confirmed_orders := confirmed_orders session_obj;
         resp_pending_orders := pending_orders session_obj;
         resp_bot_message :=
           if truthy (message result) then message result else None |}))
    end.

(** The body of the response of [get_updates]. *)
Record updates_response := UpdatesResponse {
  upd_state : session_state;
  upd_current_orders : dict Z;
  upd_confirmed_orders : list (dict Z);
  upd_pending_orders : list (dict Z);
  upd_reminders_sent : Z;
  upd_has_message : bool;
  upd_bot_message : option str
}.

(** Get updates including pending messages and session state *)
Definition get_updates (r : request) (uuid4 : str) (now : Z) (p : process)
  : process * updates_response :=
  let user_id := request_user_id r in
  let '(p, session_obj) := get_user_session user_id None uuid4 now p in
  let '(session_obj, pending_message) := get_pending_message session_obj in
  let p := store session_obj p in
  (p, {| upd_state := state session_obj;
         upd_current_orders := get_current_orders session_obj;
         upd_confirmed_orders := confirmed_orders session_obj;
         upd_pending_orders := pending_orders session_obj;
         upd_reminders_sent := reminder_count session_obj;
         upd_has_message :=
           match pending_message with Some _ => true | None => false end;
         upd_bot_message :=
           if truthy pending_message then pending_message else None |}).

(** Reset session manually *)
Definition reset_session (r : request) (uuid4 : str) (now : Z) (p : process)
  : process :=
  let user_id := from_option id (py "default") (cookie_user_id r) in
  let '(p, session_obj) := get_user_session user_id None uuid4 now p in
  store (start_new_conversation session_obj) p.

(** ** The queries on the table [confirmed_orders]

    A WHERE clause is a test on a row; UPDATE rewrites the rows that
    pass it and DELETE removes them; GROUP BY product with SUM(quantity)
    gives one pair for each product.  The order in which a SELECT with
    ORDER BY returns rows with equal keys, and the collation of text,
    are the engine's: the two orderings are parameters of
    [get_global_orders], and what is proved of it holds for every
    ordering that returns the rows it is given. *)

(** [WHERE status = 'confirmed' AND order_group = 'main' AND user_id = %s] *)
Definition is_main_order (user_id : str) (r : sql_row) : bool :=
  str_eqb (sql_status r) (py "confirmed")
  && str_eqb (sql_order_group r) (py "main")
  && str_eqb (sql_user_id r) user_id.

(** [WHERE status = 'auto_confirmed' AND order_group != 'main' AND user_id = %s] *)
Definition is_auto_order (user_id : str) (r : sql_row) : bool :=
  str_eqb (sql_status r) (py "auto_confirmed")
  && negb (str_eqb (sql_order_group r) (py "main"))
  && str_eqb (sql_user_id r) user_id.

(** [WHERE order_group = %s AND status = 'auto_confirmed' AND user_id = %s];
    the parameter is [None] when the request has no "order_group", and
    no row is equal to NULL. *)
Definition is_auto_order_of (order_group : option str) (user_id : str)
    (r : sql_row) : bool :=
  match order_group with
  | Some g => str_eqb (sql_order_group r) g
  | None => false
  end
  && str_eqb (sql_status r) (py "auto_confirmed")
  && str_eqb (sql_user_id r) user_id.

(** [SELECT product, SUM(quantity) ... GROUP BY product] *)
Definition sum_by_product (rows : list sql_row) : list (str * Z) :=
  fold_left (fun groups r =>
      dict_set groups (sql_product r)
               (from_option id 0 (dict_get groups (sql_product r)) + sql_quantity r))
    rows [].

(** The body of the loop that fills [main_orders]. *)
Definition main_step (main_orders : dict Z) (row : str * Z) : dict Z :=
  if negb (bool_decide (row.1 = [])) && negb (row.2 =? 0)
  then dict_set main_orders row.1 row.2
  else main_orders.

(** The body of the loop that fills [auto_orders]. *)
Definition auto_step (auto_orders : dict (dict Z)) (row : sql_row)
  : dict (dict Z) :=
  let order_group := sql_order_group row in
  let auto_orders :=
    if dict_in order_group auto_orders then auto_orders
    else dict_set auto_orders order_group [] in
  dict_set auto_orders order_group
    (dict_set (from_option id [] (dict_get auto_orders order_group))
              (sql_product row) (sql_quantity row)).

(** Get all confirmed orders from database with separate auto-confirmed
    groups: the pair of ['main_orders'] and ['auto_orders']. *)
Definition get_global_orders
    (order_by_total : list (str * Z) -> list (str * Z))
    (order_by_group_product : list sql_row -> list sql_row)
    (s : OrderSession.t) : dict Z * dict (dict Z) :=
  let main_orders_data :=
    order_by_total
      (sum_by_product
         (filter (fun r => is_main_order (user_id s) r) (confirmed_orders_table s))) in
  let auto_orders_data :=
    order_by_group_product
      (filter (fun r => is_auto_order (user_id s) r) (confirmed_orders_table s)) in
  let main_orders := fold_left main_step main_orders_data [] in
  let auto_orders := fold_left auto_step auto_orders_data [] in
  (main_orders, auto_orders).

(** Move auto-confirmed order to main confirmed orders: the UPDATE of
    the route [confirm_auto_order], on the table. *)
Definition confirm_auto_order (order_group : option str) (user_id : str)
    (table : list sql_row) : list sql_row :=
  map (fun r =>
         if is_auto_order_of order_group user_id r
         then SqlRow (sql_user_id r) (sql_session_id r) (sql_product r)
                     (sql_quantity r) (py "confirmed") (py "main")
         else r)
      table.

(** Delete an auto-confirmed order group: the DELETE of the route
    [delete_auto_order], on the table. *)
Definition delete_auto_order (order_group : option str) (user_id : str)
    (table : list sql_row) : list sql_row :=
  filter (fun r => negb (is_auto_order_of order_group user_id r)) table.

(** The group and the product of a row. *)
Definition group_product (r : sql_row) : str * str :=
  (sql_order_group r, sql_product r).

(** [d.get(k, 0)] and [d.get(g, {}).get(k, 0)]. *)
Definition get0 (d : dict Z) (k : str) : Z := from_option id 0 (dict_get d k).

Definition get00 (d : dict (dict Z)) (g k : str) : Z :=
  get0 (from_option id [] (dict_get d g)) k.

(** The sum of the quantities of the rows of a product. *)
Definition total_quantity (product : str) (rows : list sql_row) : Z :=
  foldr (fun r acc =>
           (if str_eqb (sql_product r) product then sql_quantity r else 0) + acc)
        0 rows.

(** A table with rows of two users: a confirmed order and two
    automatically confirmed groups of the user "user", and a confirmed
    order of another user; and a new session of "user" that reads it. *)
Definition sample_table : list sql_row :=
  [ SqlRow (py "user") (py "session") (py "manga") 2 (py "confirmed") (py "main");
    SqlRow (py "user") (py "session") (py "manga") 3 (py "auto_confirmed") (py "auto_1");
    SqlRow (py "user") (py "session") (py "goiaba") 1 (py "auto_confirmed") (py "auto_1");
    SqlRow (py "other") (py "session2") (py "manga") 5 (py "confirmed") (py "main");
    SqlRow (py "user") (py "session") (py "ovo") 4 (py "auto_confirmed") (py "auto_2") ].

Definition session_with_table : OrderSession.t :=
  set_confirmed_orders_table sample_table new_session.

(** ** The sheet of [download_excel] *)

(** Get summary of all orders from database (for Excel download) *)
Definition get_all_orders_summary
    (order_by_total : list (str * Z) -> list (str * Z))
    (order_by_group_product : list sql_row -> list sql_row)
    (s : OrderSession.t) : dict Z * dict (dict Z) :=
  get_global_orders order_by_total order_by_group_product s.

(** The inner loop that adds the products of one group to [all_orders]. *)
Definition add_products (all_orders : dict Z) (products : dict Z) : dict Z :=
  fold_left (fun all_orders kv =>
      if dict_in kv.1 all_orders
      then dict_set all_orders kv.1
             (from_option id 0 (dict_get all_orders kv.1) + kv.2)
      else dict_set all_orders kv.1 kv.2)
    products all_orders.

(** Generate Excel file from database: the rows the route appends to
    the sheet after the row of the titles "Produto" and "Quantidade",
    one for each item of [all_orders]. *)
Definition download_excel
    (order_by_total : list (str * Z) -> list (str * Z))
    (order_by_group_product : list sql_row -> list sql_row)
    (r : request) (uuid4 : str) (now : Z) (p : process)
  : process * list (str * Z) :=
  let user_id := from_option id (py "default") (cookie_user_id r) in
  let '(p, session_obj) := get_user_session user_id None uuid4 now p in
  let orders :=
    get_all_orders_summary order_by_total order_by_group_product session_obj in
  let all_orders :=
    fold_left (fun all_orders kv => dict_set all_orders kv.1 kv.2) orders.1 [] in
  let all_orders :=
    fold_left (fun all_orders group => add_products all_orders group.2)
              orders.2 all_orders in
  (p, all_orders).

(** A process whose table is [sample_table], and the request of the
    user "user". *)
Definition sample_process : process := Process [] initial_heap sample_table.

Definition request_of_user : request :=
  Request None None (Some (py "user")).

(** * Properties *)

(** ** The builtins on sample inputs *)

Example normalize_sample : normalize (py "  LimÃO Açaí ") = py "limao acai".
Proof. vm_compute. reflexivity. Qed.

Example lower_sample : lower (py "Hoje NÃO") = py "hoje não".
Proof. vm_compute. reflexivity. Qed.

Example split_sample : split (py "  dois  mangas ") = [py "dois"; py "mangas"].
Proof. vm_compute. reflexivity. Qed.

Example separate_sample :
  separate_numbers_and_words (py "2mangas e dezesseis ovos,tresqueijos") =
  py "2 mangas e dezesseis ovos,tresqueijos".
Proof. vm_compute. reflexivity. Qed.

Example levenshtein_sample :
  levenshtein_distance (py "kitten") (py "sitting") = 3 /\
  levenshtein_distance (py "") (py "manga") = 5 /\
  levenshtein_distance (py "mangas") (py "manga") = 1.
Proof. vm_compute. repeat split. Qed.

Example similarity_sample :
  (83 <? similarity_percentage (py "Mangas") (py "manga"))%float = true /\
  (similarity_percentage (py "Mangas") (py "manga") <? 84)%float = true /\
  round2 (similarity_percentage (py "Mangas") (py "manga")) = (8333 / 100)%float /\
  similarity_percentage (py "abcde") (py "abcdx") = 80%float.
Proof. vm_compute. repeat split. Qed.

Example round2_sample :
  round2 (1 / 8)%float = (12 / 100)%float /\
  round2 (3 / 8)%float = (38 / 100)%float /\
  round2 100 = 100%float.
Proof. vm_compute. repeat split. Qed.

Example parse_number_words_sample :
  parse_number_words (map py ["cento"; "vinte"; "um"]%string) = Some 121 /\
  parse_number_words (map py ["vinte"; "cinco"]%string) = Some 25 /\
  parse_number_words (map py ["zero"]%string) = None.
Proof. vm_compute. repeat split. Qed.

Example extract_sample :
  extract_numbers_and_positions
    (map py ["2"; "mangas"; "vinte"; "e"; "cinco"; "ovos"; "zero"]%string) =
  Ok [(0%nat, 2); (2%nat, 25)] /\
  extract_numbers_and_positions [utf8_decode [194; 178]%N] = Raise ValueError.
Proof. vm_compute. split; reflexivity. Qed.

(** ** The table of [levenshtein_distance] *)

Lemma fold_left_seq_inv {S} (P : nat -> S -> Prop) (f : S -> nat -> S) len :
  forall start s,
    P start s ->
    (forall k s, (start <= k < start + len)%nat -> P k s ->
                 P (Datatypes.S k) (f s k)) ->
    P (start + len)%nat (fold_left f (seq start len) s).
Proof.
  induction len as [|len IH]; intros start s H0 Hstep; simpl.
  - replace (start + 0)%nat with start by lia. exact H0.
  - replace (start + Datatypes.S len)%nat
      with (Datatypes.S start + len)%nat by lia.
    apply IH.
    + apply Hstep; [lia | exact H0].
    + intros k s' Hk. apply Hstep. lia.
Qed.

Lemma dp_set_shaped m n dp i j v :
  well_shaped m n dp -> well_shaped m n (dp_set dp i j v).
Proof.
  intros [Hl Hr]. split.
  - unfold dp_set. rewrite length_alter. exact Hl.
  - unfold dp_set. apply Forall_alter; [exact Hr|].
    intros row _ Hrow. rewrite length_insert. exact Hrow.
Qed.

Lemma dp_get_set m n dp i j v i' j' :
  well_shaped m n dp -> (i <= m)%nat -> (j <= n)%nat ->
  dp_get (dp_set dp i j v) i' j' =
  if bool_decide (i = i' /\ j = j') then v else dp_get dp i' j'.
Proof.
  intros [Hl Hr] Hi Hj. unfold dp_get, dp_set.
  destruct (decide (i = i')) as [->|Hne].
  - rewrite list_lookup_alter_eq.
    destruct (dp !! i') as [row|] eqn:Hrow.
    + simpl. assert (length row = S n) as Hlen.
      { rewrite Forall_lookup in Hr. exact (Hr _ _ Hrow). }
      destruct (decide (j = j')) as [->|Hnej].
      * rewrite bool_decide_eq_true_2 by done.
        rewrite list_lookup_insert_eq by lia. reflexivity.
      * rewrite bool_decide_eq_false_2 by (intros [_ ?]; done).
        rewrite list_lookup_insert_ne by done. reflexivity.
    + apply lookup_ge_None_1 in Hrow. lia.
  - rewrite list_lookup_alter_ne by done.
    rewrite bool_decide_eq_false_2 by (intros [? _]; done). reflexivity.
Qed.

Section Lev.
Variables a b : str.

Lemma lev_0_r i : lev a b i 0 = Z.of_nat i.
Proof. destruct i; reflexivity. Qed.

Lemma lev_S i j :
  lev a b (S i) (S j) =
  Z.min (Z.min (lev a b i (S j) + 1) (lev a b (S i) j + 1))
        (lev a b i j + edit_cost a b i j).
Proof. reflexivity. Qed.

Lemma filled_next_row i dp :
  filled a b i (S (length b)) dp -> filled a b (S i) 0 dp.
Proof.
  intros (Hs & Hc & Hr & Hi). repeat split; try apply Hs; auto.
  - intros i' j' Hi' Hj'. destruct (decide (i' = i)) as [->|].
    + apply Hi; lia.
    + apply Hr; lia.
  - intros j' Hj'. lia.
Qed.

Lemma filled_cell i j dp :
  (1 <= i <= length a)%nat -> (1 <= j <= length b)%nat ->
  filled a b i j dp ->
  filled a b i (S j)
    (dp_set dp i j
       (Z.min (Z.min (dp_get dp (i - 1) j + 1) (dp_get dp i (j - 1) + 1))
              (dp_get dp (i - 1) (j - 1) + edit_cost a b (i - 1) (j - 1)))).
Proof.
  intros Hi Hj (Hs & Hc & Hr & Hrow).
  destruct i as [|i0]; [lia|]. destruct j as [|j0]; [lia|].
  replace (S i0 - 1)%nat with i0 by lia.
  replace (S j0 - 1)%nat with j0 by lia.
  split; [apply dp_set_shaped; exact Hs|].
  split; [|split].
  - intros i' Hi'. rewrite (dp_get_set (length a) (length b)) by (done || lia).
    rewrite bool_decide_eq_false_2 by (intros [_ ?]; lia). auto.
  - intros i' j' Hi' Hj'.
    rewrite (dp_get_set (length a) (length b)) by (done || lia).
    rewrite bool_decide_eq_false_2 by (intros [? _]; lia). auto.
  - intros j' Hj' Hj'n.
    rewrite (dp_get_set (length a) (length b)) by (done || lia).
    destruct (decide (S j0 = j')) as [<-|Hne].
    + rewrite bool_decide_eq_true_2 by done.
      rewrite lev_S.
      rewrite (Hr i0 (S j0)) by lia.
      rewrite (Hr i0 j0) by lia.
      rewrite (Hrow j0) by lia. reflexivity.
    + rewrite bool_decide_eq_false_2 by (intros [_ ?]; done).
      apply Hrow; lia.
Qed.

Lemma filled_row i dp :
  (1 <= i <= length a)%nat ->
  filled a b i 0 dp ->
  filled a b (S i) 0
    (fold_left (fun dp j =>
        let cost :=
          if bool_decide (char_at a (i - 1) = char_at b (j - 1)) then 0 else 1 in
        dp_set dp i j
          (Z.min (Z.min (dp_get dp (i - 1) j + 1) (dp_get dp i (j - 1) + 1))
                 (dp_get dp (i - 1) (j - 1) + cost)))
      (seq 1 (length b)) dp).
Proof.
  intros Hi Hf. apply filled_next_row.
  change (S (length b)) with (1 + length b)%nat.
  apply (fold_left_seq_inv (fun j dp => filled a b i j dp)).
  - destruct Hf as (Hs & Hc & Hr & _). repeat split; try apply Hs; auto.
    intros j' Hj' _. assert (j' = 0%nat) as -> by lia.
    rewrite Hc by lia. symmetry. apply lev_0_r.
  - intros k dp' Hk Hf'. apply (filled_cell i k dp'); [lia|lia|exact Hf'].
Qed.

Lemma table_init :
  filled a b 1 0
    (fold_left (fun dp j => dp_set dp 0%nat j (Z.of_nat j))
       (seq 0 (length b + 1))
       (fold_left (fun dp i => dp_set dp i 0%nat (Z.of_nat i))
          (seq 0 (length a + 1))
          (replicate (length a + 1) (replicate (length b + 1) 0)))).
Proof.
  set (m := length a). set (n := length b).
  assert (well_shaped m n (replicate (m + 1) (replicate (n + 1) 0))) as H0.
  { split.
    - rewrite length_replicate. lia.
    - apply Forall_replicate. rewrite length_replicate. lia. }
  set (dp1 := fold_left _ (seq 0 (m + 1)) _).
  assert (well_shaped m n dp1 /\
          forall i', (i' < 0 + (m + 1))%nat -> dp_get dp1 i' 0 = Z.of_nat i')
    as [Hs1 Hc1].
  { apply (fold_left_seq_inv
      (fun k dp => well_shaped m n dp /\
                   forall i', (i' < k)%nat -> dp_get dp i' 0 = Z.of_nat i')).
    - split; [exact H0 | intros; lia].
    - intros k dp Hk [Hs Hc]. split; [apply dp_set_shaped; exact Hs|].
      intros i' Hi'. rewrite (dp_get_set m n) by (done || lia).
      destruct (decide (k = i')) as [->|].
      + rewrite bool_decide_eq_true_2 by done. reflexivity.
      + rewrite bool_decide_eq_false_2 by (intros [? _]; done).
        apply Hc. lia. }
  set (dp2 := fold_left _ (seq 0 (n + 1)) dp1).
  assert (well_shaped m n dp2 /\
          (forall i', (i' <= m)%nat -> dp_get dp2 i' 0 = Z.of_nat i') /\
          forall j', (j' < 0 + (n + 1))%nat -> dp_get dp2 0 j' = Z.of_nat j')
    as (Hs2 & Hc2 & Hr2).
  { apply (fold_left_seq_inv
      (fun k dp => well_shaped m n dp /\
                   (forall i', (i' <= m)%nat -> dp_get dp i' 0 = Z.of_nat i') /\
                   forall j', (j' < k)%nat -> dp_get dp 0 j' = Z.of_nat j')).
    - split; [exact Hs1|]. split; [intros; apply Hc1; lia | intros; lia].
    - intros k dp Hk (Hs & Hc & Hr). split; [apply dp_set_shaped; exact Hs|].
      split.
      + intros i' Hi'. rewrite (dp_get_set m n) by (done || lia).
        destruct (decide (0%nat = i' /\ k = 0%nat)) as [[<- ->]|Hne].
        * rewrite bool_decide_eq_true_2 by done. reflexivity.
        * rewrite bool_decide_eq_false_2 by done. auto.
      + intros j' Hj'. rewrite (dp_get_set m n) by (done || lia).
        destruct (decide (k = j')) as [->|].
        * rewrite bool_decide_eq_true_2 by done. reflexivity.
        * rewrite bool_decide_eq_false_2 by (intros [_ ?]; done).
          apply Hr. lia. }
  split; [exact Hs2|]. split; [exact Hc2|]. split.
  - intros i' j' Hi' Hj'. assert (i' = 0%nat) as -> by lia.
    simpl. apply Hr2. lia.
  - intros; lia.
Qed.

(** The value returned is the distance between the whole strings. *)
Lemma levenshtein_distance_lev :
  levenshtein_distance a b = lev a b (length a) (length b).
Proof.
  unfold levenshtein_distance.
  destruct (length a =? 0)%nat eqn:Hm.
  { apply Nat.eqb_eq in Hm. rewrite Hm. reflexivity. }
  destruct (length b =? 0)%nat eqn:Hn.
  { apply Nat.eqb_eq in Hn. rewrite Hn. symmetry. apply lev_0_r. }
  apply Nat.eqb_neq in Hm, Hn.
  cbv zeta.
  match goal with
  | |- dp_get (fold_left ?f (seq 1 ?m) ?dp0) _ _ = _ =>
    assert (filled a b (1 + m) 0 (fold_left f (seq 1 m) dp0))
      as (_ & _ & Hr & _)
  end.
  { apply (fold_left_seq_inv (fun i dp => filled a b i 0 dp)).
    - apply table_init.
    - intros k dp Hk Hf. apply filled_row; [lia|exact Hf]. }
  apply Hr; lia.
Qed.
End Lev.

Lemma edit_cost_sym a b i j : edit_cost a b i j = edit_cost b a j i.
Proof.
  unfold edit_cost. destruct (decide (char_at a i = char_at b j)) as [H|H].
  - rewrite !bool_decide_eq_true_2 by done. reflexivity.
  - rewrite !bool_decide_eq_false_2 by done. reflexivity.
Qed.

Lemma lev_sym a b : forall i j, lev a b i j = lev b a j i.
Proof.
  induction i as [|i IHi]; intros j.
  - simpl. symmetry. apply lev_0_r.
  - induction j as [|j IHj].
    + reflexivity.
    + rewrite !lev_S, IHj, !IHi, (edit_cost_sym a b). lia.
Qed.

Lemma lev_nonneg a b : forall i j, 0 <= lev a b i j.
Proof.
  induction i as [|i IHi]; intros j.
  - simpl. lia.
  - induction j as [|j IHj].
    + simpl. lia.
    + rewrite lev_S. pose proof (IHi (S j)). pose proof (IHi j).
      unfold edit_cost. destruct (bool_decide _); lia.
Qed.

Lemma lev_diag a : forall i, lev a a i i = 0.
Proof.
  induction i as [|i IH]; [reflexivity|].
  rewrite lev_S. pose proof (lev_nonneg a a i (S i)).
  pose proof (lev_nonneg a a (S i) i).
  unfold edit_cost. rewrite bool_decide_eq_true_2 by done. lia.
Qed.

Lemma levenshtein_distance_sym a b :
  levenshtein_distance a b = levenshtein_distance b a.
Proof. rewrite !levenshtein_distance_lev. apply lev_sym. Qed.

Lemma levenshtein_distance_refl a : levenshtein_distance a a = 0.
Proof. rewrite levenshtein_distance_lev. apply lev_diag. Qed.

(** ** The float of a length *)

Lemma digits2_pos_lower p : 2 ^ (Z.pos (digits2_pos p) - 1) <= Z.pos p.
Proof.
  induction p as [p IH|p IH|]; simpl digits2_pos.
  - rewrite Pos2Z.inj_succ.
    replace (Z.succ (Z.pos (digits2_pos p)) - 1)
      with (Z.succ (Z.pos (digits2_pos p) - 1)) by lia.
    rewrite Z.pow_succ_r by lia. lia.
  - rewrite Pos2Z.inj_succ.
    replace (Z.succ (Z.pos (digits2_pos p)) - 1)
      with (Z.succ (Z.pos (digits2_pos p) - 1)) by lia.
    rewrite Z.pow_succ_r by lia. lia.
  - simpl. lia.
Qed.

Lemma digits2_pos_shift p k :
  digits2_pos (Pos.iter xO p k) = (digits2_pos p + k)%positive.
Proof.
  induction k as [|k IH] using Pos.peano_ind.
  - simpl. lia.
  - rewrite Pos.iter_succ. simpl. rewrite IH. lia.
Qed.

(** An integer below [2^53] is a float as it is: no rounding occurs. *)
Lemma binary_normalize_small p :
  Z.pos p < 2 ^ 53 ->
  exists m e,
    binary_normalize prec emax (Z.pos p) 0 false = S754_finite false m e.
Proof.
  intros Hp.
  assert (Z.pos (digits2_pos p) <= 53) as Hd.
  { pose proof (digits2_pos_lower p) as Hl.
    destruct (Z_le_gt_dec (Z.pos (digits2_pos p)) 53) as [|Hgt]; [assumption|].
    exfalso. assert (2 ^ 53 <= 2 ^ (Z.pos (digits2_pos p) - 1)).
    { apply Z.pow_le_mono_r; lia. }
    lia. }
  unfold binary_normalize, binary_round.
  assert (exists mz ez,
    shl_align p 0 (fexp prec emax (Z.pos (digits2_pos p) + 0)) = (mz, ez)
    /\ Z.pos (digits2_pos mz) = 53 /\ -52 <= ez <= 0)
    as (mz & ez & -> & Hmz & Hez).
  { unfold fexp, emin, prec, emax, shl_align.
    rewrite Z.add_0_r.
    rewrite Z.max_l by lia.
    destruct (Z.pos (digits2_pos p) - 53 - 0) as [|k|k] eqn:Hk.
    - exists p, 0. split; [reflexivity|]. lia.
    - lia.
    - exists (Pos.iter xO p k), (Z.pos (digits2_pos p) - 53).
      split; [reflexivity|]. rewrite digits2_pos_shift. lia. }
  unfold binary_round_aux, shr_fexp, Zdigits2.
  rewrite Hmz.
  assert (fexp prec emax (53 + ez) - ez = 0) as ->.
  { unfold fexp, emin, prec, emax. lia. }
  simpl shr. cbv beta iota zeta.
  cbn [shr_m loc_of_shr_record round_nearest_even]. rewrite Hmz.
  assert (fexp prec emax (53 + ez) - ez = 0) as ->.
  { unfold fexp, emin, prec, emax. lia. }
  simpl. exists mz, ez.
  assert ((ez <=? emax - prec) = true) as ->.
  { apply Z.leb_le. unfold emax, prec. lia. }
  reflexivity.
Qed.

Lemma float_of_int_finite n :
  0 < n < 2 ^ 53 ->
  exists m e, Prim2SF (float_of_int n) = S754_finite false m e.
Proof.
  intros Hn. unfold float_of_int. rewrite of_uint63_spec, Uint63.of_Z_spec.
  rewrite Z.mod_small.
  - destruct n as [|p|p]; try lia. apply binary_normalize_small. lia.
  - change wB with (2 ^ 63). split; [lia|].
    apply Z.lt_trans with (2 ^ 53); [lia|reflexivity].
Qed.

(** [0 / n] is the float [0.0]. *)
Lemma truediv_0 n : 0 < n < 2 ^ 53 -> truediv 0 n = 0%float.
Proof.
  intros Hn. destruct (float_of_int_finite n Hn) as (m & e & Hy).
  unfold truediv.
  rewrite <- (SF2Prim_Prim2SF (float_of_int 0 / float_of_int n)).
  rewrite FloatAxioms.div_spec, Hy. reflexivity.
Qed.

(** ** [similarity_percentage] *)

(** C6. [similarity_percentage] is symmetric: for every pair of strings
    [similarity_percentage a b] and [similarity_percentage b a] are the
    same float.  It is reflexive at 100: [similarity_percentage x x] is
    [100.0] for every string [x] (the length of a string is a float as
    it is below [2^53], which every length the interpreter can hold is).
    Two empty strings have similarity [100.0]. *)
Theorem similarity_percentage_symmetric_reflexive :
  (forall a b : str, similarity_percentage a b = similarity_percentage b a) /\
  (forall x : str,
      Z.of_nat (length (normalize x)) < 2 ^ 53 ->
      similarity_percentage x x = 100%float) /\
  similarity_percentage [] [] = 100%float.
Proof.
  split; [|split].
  - intros a b. unfold similarity_percentage.
    rewrite (levenshtein_distance_sym (normalize a) (normalize b)).
    rewrite (Z.max_comm (Z.of_nat (length (normalize a)))). reflexivity.
  - intros x Hx. unfold similarity_percentage.
    rewrite levenshtein_distance_refl, Z.max_id.
    destruct (Z.of_nat (length (normalize x)) =? 0) eqn:Hz; [reflexivity|].
    apply Z.eqb_neq in Hz. rewrite truediv_0 by lia. reflexivity.
  - reflexivity.
Qed.

Lemma similarity_percentage_symmetric_reflexive_witness :
  Z.of_nat (length (normalize (py "LimÃ£o"))) < 2 ^ 53 /\
  similarity_percentage (py "LimÃ£o") (py "LimÃ£o") = 100%float.
Proof.
  split; [reflexivity|].
  apply (proj1 (proj2 similarity_percentage_symmetric_reflexive)).
  reflexivity.
Defined.

(** ** The main loop runs to its end *)

Section Fuel.
Variable tokens : list str.
Variable numbers : list (nat * Z).
Variable product_names : list str.
Variable sorted_products : list (str * nat).
Variable max_prod_words : nat.
Variable product_words : list str.
Variable working_db : list nat.

Lemma try_sizes_advances sizes : forall st st',
  Forall (fun size => (1 <= size)%nat) sizes ->
  try_sizes tokens numbers sorted_products product_words working_db st sizes
    = Some st' ->
  (ps_i st < ps_i st')%nat.
Proof.
  induction sizes as [|size smaller IH]; intros st st' Hs Ht; simpl in Ht.
  - discriminate.
  - apply Forall_cons in Hs as [Hsize Hs].
    destruct (length tokens <? ps_i st + size)%nat; [eauto|].
    destruct (skip_phrase _ _ _ _); [eauto|].
    destruct (best_match _ _) as [best_score [[best_product best_idx]|]]; [|eauto].
    destruct (similarity_threshold <=? best_score)%float; [|eauto].
    injection Ht as <-. cbn [ps_i]. lia.
Qed.

Lemma parse_step_advances st :
  (ps_i st <
   ps_i (parse_step tokens numbers product_names sorted_products
           max_prod_words product_words working_db st))%nat.
Proof.
  unfold parse_step.
  destruct (bool_decide _); [cbn [advance ps_i]; lia|].
  destruct (_ || _); [cbn [advance ps_i]; lia|].
  destruct (try_sizes _ _ _ _ _ _ _) as [st'|] eqn:Ht.
  - eapply try_sizes_advances; [|exact Ht].
    apply Forall_forall. intros size Hin. apply list_elem_of_In in Hin.
    apply in_rev, in_seq in Hin. lia.
  - unfold fallback. cbn [ps_i]. lia.
Qed.

(** The loop leaves only when its condition fails: [length tokens]
    iterations are never exhausted before. *)
Lemma parse_loop_fuel fuel : forall st,
  (length tokens <= ps_i st + fuel)%nat ->
  (length tokens <=
   ps_i (parse_loop tokens numbers product_names sorted_products
           max_prod_words product_words working_db fuel st))%nat.
Proof.
  induction fuel as [|fuel IH]; intros st H; cbn [parse_loop]; [lia|].
  destruct (ps_i st <? length tokens)%nat eqn:Hlt.
  - apply IH. pose proof (parse_step_advances st). lia.
  - apply Nat.ltb_ge in Hlt. exact Hlt.
Qed.
End Fuel.

(** ** Catalogs in the heap *)

Lemma frame_refl h : frame h h.
Proof. intros l _. reflexivity. Qed.

Lemma frame_length h h' : frame h h' -> (length h <= length h')%nat.
Proof.
  intros Hf. destruct (le_lt_dec (length h) (length h')) as [|Hlt]; [assumption|].
  exfalso. assert (length h' < length h)%nat as Hl by lia.
  specialize (Hf (length h') Hl).
  rewrite (lookup_ge_None_2 h' (length h')) in Hf by lia.
  symmetry in Hf. apply lookup_ge_None_1 in Hf. lia.
Qed.

Lemma frame_trans h1 h2 h3 : frame h1 h2 -> frame h2 h3 -> frame h1 h3.
Proof.
  intros H12 H23 l Hl. rewrite H23, H12; auto.
  pose proof (frame_length _ _ H12). lia.
Qed.

Lemma frame_app h k : frame h (h ++ k).
Proof. intros l Hl. apply lookup_app_l. exact Hl. Qed.

Lemma frame_total h h' l :
  frame h h' -> (l < length h)%nat -> h' !!! l = h !!! l.
Proof.
  intros Hf Hl. rewrite !list_lookup_total_alt, (Hf l Hl). reflexivity.
Qed.

Lemma frame_alter h h' (f : row -> row) (l : loc) :
  frame h h' -> (length h <= l)%nat -> frame h (alter f l h').
Proof.
  intros Hf Hl l' Hl'. rewrite list_lookup_alter_ne by lia. auto.
Qed.

Lemma frame_grows h h' : frame h h' -> grows h h'.
Proof.
  intros Hf. split; [apply frame_length; exact Hf|].
  intros l Hl. rewrite (frame_total h h' l Hf Hl). split; [reflexivity|lia].
Qed.

Lemma grows_refl h : grows h h.
Proof. split; [lia|]. intros l _. split; [reflexivity|lia]. Qed.

Lemma grows_trans h1 h2 h3 : grows h1 h2 -> grows h2 h3 -> grows h1 h3.
Proof.
  intros [L12 H12] [L23 H23]. split; [lia|].
  intros l Hl. destruct (H12 l Hl) as [N1 Q1].
  destruct (H23 l) as [N2 Q2]; [lia|]. split; [congruence|lia].
Qed.

Lemma grows_alter h (l : loc) q :
  0 <= q -> grows h (alter (fun r => Row (row_name r) (row_qty r + q)) l h).
Proof.
  intros Hq. split; [rewrite length_alter; lia|].
  intros l' Hl'. destruct (decide (l = l')) as [->|Hne].
  - rewrite list_lookup_total_alter_eq by exact Hl'. simpl. split; [reflexivity|lia].
  - rewrite list_lookup_total_alter_ne by exact Hne. split; [reflexivity|lia].
Qed.

Lemma nonneg_alter h (l : loc) q :
  0 <= q -> nonneg_heap h ->
  nonneg_heap (alter (fun r => Row (row_name r) (row_qty r + q)) l h).
Proof.
  intros Hq Hh. apply Forall_alter; [exact Hh|].
  intros r _ Hr. simpl. lia.
Qed.

Lemma add_quantity_frame h hp db idx q :
  fresh h db -> frame h hp -> frame h (add_quantity db idx q hp).
Proof.
  intros Hfresh Hf. unfold add_quantity.
  destruct (db !! idx) as [l|] eqn:Hl; [|exact Hf].
  apply frame_alter; [exact Hf|].
  unfold fresh in Hfresh. rewrite Forall_lookup in Hfresh. exact (Hfresh _ _ Hl).
Qed.

Lemma add_quantity_grows db idx q hp :
  0 <= q -> grows hp (add_quantity db idx q hp).
Proof.
  intros Hq. unfold add_quantity. destruct (db !! idx); [|apply grows_refl].
  apply grows_alter. exact Hq.
Qed.

Lemma add_quantity_nonneg db idx q hp :
  0 <= q -> nonneg_heap hp -> nonneg_heap (add_quantity db idx q hp).
Proof.
  intros Hq Hh. unfold add_quantity. destruct (db !! idx); [|exact Hh].
  apply nonneg_alter; assumption.
Qed.

Lemma add_quantity_length db idx q hp :
  length (add_quantity db idx q hp) = length hp.
Proof.
  unfold add_quantity. destruct (db !! idx); [|reflexivity].
  apply length_alter.
Qed.

Lemma deepcopy_from_spec (h0 : heap) :
  forall (db : catalog) (memo : list (nat * nat)) (h : heap) copy h',
    frame h0 h -> valid h0 db ->
    Forall (fun m : nat * nat =>
              (m.1 < length h0)%nat /\ (length h0 <= m.2 < length h)%nat /\
              h !!! m.2 = h0 !!! m.1) memo ->
    deepcopy_from memo db h = (copy, h') ->
    frame h h' /\
    (forall l, (length h <= l < length h')%nat ->
               exists l0, (l0 < length h0)%nat /\ h' !!! l = h0 !!! l0) /\
    Forall (fun l' => (length h0 <= l' < length h')%nat) copy /\
    map (fun l => h' !!! l) copy = map (fun l => h0 !!! l) db.
Proof.
  induction db as [|l rest IH]; intros memo h copy h' Hf Hv Hmemo Hdc.
  - simpl in Hdc. injection Hdc as <- <-.
    split; [apply frame_refl|]. split; [intros; lia|]. split; [constructor|reflexivity].
  - simpl in Hdc. apply Forall_cons in Hv as [Hl Hv].
    pose proof (frame_length _ _ Hf) as Hlen.
    destruct (find (fun m : nat * nat => (m.1 =? l)%nat) memo) as [m|] eqn:Hfind.
    + destruct (deepcopy_from memo rest h) as [copy0 h0'] eqn:Hrec.
      injection Hdc as <- <-.
      destruct (IH memo h copy0 h0' Hf Hv Hmemo Hrec) as (F & New & Rng & Rows).
      apply find_some in Hfind as [Hin Hm]. apply Nat.eqb_eq in Hm.
      rewrite Forall_forall in Hmemo.
      destruct (Hmemo m (proj2 (list_elem_of_In _ _) Hin)) as (M1 & M2 & M3).
      pose proof (frame_length _ _ F).
      split; [exact F|]. split; [exact New|]. split.
      * constructor; [lia|exact Rng].
      * simpl. f_equal; [|exact Rows].
        rewrite (frame_total h h0' (m.2) F) by lia. rewrite M3, Hm. reflexivity.
    + destruct (deepcopy_from ((l, length h) :: memo) rest (h ++ [h !!! l]))
        as [copy0 h0'] eqn:Hrec.
      injection Hdc as <- <-.
      assert (frame h0 (h ++ [h !!! l])) as Hf1.
      { apply (frame_trans _ h); [exact Hf|apply frame_app]. }
      assert (h !!! l = h0 !!! l) as Hrow by (apply frame_total; assumption).
      destruct (IH ((l, length h) :: memo) (h ++ [h !!! l]) copy0 h0' Hf1 Hv)
        as (F & New & Rng & Rows); [|exact Hrec|].
      { constructor.
        - simpl. rewrite length_app. simpl. split; [exact Hl|]. split; [lia|].
          rewrite lookup_total_app_r by lia. rewrite Nat.sub_diag. exact Hrow.
        - eapply Forall_impl; [exact Hmemo|].
          intros m (M1 & M2 & M3). rewrite length_app. simpl.
          split; [exact M1|]. split; [lia|].
          rewrite lookup_total_app_l by lia. exact M3. }
      pose proof (frame_length _ _ F) as HlenF. rewrite length_app in HlenF.
      simpl in HlenF.
      assert (h0' !!! length h = h0 !!! l) as Hnew.
      { rewrite (frame_total _ _ (length h) F) by (rewrite length_app; simpl; lia).
        rewrite lookup_total_app_r by lia. rewrite Nat.sub_diag. exact Hrow. }
      split; [apply (frame_trans _ (h ++ [h !!! l])); [apply frame_app|exact F]|].
      split; [|split].
      * intros l1 Hl1. destruct (decide (l1 = length h)) as [->|Hne].
        -- exists l. split; [exact Hl|exact Hnew].
        -- apply New. rewrite length_app. simpl. lia.
      * constructor; [lia|exact Rng].
      * simpl. f_equal; [exact Hnew|exact Rows].
Qed.

Lemma deepcopy_spec (db : catalog) (h : heap) copy h' :
  valid h db -> deepcopy db h = (copy, h') ->
  frame h h' /\ fresh h copy /\ valid h' copy /\
  rows_of h' copy = rows_of h db /\
  (forall P : row -> Prop, Forall P h -> Forall P h').
Proof.
  intros Hv Hdc.
  destruct (deepcopy_from_spec h db [] h copy h' (frame_refl h) Hv
              (Forall_nil_2 _) Hdc) as (F & New & Rng & Rows).
  split; [exact F|]. split; [|split; [|split]].
  - eapply Forall_impl; [exact Rng|]. simpl. intros; lia.
  - eapply Forall_impl; [exact Rng|]. simpl. intros; lia.
  - exact Rows.
  - intros P HP. apply Forall_lookup_2. intros l r Hlr.
    destruct (le_lt_dec (length h) l) as [Hge|Hlt].
    + destruct (New l) as (l0 & Hl0 & E).
      { split; [exact Hge|]. apply lookup_lt_Some in Hlr. exact Hlr. }
      rewrite (list_lookup_total_correct _ _ _ Hlr) in E. subst r.
      apply (Forall_lookup_total_1 P h l0 HP Hl0).
    + rewrite (F l Hlt) in Hlr. exact (Forall_lookup_1 P h l r HP Hlr).
Qed.

Lemma rows_of_length h (db : catalog) : length (rows_of h db) = length db.
Proof. unfold rows_of. apply length_map. Qed.

(** ** The numbers of a message *)

Lemma int_of_str_nonneg s n : int_of_str s = Ok n -> 0 <= n.
Proof.
  unfold int_of_str. destruct (forallb isdecimal s) eqn:Hd; [|discriminate].
  destruct (negb (bool_decide (s = []))); [|discriminate].
  destruct (length s <=? max_str_digits)%nat; [|discriminate]. simpl.
  intros [= <-]. revert Hd.
  assert (forall acc, 0 <= acc -> forallb isdecimal s = true ->
            0 <= fold_left (fun acc c => 10 * acc + (Z.of_N c - 48)) s acc) as H.
  { induction s as [|c s IH]; intros acc Hacc Hs; simpl; [exact Hacc|].
    simpl in Hs. apply andb_true_iff in Hs as [Hc Hs]. apply IH; [|exact Hs].
    unfold isdecimal, in_range in Hc. apply andb_true_iff in Hc as [Hc1 Hc2].
    apply N.leb_le in Hc1. lia. }
  apply H. lia.
Qed.

Lemma parse_number_words_pos ts n : parse_number_words ts = Some n -> 0 < n.
Proof.
  unfold parse_number_words.
  destruct (0 <? parse_number_words_loop ts 0) eqn:H; [|discriminate].
  intros [= <-]. apply Z.ltb_lt. exact H.
Qed.

Lemma extract_from_spec : forall rest i skip numbers,
  extract_from i skip rest = Ok numbers ->
  Forall (fun x : nat * Z => (i + skip <= x.1)%nat /\ 0 <= x.2) numbers /\
  StronglySorted (fun x y : nat * Z => (x.1 < y.1)%nat) numbers.
Proof.
  induction rest as [|t rest IH]; intros i skip numbers H; simpl in H.
  - injection H as <-. split; constructor.
  - destruct skip as [|k].
    + destruct (isdigit t).
      * destruct (int_of_str t) as [n|] eqn:Hn; [|discriminate]. simpl in H.
        destruct (extract_from (S i) 0 rest) as [tl|] eqn:Htl; [|discriminate].
        simpl in H. injection H as <-.
        destruct (IH _ _ _ Htl) as [Hall Hs].
        split.
        -- constructor; [simpl; split; [lia|eapply int_of_str_nonneg; eauto]|].
           eapply Forall_impl; [exact Hall|]. simpl. intros x [? ?]. split; [lia|auto].
        -- constructor; [exact Hs|].
           eapply Forall_impl; [exact Hall|]. simpl. intros x [? ?]. lia.
      * destruct (dict_in t word2num_all).
        -- destruct (number_run rest) as [run k].
           destruct (parse_number_words _) as [number|] eqn:Hp.
           ++ destruct (extract_from (S i) k rest) as [tl|] eqn:Htl; [|discriminate].
              simpl in H. injection H as <-.
              destruct (IH _ _ _ Htl) as [Hall Hs].
              split.
              ** constructor; [simpl; split; [lia|]|].
                 { apply parse_number_words_pos in Hp. lia. }
                 eapply Forall_impl; [exact Hall|]. simpl. intros x [? ?].
                 split; [lia|auto].
              ** constructor; [exact Hs|].
                 eapply Forall_impl; [exact Hall|]. simpl. intros x [? ?]. lia.
           ++ destruct (IH _ _ _ H) as [Hall Hs]. split; [|exact Hs].
              eapply Forall_impl; [exact Hall|]. simpl. intros x [? ?].
              split; [lia|auto].
        -- destruct (IH _ _ _ H) as [Hall Hs]. split; [|exact Hs].
           eapply Forall_impl; [exact Hall|]. simpl. intros x [? ?].
           split; [lia|auto].
    + destruct (IH _ _ _ H) as [Hall Hs]. split; [|exact Hs].
      eapply Forall_impl; [exact Hall|]. simpl. intros x [? ?].
      split; [lia|auto].
Qed.

Lemma extract_nonneg tokens numbers :
  extract_numbers_and_positions tokens = Ok numbers ->
  Forall (fun x : nat * Z => 0 <= x.2) numbers.
Proof.
  intros H. apply extract_from_spec in H as [H _].
  eapply Forall_impl; [exact H|]. simpl. intros x [_ ?]. assumption.
Qed.

Lemma max_by_pos_in l : forall best, max_by_pos best l ∈ best :: l.
Proof.
  induction l as [|x l IH]; intros best; simpl.
  - apply list_elem_of_here.
  - specialize (IH (if (best.1 <? x.1)%nat then x else best)).
    apply elem_of_cons in IH as [->|IH].
    + destruct (best.1 <? x.1)%nat; [right; left|left].
    + right. right. exact IH.
Qed.

Lemma min_by_pos_in l : forall best, min_by_pos best l ∈ best :: l.
Proof.
  induction l as [|x l IH]; intros best; simpl.
  - apply list_elem_of_here.
  - specialize (IH (if (x.1 <? best.1)%nat then x else best)).
    apply elem_of_cons in IH as [->|IH].
    + destruct (x.1 <? best.1)%nat; [right; left|left].
    + right. right. exact IH.
Qed.

Lemma find_elem_of {A} (f : A -> bool) l x : find f l = Some x -> x ∈ l.
Proof. intros H. apply find_some in H as [H _]. apply list_elem_of_In. exact H. Qed.

(** The quantity is the default or the value of an extracted number. *)
Lemma find_associated_number_cases p toks numbers :
  find_associated_number p toks numbers = (1, None) \/
  exists x, x ∈ numbers /\ find_associated_number p toks numbers = (x.2, Some x.1).
Proof.
  unfold find_associated_number. destruct numbers as [|n0 numbers0]; [left; reflexivity|].
  set (numbers := n0 :: numbers0).
  match goal with |- context [match ?c with Some _ => _ | None => _ end] =>
    destruct c as [[pos val]|] eqn:H1 end.
  { right. exists (pos, val). split; [|reflexivity].
    match type of H1 with (if ?c then _ else _) = _ =>
      destruct c; [|discriminate] end.
    eapply find_elem_of; exact H1. }
  destruct (filter (fun x : nat * Z => (x.1 <? p)%nat) numbers)
    as [|first others] eqn:Hb.
  2:{ right. exists (max_by_pos first others). split; [|reflexivity].
      pose proof (max_by_pos_in others first) as Hin. rewrite <- Hb in Hin.
      apply list_elem_of_filter in Hin as [_ Hin]. exact Hin. }
  match goal with |- context [match ?c with Some _ => _ | None => _ end] =>
    destruct c as [[pos val]|] eqn:H3 end.
  { right. exists (pos, val). split; [|reflexivity].
    match type of H3 with (if ?c then _ else _) = _ =>
      destruct c; [|discriminate] end.
    eapply find_elem_of; exact H3. }
  destruct (filter (fun x : nat * Z => (p <? x.1)%nat) numbers)
    as [|first' others'] eqn:Ha; [left; reflexivity|].
  right. exists (min_by_pos first' others'). split; [|reflexivity].
  pose proof (min_by_pos_in others' first') as Hin. rewrite <- Ha in Hin.
  apply list_elem_of_filter in Hin as [_ Hin]. exact Hin.
Qed.

Lemma take_unused_number_cases found numbers used :
  take_unused_number found numbers used = found \/
  exists x, x ∈ numbers /\ take_unused_number found numbers used = (x.2, Some x.1).
Proof.
  unfold take_unused_number. destruct (found.2); [|left; reflexivity].
  destruct (bool_decide _); [|left; reflexivity].
  destruct (find _ numbers) as [[pos val]|] eqn:H; [|left; reflexivity].
  right. exists (pos, val). split; [|reflexivity]. eapply find_elem_of; exact H.
Qed.

Lemma associated_quantity_nonneg p toks numbers used :
  Forall (fun x : nat * Z => 0 <= x.2) numbers ->
  0 <= (take_unused_number (find_associated_number p toks numbers) numbers used).1.
Proof.
  intros Hn. rewrite Forall_forall in Hn.
  destruct (take_unused_number_cases (find_associated_number p toks numbers)
              numbers used) as [->|(x & Hx & ->)].
  - destruct (find_associated_number_cases p toks numbers) as [->|(x & Hx & ->)].
    + simpl. lia.
    + simpl. auto.
  - simpl. auto.
Qed.

Section LoopInvariant.
Variable tokens : list str.
Variable numbers : list (nat * Z).
Variable product_names : list str.
Variable sorted_products : list (str * nat).
Variable max_prod_words : nat.
Variable product_words : list str.
Variable working_db : list nat.
Variable P : list row -> list order -> Prop.
Hypothesis numbers_nonneg : Forall (fun x : nat * Z => 0 <= x.2) numbers.
Hypothesis P_commit :
  forall hp os idx q name sc,
    0 <= q -> P hp os ->
    P (add_quantity working_db idx q hp) (os ++ [Order name q sc]).

Lemma commit_holds st name idx sc size :
  holds P st -> holds P (commit tokens numbers working_db st name idx sc size).
Proof.
  unfold holds, commit. intros H.
  pose proof (associated_quantity_nonneg (ps_i st) tokens numbers
                (used_numbers st) numbers_nonneg) as Hq.
  destruct (take_unused_number _ _ _) as [quantity number_position].
  simpl in *. apply P_commit; assumption.
Qed.

Lemma try_sizes_holds sizes : forall st st',
  holds P st ->
  try_sizes tokens numbers sorted_products product_words working_db st sizes
    = Some st' ->
  holds P st'.
Proof.
  induction sizes as [|size smaller IH]; intros st st' H Ht; simpl in Ht.
  - discriminate.
  - destruct (length tokens <? ps_i st + size)%nat; [eauto|].
    destruct (skip_phrase _ _ _ _); [eauto|].
    destruct (best_match _ _) as [best_score [[best_product best_idx]|]]; [|eauto].
    destruct (similarity_threshold <=? best_score)%float; [|eauto].
    injection Ht as <-. unfold holds. simpl.
    apply (commit_holds st best_product best_idx best_score size H).
Qed.

Lemma fallback_holds st :
  holds P st ->
  holds P (fallback tokens numbers product_names working_db st).
Proof.
  intros H. unfold fallback, holds. simpl.
  destruct (best_match _ _) as [best_score [[best_product best_idx]|]]; [|exact H].
  destruct (_ && _); [|exact H].
  apply (commit_holds st best_product best_idx best_score 1 H).
Qed.

Lemma parse_step_holds st :
  holds P st ->
  holds P (parse_step tokens numbers product_names sorted_products
           max_prod_words product_words working_db st).
Proof.
  intros H. unfold parse_step.
  destruct (bool_decide _); [exact H|].
  destruct (_ || _); [exact H|].
  destruct (try_sizes _ _ _ _ _ _ _) as [st'|] eqn:Ht.
  - eapply try_sizes_holds; eauto.
  - apply fallback_holds. exact H.
Qed.

Lemma parse_loop_holds fuel : forall st,
  holds P st ->
  holds P (parse_loop tokens numbers product_names sorted_products
           max_prod_words product_words working_db fuel st).
Proof.
  induction fuel as [|fuel IH]; intros st H; simpl; [exact H|].
  destruct (ps_i st <? length tokens)%nat; [|exact H].
  apply IH. apply parse_step_holds. exact H.
Qed.
End LoopInvariant.

Lemma parse_order_interactive_unfold message (products_db : list nat) (h : list row) :
  parse_order_interactive message products_db h =
  let tokens := tokenize message in
  let '(working_db, h) := deepcopy products_db h in
  match extract_numbers_and_positions tokens with
  | Raise e => (h, Raise e)
  | Ok numbers_with_positions =>
    let product_names := map row_name (rows_of h products_db) in
    let sorted_products :=
      sorted_desc (fun x : str * nat => length (split x.1))
                  (imap (fun i p => (p, i)) product_names) in
    match max_of (map (fun p => length (split p)) product_names) with
    | Raise e => (h, Raise e)
    | Ok max_prod_words =>
      let product_words :=
        concat (map (fun p => map normalize (split p)) product_names) in
      let st :=
        parse_loop tokens numbers_with_positions product_names sorted_products
                   max_prod_words product_words working_db
                   (length tokens) (ParseState 0 [] [] [] h) in
      (ps_heap st, Ok (parsed_orders st, working_db))
    end
  end.
Proof. reflexivity. Qed.

(** What a call does to the heap, whatever it returns. *)

(** What a call does to the heap, whatever it returns. *)
Lemma parse_order_interactive_heap message (db : list nat) (h : list row) :
  valid h db ->
  let '(h', r) := parse_order_interactive message db h in
  frame h h' /\ (nonneg_heap h -> nonneg_heap h') /\
  match r with
  | Raise _ => True
  | Ok (orders, working_db) =>
    fresh h working_db /\ valid h' working_db /\
    rows_le (rows_of h db) (rows_of h' working_db) /\
    Forall (fun o => 0 <= qty o) orders
  end.
Proof.
  intros Hv. rewrite parse_order_interactive_unfold. cbv zeta.
  destruct (deepcopy db h) as [working_db h1] eqn:Hdc.
  destruct (deepcopy_spec db h working_db h1 Hv Hdc)
    as (F1 & Hfresh & Hvalid & Hrows & HP).
  destruct (extract_numbers_and_positions (tokenize message))
    as [numbers|e] eqn:Hex.
  2:{ split; [exact F1|]. split; [apply HP|exact I]. }
  destruct (max_of _) as [max_prod_words|e].
  2:{ split; [exact F1|]. split; [apply HP|exact I]. }
  pose proof (extract_nonneg _ _ Hex) as Hnn.
  set (st0 := ParseState 0 [] [] [] h1).
  match goal with |- context [parse_loop ?t ?n ?pn ?sp ?mx ?pw ?w ?fuel st0] =>
    set (st := parse_loop t n pn sp mx pw w fuel st0)
  end.
  assert (holds (fun hp os => frame h hp /\ grows h1 hp /\
                              (nonneg_heap h -> nonneg_heap hp) /\
                              Forall (fun o => 0 <= qty o) os) st)
      as (F & G & N & O).
  { subst st. apply parse_loop_holds.
    - exact Hnn.
    - intros hp os idx q name sc Hq (F & G & N & O).
      split; [|split; [|split]].
      + apply add_quantity_frame; assumption.
      + apply (grows_trans _ hp); [exact G|]. apply add_quantity_grows. exact Hq.
      + intros Hh. apply add_quantity_nonneg; auto.
      + apply Forall_app. split; [exact O|]. constructor; [exact Hq|constructor].
    - unfold holds. subst st0. cbn [ps_heap parsed_orders].
      split; [exact F1|]. split; [apply grows_refl|].
      split; [apply HP|constructor]. }
  clearbody st. clear st0.
  split; [exact F|]. split; [exact N|].
  split; [exact Hfresh|]. split; [|split; [|exact O]].
  - eapply Forall_impl; [exact Hvalid|]. cbv beta. intros l Hl.
    destruct G as [Glen _]. lia.
  - rewrite <- Hrows. unfold rows_le, rows_of.
    apply Forall2_fmap. apply Forall_Forall2_diag.
    eapply Forall_impl; [exact Hvalid|]. cbv beta. intros l Hl.
    destruct G as [_ G]. destruct (G l Hl) as [Gn Gq]. split; [congruence|exact Gq].
Qed.

(** ** Extraction on concrete messages *)

(** C1. On the catalog of the two products "manga" and "queijo" with
    zero quantities, the message "dois mangas e tres queijos" yields
    exactly two order lines, "manga" with quantity 2 and "queijo" with
    quantity 3, each with a score of at least 80; the working catalog
    returned holds these quantities and the catalog passed in still
    holds zeros.  The same lines come out against the catalog of the
    program. *)
Theorem parse_dois_mangas_e_tres_queijos :
  (exists score_manga score_queijo,
      parse_rows (py "dois mangas e tres queijos")
                 [(py "manga", 0); (py "queijo", 0)] =
      (Ok ([Order (py "manga") 2 score_manga;
            Order (py "queijo") 3 score_queijo],
           [Row (py "manga") 2; Row (py "queijo") 3]),
       [Row (py "manga") 0; Row (py "queijo") 0]) /\
      (80 <=? score_manga)%float = true /\
      (80 <=? score_queijo)%float = true) /\
  (exists orders rows,
      (parse_rows (py "dois mangas e tres queijos") products_db_literal).1 =
      Ok (orders, rows) /\
      lines_of orders = [(py "manga", 2); (py "queijo", 3)] /\
      forallb (fun o => (80 <=? score o)%float) orders = true /\
      map row_qty rows = <[10%nat := 2]> (<[17%nat := 3]> (replicate 18 0))).
Proof.
  split.
  - eexists _, _. split; [vm_compute; reflexivity|].
    split; vm_compute; reflexivity.
  - eexists _, _. split; [vm_compute; reflexivity|].
    repeat split; vm_compute; reflexivity.
Qed.

(** C4 fails as stated: against the catalog of the program the message
    "vinte e cinco limões" produces no order line at all. *)
Lemma parse_vinte_e_cinco_limoes_no_line :
  match (parse_rows (py "vinte e cinco limões") products_db_literal).1 with
  | Ok (orders, _) => orders = []
  | Raise _ => False
  end.
Proof. vm_compute. reflexivity. Qed.

(** C4, amended.  In "vinte e cinco limões" the run "vinte e cinco"
    joined by "e" is extracted as the single integer 25 at position 0.
    The token "limoes" is at similarity exactly 50 from the lemon entry
    of the catalog, its best match; the fall-back requires more than 50,
    so no order line is produced and the working catalog holds zeros.
    The singular "vinte e cinco limão" is at similarity above 80 and
    produces one line, quantity 25 for the lemon entry. *)
Theorem parse_vinte_e_cinco_limoes :
  let lemon := py "limÃ£o" in
  tokenize (py "vinte e cinco limões") = map py ["vinte"; "e"; "cinco"; "limoes"]%string /\
  extract_numbers_and_positions (tokenize (py "vinte e cinco limões")) =
    Ok [(0%nat, 25)] /\
  best_match (imap (fun idx kv => (kv.1, idx)) products_db_literal) (py "limoes") =
    (50%float, Some (lemon, 0%nat)) /\
  (exists rows,
      (parse_rows (py "vinte e cinco limões") products_db_literal).1 =
      Ok ([], rows) /\ map row_qty rows = replicate 18 0) /\
  (exists orders rows,
      (parse_rows (py "vinte e cinco limão") products_db_literal).1 =
      Ok (orders, rows) /\
      lines_of orders = [(lemon, 25)] /\
      forallb (fun o => (80 <=? score o)%float) orders = true /\
      map row_qty rows = <[0%nat := 25]> (replicate 18 0)).
Proof.
  cbv zeta. split; [vm_compute; reflexivity|].
  split; [vm_compute; reflexivity|].
  split; [vm_compute; reflexivity|].
  split.
  - eexists. split; vm_compute; reflexivity.
  - eexists _, _. split; [vm_compute; reflexivity|].
    repeat split; vm_compute; reflexivity.
Qed.

(** C10. The digit "0" and the word "zero" are not treated alike.  For
    a token [p] that is not a number, the tokens ["0"; p] give the
    number 0 at position 0, and the product at position 1 is associated
    with quantity 0 from that position; the tokens ["zero"; p] give no
    number, because the run parses to a total that is not positive, and
    the product is associated with the default quantity 1 and no
    position.  Against the catalog of the program, for each of its
    products, the message "0 <product>" commits one line with quantity 0
    and leaves every running total at zero, and "zero <product>" commits
    one line with quantity 1, which is added to the total of the
    product. *)
Theorem digit_zero_and_word_zero :
  (forall p : str,
      isdigit p = false -> dict_in p word2num_all = false ->
      extract_numbers_and_positions [py "0"; p] = Ok [(0%nat, 0)] /\
      find_associated_number 1 [py "0"; p] [(0%nat, 0)] = (0, Some 0%nat) /\
      parse_number_words [py "zero"] = None /\
      extract_numbers_and_positions [py "zero"; p] = Ok [] /\
      find_associated_number 1 [py "zero"; p] [] = (1, None)) /\
  Forall (fun entry : nat * (str * Z) =>
      let '(idx, (name, _)) := entry in
      program_lines (py "0 " ++ name) =
        Some ([(name, 0)], replicate 18 0) /\
      program_lines (py "zero " ++ name) =
        Some ([(name, 1)], <[idx := 1]> (replicate 18 0)))
    (imap (fun idx kv => (idx, kv)) products_db_literal).
Proof.
  split.
  - intros p Hd Hw. split; [|split; [|split; [|split]]].
    + unfold extract_numbers_and_positions. cbn [extract_from].
      change (isdigit (py "0")) with true. cbv iota.
      change (int_of_str (py "0")) with (Ok 0). cbn [bind].
      rewrite Hd, Hw. reflexivity.
    + reflexivity.
    + reflexivity.
    + unfold extract_numbers_and_positions. cbn [extract_from].
      change (isdigit (py "zero")) with false. cbv iota.
      change (dict_in (py "zero") word2num_all) with true. cbv iota.
      rewrite Hd, Hw. reflexivity.
    + reflexivity.
  - repeat constructor; vm_compute; reflexivity.
Qed.

Lemma digit_zero_and_word_zero_witness :
  isdigit (py "manga") = false /\
  dict_in (py "manga") word2num_all = false /\
  extract_numbers_and_positions [py "0"; py "manga"] = Ok [(0%nat, 0)] /\
  extract_numbers_and_positions [py "zero"; py "manga"] = Ok [].
Proof.
  split; [reflexivity|]. split; [reflexivity|].
  destruct (proj1 digit_zero_and_word_zero (py "manga") eq_refl eq_refl)
    as (H0 & _ & _ & Hzero & _).
  split; [exact H0 | exact Hzero].
Defined.

(** ** The frame of [parse_order_interactive] and the used numbers *)

Lemma rows_of_frame (h h' : list row) (db : list nat) :
  frame h h' -> valid h db -> rows_of h' db = rows_of h db.
Proof.
  intros F Hv. unfold rows_of. apply map_ext_in. intros l Hl.
  apply frame_total; [exact F|].
  unfold valid in Hv. rewrite Forall_forall in Hv. apply Hv.
  apply list_elem_of_In. exact Hl.
Qed.

Lemma tokenize_empty : tokenize [] = [].
Proof. vm_compute. reflexivity. Qed.

(** C9 fails as stated: on the empty catalog the call raises. *)
Lemma parse_empty_catalog_raises :
  parse_order_interactive [] [] [] = ([], Raise ValueError).
Proof. vm_compute. reflexivity. Qed.

(** C9, amended.  For every catalog whose rows are allocated and every
    message, a call leaves every row that existed before it unchanged,
    whether it returns or raises: the catalog passed in reads the same
    after the call.  When it returns, the working catalog is made of
    rows allocated by the call, none of them a row of the heap before
    it.  For the empty message and a catalog that is not empty it
    returns no order line and a working catalog whose entries equal
    those of the catalog passed in. *)
Theorem parse_order_interactive_frame :
  forall (message : str) (products_db : list nat) (h : list row),
    valid h products_db ->
    let '(h', r) := parse_order_interactive message products_db h in
    frame h h' /\
    rows_of h' products_db = rows_of h products_db /\
    match r with
    | Ok (_, working_db) => fresh h working_db
    | Raise _ => True
    end /\
    (message = [] -> products_db <> [] ->
     exists working_db,
       r = Ok ([], working_db) /\
       rows_of h' working_db = rows_of h products_db).
Proof.
  intros message db h Hv.
  pose proof (parse_order_interactive_heap message db h Hv) as Hheap.
  destruct (parse_order_interactive message db h) as [h' r] eqn:Hp.
  destruct Hheap as (F & _ & Hr).
  split; [exact F|]. split; [apply rows_of_frame; assumption|]. split.
  - destruct r as [[orders working_db]|e]; [|exact I]. apply Hr.
  - intros -> Hne. rewrite parse_order_interactive_unfold in Hp.
    rewrite tokenize_empty in Hp. cbv zeta in Hp.
    destruct (deepcopy db h) as [working_db h1] eqn:Hdc.
    change (extract_numbers_and_positions []) with (Ok (@nil (nat * Z))) in Hp.
    cbv iota beta in Hp.
    destruct db as [|l db]; [congruence|].
    cbn [rows_of map max_of] in Hp. cbn [length parse_loop] in Hp.
    cbn [ps_heap parsed_orders] in Hp.
    injection Hp as <- <-. exists working_db. split; [reflexivity|].
    apply (deepcopy_spec (l :: db) h working_db h1 Hv Hdc).
Qed.

Lemma parse_order_interactive_frame_witness :
  valid initial_heap global_products_db /\
  frame initial_heap
    (parse_order_interactive (py "2 mangas") global_products_db initial_heap).1 /\
  rows_of (parse_order_interactive (py "2 mangas") global_products_db
             initial_heap).1 global_products_db =
  rows_of initial_heap global_products_db.
Proof.
  assert (valid initial_heap global_products_db) as Hv.
  { unfold valid. apply (bool_decide_unpack _). vm_compute. exact I. }
  split; [exact Hv|].
  pose proof (parse_order_interactive_frame (py "2 mangas") global_products_db
                initial_heap Hv) as H.
  destruct (parse_order_interactive (py "2 mangas") global_products_db
              initial_heap) as [h' r].
  destruct H as (F & R & _). split; assumption.
Defined.

Lemma find_sorted {A} (R : A -> A -> Prop) (f : A -> bool) l x :
  StronglySorted R l -> find f l = Some x ->
  forall y, y ∈ l -> f y = true -> y = x \/ R x y.
Proof.
  induction 1 as [|a l Hs IH Ha]; intros Hf y Hy Hfy; simpl in Hf; [discriminate|].
  destruct (f a) eqn:Hfa.
  - injection Hf as <-. apply elem_of_cons in Hy as [->|Hy]; [left; reflexivity|].
    right. rewrite Forall_forall in Ha. apply Ha. exact Hy.
  - apply elem_of_cons in Hy as [->|Hy]; [congruence|]. apply IH; assumption.
Qed.

Lemma find_none_all {A} (f : A -> bool) l :
  find f l = None -> forall y, y ∈ l -> f y = false.
Proof.
  intros H y Hy. apply list_elem_of_In in Hy. exact (find_none f l H y Hy).
Qed.

(** C5, amended.  [numbers] are the numbers extracted from the tokens
    and [p] the position chosen by the positional rules, already in the
    used-number set.  The quantity is replaced by the value of the
    unused number of smallest position, and that position becomes the
    associated one.  When every extracted number is used, the
    association is kept as it is: the quantity stays the value of the
    number that is used again, with its position.  The order line a
    commit records carries the quantity so obtained. *)
Theorem take_unused_number_spec :
  forall (tokens : list str) (numbers : list (nat * Z)) (used : list nat)
         (quantity : Z) (p : nat),
    extract_numbers_and_positions tokens = Ok numbers ->
    p ∈ used ->
    (forall pos val,
        (pos, val) ∈ numbers -> pos ∉ used ->
        (forall pos' val', (pos', val') ∈ numbers -> pos' ∉ used ->
                           (pos <= pos')%nat) ->
        take_unused_number (quantity, Some p) numbers used = (val, Some pos)) /\
    ((forall pos val, (pos, val) ∈ numbers -> pos ∈ used) ->
     take_unused_number (quantity, Some p) numbers used = (quantity, Some p)) /\
    (forall st name idx sc size working_db,
        lines_of (parsed_orders (commit tokens numbers working_db st name idx sc size)) =
        lines_of (parsed_orders st) ++
        [(name, (take_unused_number
                   (find_associated_number (ps_i st) tokens numbers)
                   numbers (used_numbers st)).1)]).
Proof.
  intros tokens numbers used quantity p Hex Hp.
  apply extract_from_spec in Hex as [_ Hsorted].
  split; [|split].
  - intros pos val Hin Hunused Hmin.
    unfold take_unused_number. cbn [snd].
    rewrite bool_decide_eq_true_2 by exact Hp.
    destruct (find _ numbers) as [[pos0 val0]|] eqn:Hfind.
    + pose proof (find_some _ _ Hfind) as [Hin0 Hf0]. cbn in Hf0.
      apply negb_true_iff, bool_decide_eq_false in Hf0.
      apply list_elem_of_In in Hin0.
      pose proof (Hmin pos0 val0 Hin0 Hf0) as Hle.
      destruct (find_sorted _ _ _ _ Hsorted Hfind (pos, val) Hin) as [E|Hlt].
      * cbn. apply negb_true_iff, bool_decide_eq_false. exact Hunused.
      * injection E as -> ->. reflexivity.
      * cbn in Hlt. lia.
    + exfalso. pose proof (find_none_all _ _ Hfind (pos, val) Hin) as Hf.
      cbn in Hf. apply negb_false_iff, bool_decide_eq_true in Hf. contradiction.
  - intros Hall. unfold take_unused_number. cbn [snd].
    rewrite bool_decide_eq_true_2 by exact Hp.
    destruct (find _ numbers) as [[pos0 val0]|] eqn:Hfind; [|reflexivity].
    exfalso. pose proof (find_some _ _ Hfind) as [Hin0 Hf0]. cbn in Hf0.
    apply negb_true_iff, bool_decide_eq_false in Hf0. apply Hf0.
    apply (Hall pos0 val0). apply list_elem_of_In. exact Hin0.
  - intros st name idx sc size working_db. unfold commit.
    destruct (take_unused_number _ _ _) as [q np]. cbn [parsed_orders fst].
    unfold lines_of. rewrite map_app. reflexivity.
Qed.

Lemma take_unused_number_spec_witness :
  extract_numbers_and_positions (map py ["2"; "manga"; "queijo"]%string) = Ok [(0%nat, 2)] /\
  0%nat ∈ [0%nat] /\
  take_unused_number (2, Some 0%nat) [(0%nat, 2)] [0%nat] = (2, Some 0%nat).
Proof.
  split; [reflexivity|]. split; [apply list_elem_of_here|].
  apply (take_unused_number_spec (map py ["2"; "manga"; "queijo"]%string)
           [(0%nat, 2)] [0%nat] 2 0%nat eq_refl (list_elem_of_here _ _)).
  intros pos val Hin. apply list_elem_of_singleton in Hin. injection Hin as -> _.
  apply list_elem_of_here.
Defined.

(** C5 fails as stated: when every extracted number is used the
    quantity is not the default. *)
Lemma reused_number_not_default :
  tokenize (py "2 manga queijo") = map py ["2"; "manga"; "queijo"]%string /\
  find_associated_number 2 (tokenize (py "2 manga queijo")) [(0%nat, 2)] =
    (2, Some 0%nat) /\
  take_unused_number (2, Some 0%nat) [(0%nat, 2)] [0%nat] = (2, Some 0%nat) /\
  program_lines (py "2 manga queijo") =
    Some ([(py "manga", 2); (py "queijo", 2)],
          <[10%nat := 2]> (<[17%nat := 2]> (replicate 18 0))).
Proof. repeat split; vm_compute; reflexivity. Qed.

(** ** Sessions *)

Ltac session_cbn :=
  cbn [fst snd
       session_id user_id products_db current_db confirmed_orders
       pending_orders state reminder_count message_queue active_timer
       last_activity waiting_for_option memory confirmed_orders_table
       set_current_db set_confirmed_orders set_pending_orders set_state
       set_reminder_count set_message_queue set_active_timer
       set_last_activity set_waiting_for_option set_memory
       set_confirmed_orders_table
       put _cancel_timer start_timer _start_inactivity_timer
       _start_reminder_cycle _save_final_orders] in *.

Ltac split_deepcopy :=
  repeat match goal with
  | |- context [deepcopy ?db ?h] =>
    let c := fresh "copy" in let h' := fresh "h'" in let E := fresh "Hdc" in
    destruct (deepcopy db h) as [c h'] eqn:E
  end.

Ltac solve_keeps :=
  split; [reflexivity|]; split; [reflexivity|]; split; [reflexivity|];
  session_cbn;
  first [ exists []; symmetry; apply app_nil_r
        | eexists; reflexivity ].

Lemma _reset_current_effect s :
  keeps s (_reset_current s) /\ catalog_effect s (_reset_current s).
Proof.
  unfold _reset_current. split_deepcopy. session_cbn. split.
  - solve_keeps.
  - apply effect_reset. session_cbn. exact Hdc.
Qed.

Lemma start_new_conversation_effect s :
  keeps s (start_new_conversation s) /\
  catalog_effect s (start_new_conversation s).
Proof.
  unfold start_new_conversation. split_deepcopy. session_cbn. split.
  - solve_keeps.
  - apply effect_reset. session_cbn. exact Hdc.
Qed.

Lemma _send_summary_effect s :
  keeps s (_send_summary s) /\ catalog_effect s (_send_summary s).
Proof.
  unfold _send_summary.
  destruct (bool_decide (state s = collecting) && has_items s).
  - session_cbn. split; [solve_keeps|]. apply effect_none; reflexivity.
  - destruct (bool_decide (state s = collecting)).
    + session_cbn. split; [solve_keeps|]. apply effect_none; reflexivity.
    + split; [solve_keeps|]. apply effect_none; reflexivity.
Qed.

Lemma keeps_trans a b c : keeps a b -> keeps b c -> keeps a c.
Proof.
  intros (P1 & I1 & U1 & C1) (P2 & I2 & U2 & C2).
  split; [congruence|]. split; [congruence|]. split; [congruence|].
  destruct C1 as [k1 E1]. destruct C2 as [k2 E2].
  exists (k1 ++ k2). rewrite E2, E1, app_assoc. reflexivity.
Qed.

(** An operation that follows one without effect on the catalogs. *)
Lemma catalog_effect_after a a' b :
  memory a' = memory a -> current_db a' = current_db a ->
  products_db a' = products_db a ->
  catalog_effect a' b -> catalog_effect a b.
Proof.
  intros Hm Hc Hp [E1 E2|E|msg r E1 E2|E1 E2 E3 E4].
  - apply effect_none; congruence.
  - apply effect_reset. rewrite <- Hp, <- Hm. exact E.
  - apply (effect_parse _ _ msg r); [rewrite <- Hc, <- Hm; exact E1|].
    rewrite <- Hc. exact E2.
  - apply effect_merge.
    + congruence.
    + rewrite <- Hm. exact E2.
    + congruence.
    + rewrite <- Hc, <- Hm. exact E4.
Qed.

Lemma _mark_as_pending_effect now rnd s :
  keeps s (_mark_as_pending now rnd s) /\
  catalog_effect s (_mark_as_pending now rnd s).
Proof.
  unfold _mark_as_pending. destruct (has_items s).
  - unfold _reset_current. session_cbn. split_deepcopy. session_cbn. split.
    + solve_keeps.
    + apply effect_reset. session_cbn. exact Hdc.
  - split; [solve_keeps|]. apply effect_none; reflexivity.
Qed.

Lemma _send_reminder_effect now rnd s :
  keeps s (_send_reminder now rnd s) /\
  catalog_effect s (_send_reminder now rnd s).
Proof.
  unfold _send_reminder.
  destruct (bool_decide (state s = confirming) && (reminder_count s <=? 5)).
  2:{ split; [solve_keeps|]. apply effect_none; reflexivity. }
  session_cbn. destruct (reminder_count s =? 5).
  - match goal with |- context [_mark_as_pending now rnd ?x] =>
      destruct (_mark_as_pending_effect now rnd x) as [K E]; set (s1 := x) in * end.
    split.
    + eapply keeps_trans; [|exact K]. subst s1. session_cbn. solve_keeps.
    + eapply catalog_effect_after; [| | |exact E]; reflexivity.
  - session_cbn. split; [solve_keeps|]. apply effect_none; reflexivity.
Qed.

Lemma fire_effect now rnd s s' :
  fire now rnd s = Some s' -> keeps s s' /\ catalog_effect s s'.
Proof.
  unfold fire. destruct (active_timer s) as [[cb [|]]|]; try discriminate.
  intros [= <-]. destruct cb.
  - match goal with |- context [_send_summary ?x] =>
      destruct (_send_summary_effect x) as [K E]; set (s1 := x) in * end.
    split.
    + eapply keeps_trans; [|exact K]. subst s1. session_cbn. solve_keeps.
    + eapply catalog_effect_after; [| | |exact E]; reflexivity.
  - match goal with |- context [_send_reminder now rnd ?x] =>
      destruct (_send_reminder_effect now rnd x) as [K E]; set (s1 := x) in * end.
    split.
    + eapply keeps_trans; [|exact K]. subst s1. session_cbn. solve_keeps.
    + eapply catalog_effect_after; [| | |exact E]; reflexivity.
Qed.

Lemma parse_current_effect message s s' r :
  parse_current message s = (s', r) ->
  parse_order_interactive message (current_db s) (memory s) = (memory s', r) /\
  s' = set_memory (memory s') s.
Proof.
  unfold parse_current.
  destruct (parse_order_interactive message (current_db s) (memory s)) as [h r0].
  intros [= <- <-]. session_cbn. split; reflexivity.
Qed.

Lemma process_message_effect now message s :
  keeps s (process_message now message s).1 /\
  catalog_effect s (process_message now message s).1.
Proof.
  unfold process_message. cbv zeta.
  set (ml := strip (lower message)).
  set (s0 := set_last_activity now s).
  assert (keeps s s0) as K0.
  { subst s0. session_cbn. solve_keeps. }
  assert (forall b, catalog_effect s0 b -> catalog_effect s b) as E0.
  { intros b. apply catalog_effect_after; reflexivity. }
  assert (forall b, keeps s0 b /\ catalog_effect s0 b ->
                    keeps s b /\ catalog_effect s b) as Both.
  { intros b [K E]. split; [exact (keeps_trans _ _ _ K0 K)|exact (E0 b E)]. }
  clearbody s0. apply Both. clear K0 E0 Both.
  destruct (_check_cancel_command ml).
  { cbn [fst]. apply start_new_conversation_effect. }
  destruct (bool_decide (state s0 = waiting_for_next)).
  { session_cbn. split; [solve_keeps|apply effect_none; reflexivity]. }
  destruct (bool_decide (state s0 = option_) && waiting_for_option s0).
  { destruct (str_eqb ml (py "1")); [|destruct (str_eqb ml (py "2"))];
      session_cbn; (split; [solve_keeps|apply effect_none; reflexivity]). }
  destruct (bool_decide (state s0 = pending_confirmation)).
  { destruct (any_word _ ml).
    - destruct (pending_orders s0) eqn:Hpend.
      + destruct (any_word _ ml);
          session_cbn; (split; [solve_keeps|apply effect_none; reflexivity]).
      + session_cbn. split; [|apply effect_none; reflexivity].
        solve_keeps.
    - destruct (parse_current message _) as [s1 r] eqn:Hp.
      apply parse_current_effect in Hp as [Hp Hs1].
      rewrite Hs1. clear Hs1.
      destruct r as [[[|o os] updated_db]|e]; session_cbn;
        (split; [solve_keeps|]);
        eapply effect_parse; session_cbn;
          first [exact Hp | right; eexists; reflexivity | left; reflexivity]. }
  destruct (bool_decide (state s0 = confirming)).
  { destruct (any_word _ ml).
    - unfold _reset_current. session_cbn. split_deepcopy. session_cbn. split.
      + solve_keeps.
      + apply effect_reset. session_cbn. exact Hdc.
    - destruct (any_word _ ml).
      + unfold _reset_current. session_cbn. split_deepcopy. session_cbn. split.
        * solve_keeps.
        * apply effect_reset. session_cbn. exact Hdc.
      + destruct (parse_current message _) as [s1 r] eqn:Hp.
        apply parse_current_effect in Hp as [Hp Hs1].
        rewrite Hs1. clear Hs1.
        destruct r as [[[|o os] updated_db]|e]; session_cbn;
          (split; [solve_keeps|]);
          eapply effect_parse; session_cbn;
            first [exact Hp | right; eexists; reflexivity | left; reflexivity]. }
  destruct (bool_decide (state s0 = collecting)).
  { destruct (mem ml _).
    - destruct (has_items s0).
      + cbn [fst]. apply _send_summary_effect.
      + session_cbn. split; [solve_keeps|apply effect_none; reflexivity].
    - destruct (parse_current message _) as [s1 r] eqn:Hp.
      apply parse_current_effect in Hp as [Hp Hs1].
      rewrite Hs1. clear Hs1.
      destruct r as [[[|o os] updated_db]|e]; session_cbn;
        (split; [solve_keeps|]);
        eapply effect_parse; session_cbn;
          first [exact Hp | right; eexists; reflexivity | left; reflexivity]. }
  session_cbn. split; [solve_keeps|apply effect_none; reflexivity].
Qed.

Lemma rows_le_refl rows : rows_le rows rows.
Proof.
  unfold rows_le. apply Forall_Forall2_diag, Forall_forall.
  intros r _. split; [reflexivity|lia].
Qed.

Lemma rows_le_grows (h h' : list row) (db : list nat) :
  grows h h' -> valid h db -> rows_le (rows_of h db) (rows_of h' db).
Proof.
  intros [_ G] Hv. unfold rows_le, rows_of. apply Forall2_fmap.
  apply Forall_Forall2_diag. eapply Forall_impl; [exact Hv|]. cbv beta.
  intros l Hl. destruct (G l Hl) as [Gn Gq]. split; [congruence|exact Gq].
Qed.

Lemma valid_frame (h h' : list row) (db : list nat) :
  frame h h' -> valid h db -> valid h' db.
Proof.
  intros F Hv. pose proof (frame_length _ _ F).
  eapply Forall_impl; [exact Hv|]. cbv beta. intros; lia.
Qed.

Lemma fresh_not_in (h : list row) (fresh_db old_db : list nat) :
  fresh h fresh_db -> valid h old_db -> Forall (fun l : nat => l ∉ old_db) fresh_db.
Proof.
  intros Hf Hv. eapply Forall_impl; [exact Hf|]. cbv beta. intros l Hl Hin.
  unfold valid in Hv. rewrite Forall_forall in Hv. specialize (Hv l Hin). lia.
Qed.

Lemma zero_rows_frame (h h' : list row) (db : list nat) :
  frame h h' -> valid h db ->
  Forall (fun l : nat => row_qty (h !!! l) = 0) db ->
  Forall (fun l : nat => row_qty (h' !!! l) = 0) db.
Proof.
  intros F Hv Hz. unfold valid in Hv. rewrite Forall_forall in *. intros l Hl.
  rewrite (frame_total h h' l F (Hv l Hl)). auto.
Qed.

Lemma nonneg_rows (h : list row) (db : list nat) :
  nonneg_heap h -> valid h db -> Forall (fun r => 0 <= row_qty r) (rows_of h db).
Proof.
  intros Hn Hv. unfold rows_of. apply Forall_fmap.
  eapply Forall_impl; [exact Hv|]. cbv beta. intros l Hl.
  apply (Forall_lookup_total_1 _ h l Hn Hl).
Qed.

Lemma effect_inv s s' :
  session_inv s -> products_db s' = products_db s -> catalog_effect s s' ->
  session_inv s' /\
  (rows_le (current_rows s) (current_rows s') \/
   Forall (fun r => row_qty r = 0) (current_rows s')).
Proof.
  intros (V1 & V2 & Z & D & N) Hp E. unfold session_inv, current_rows.
  rewrite Hp. destruct E as [E1 E2|E|msg r E1 E2|E1 E2 E3 E4].
  - rewrite E1, E2. split; [repeat split; assumption|]. left. apply rows_le_refl.
  - destruct (deepcopy_spec _ _ _ _ V1 E) as (F & Hf & Hv & Hr & HP).
    split.
    + split; [eapply valid_frame; eassumption|]. split; [exact Hv|].
      split; [eapply zero_rows_frame; eassumption|].
      split; [eapply fresh_not_in; eassumption|]. apply HP. exact N.
    + right. rewrite Hr. unfold rows_of. apply Forall_fmap. exact Z.
  - pose proof (parse_order_interactive_heap msg _ _ V2) as H.
    rewrite E1 in H. destruct H as (F & Hn & Hr).
    destruct E2 as [E2|[orders ->]].
    + rewrite E2. split.
      * split; [eapply valid_frame; eassumption|].
        split; [eapply valid_frame; eassumption|].
        split; [eapply zero_rows_frame; eassumption|].
        split; [exact D|]. apply Hn. exact N.
      * left. rewrite (rows_of_frame _ _ _ F V2). apply rows_le_refl.
    + destruct Hr as (Hf & Hv & Hle & _). split.
      * split; [eapply valid_frame; eassumption|]. split; [exact Hv|].
        split; [eapply zero_rows_frame; eassumption|].
        split; [eapply fresh_not_in; eassumption|]. apply Hn. exact N.
      * left. exact Hle.
  - rewrite E1. unfold valid. rewrite E3. split.
    + split; [exact V1|]. split; [exact V2|]. split; [|split; [exact D|]].
      * rewrite Forall_forall in *. intros l Hl.
        assert (l ∉ current_db s) as Hnot.
        { intros Hin. exact (D l Hin Hl). }
        rewrite !list_lookup_total_alt, (E4 l Hnot).
        rewrite <- list_lookup_total_alt. auto.
      * unfold nonneg_heap. apply Forall_lookup_2. intros l r Hl.
        pose proof (lookup_lt_Some _ _ _ Hl) as Hlt. rewrite E3 in Hlt.
        destruct E2 as [_ G]. destruct (G l Hlt) as [_ Gq].
        rewrite (list_lookup_total_correct _ _ _ Hl) in Gq.
        pose proof (Forall_lookup_total_1 _ _ l N Hlt) as Hq. cbv beta in Hq. lia.
    + left. apply rows_le_grows; assumption.
Qed.

Lemma add_orders_spec parsed_orders : forall s,
  Forall (fun o => 0 <= qty o) parsed_orders ->
  keeps s (add_orders parsed_orders s) /\
  current_db (add_orders parsed_orders s) = current_db s /\
  grows (memory s) (memory (add_orders parsed_orders s)) /\
  length (memory (add_orders parsed_orders s)) = length (memory s) /\
  (forall l : nat, l ∉ current_db s ->
     memory (add_orders parsed_orders s) !! l = memory s !! l).
Proof.
  unfold add_orders.
  induction parsed_orders as [|o os IH]; intros s Hq; cbn [fold_left].
  - split; [solve_keeps|]. split; [reflexivity|]. split; [apply grows_refl|].
    split; [reflexivity|]. intros; reflexivity.
  - apply Forall_cons in Hq as [Hq Hos].
    match goal with |- context [fold_left ?f os ?x] => set (s1 := x) end.
    assert (keeps s s1 /\ current_db s1 = current_db s /\
            grows (memory s) (memory s1) /\
            length (memory s1) = length (memory s) /\
            (forall l : nat, l ∉ current_db s -> memory s1 !! l = memory s !! l))
      as (K1 & C1 & G1 & L1 & F1).
    { subst s1. destruct (find _ _) as [[idx r]|].
      - session_cbn. split; [solve_keeps|]. split; [reflexivity|].
        split; [apply add_quantity_grows; exact Hq|].
        split; [apply add_quantity_length|].
        intros l Hl. unfold add_quantity.
        destruct (current_db s !! idx) as [l0|] eqn:Hl0; [|reflexivity].
        apply list_lookup_alter_ne. intros ->. apply Hl.
        eapply list_elem_of_lookup_2. exact Hl0.
      - split; [solve_keeps|]. split; [reflexivity|]. split; [apply grows_refl|].
        split; [reflexivity|]. intros; reflexivity. }
    clearbody s1. destruct (IH s1 Hos) as (K2 & C2 & G2 & L2 & F2).
    split; [eapply keeps_trans; eassumption|]. split; [congruence|].
    split; [eapply grows_trans; eassumption|]. split; [congruence|].
    intros l Hl. rewrite F2 by (rewrite C1; exact Hl). auto.
Qed.

Lemma step_nonneg_effect s s' :
  step_nonneg s s' -> keeps s s' /\ catalog_effect s s'.
Proof.
  intros [now message s0|now rnd s0 s1 Hf|s0|s0|os s0 Hq|os s0 Hq].
  - apply process_message_effect.
  - eapply fire_effect. exact Hf.
  - apply start_new_conversation_effect.
  - unfold get_pending_message. destruct (message_queue s0); session_cbn;
      (split; [solve_keeps|apply effect_none; reflexivity]).
  - unfold add_item.
    destruct (add_orders_spec os s0 Hq) as (K & C & G & L & F).
    set (s1 := add_orders os s0) in *. clearbody s1. session_cbn. split.
    + eapply keeps_trans; [exact K|]. solve_keeps.
    + apply effect_merge; session_cbn; assumption.
  - unfold reset_cycle.
    destruct (add_orders_spec os (_cancel_timer s0) Hq) as (K & C & G & L & F).
    set (s1 := add_orders os (_cancel_timer s0)) in *. clearbody s1.
    session_cbn. split.
    + eapply keeps_trans; [exact K|]. solve_keeps.
    + apply effect_merge; session_cbn; assumption.
Qed.

Lemma global_rows_zero :
  Forall (fun r => row_qty r = 0) (rows_of initial_heap global_products_db).
Proof. vm_compute. repeat constructor. Qed.

Lemma global_valid : valid initial_heap global_products_db.
Proof. unfold valid. apply (bool_decide_unpack _). vm_compute. exact I. Qed.

Lemma init_inv session_id user_id now (h : list row) table :
  frame initial_heap h -> nonneg_heap h ->
  session_inv (init session_id user_id now h table).
Proof.
  intros F N. unfold init.
  pose proof (valid_frame _ _ _ F global_valid) as V.
  destruct (deepcopy global_products_db h) as [pdb h1] eqn:E1.
  destruct (deepcopy global_products_db h1) as [cdb h2] eqn:E2.
  destruct (deepcopy_spec _ _ _ _ V E1) as (F1 & Hf1 & Hv1 & Hr1 & HP1).
  pose proof (valid_frame _ _ _ F1 V) as V'.
  destruct (deepcopy_spec _ _ _ _ V' E2) as (F2 & Hf2 & Hv2 & Hr2 & HP2).
  unfold session_inv. session_cbn.
  split; [eapply valid_frame; eassumption|]. split; [exact Hv2|].
  split; [|split].
  - apply (zero_rows_frame h1 h2 pdb F2 Hv1).
    pose proof global_rows_zero as Hz.
    rewrite <- (rows_of_frame _ _ _ F global_valid), <- Hr1 in Hz.
    unfold rows_of in Hz. apply Forall_fmap in Hz. exact Hz.
  - eapply fresh_not_in; [exact Hf2|exact Hv1].
  - apply HP2, HP1, N.
Qed.

Lemma reachable_nonneg_inv s : reachable_nonneg s -> session_inv s.
Proof.
  induction 1 as [sid uid now h table F N|s s' _ IH Hstep].
  - apply init_inv; assumption.
  - destruct (step_nonneg_effect _ _ Hstep) as [(Hp & _) E].
    apply (effect_inv s s' IH Hp E).
Qed.

Lemma session_inv_shape s : session_inv s -> session_shape s.
Proof. intros (V1 & V2 & Z & D & _). repeat split; assumption. Qed.

Lemma step_nonneg_step s s' : step_nonneg s s' -> step s s'.
Proof. intros [? ? ?|? ? ? ? H|?|?|? ? _|? ? _]; econstructor; eassumption. Qed.

Lemma reachable_nonneg_reachable s : reachable_nonneg s -> reachable s.
Proof.
  induction 1 as [sid uid now h table F N|s s' _ IH Hstep].
  - apply reachable_init; assumption.
  - eapply reachable_step; [exact IH|apply step_nonneg_step; exact Hstep].
Qed.

(** C7, as it was claimed, does not hold: [add_item] adds the quantity
    of a line as it is ([reset_cycle] runs the same loop).  The session
    reached from a new one by [add_item] with a line of -3 "manga" has a
    negative quantity in its working catalog, and only this one. *)
Theorem add_item_negative_quantity :
  reachable session_with_negative_line /\
  step new_session session_with_negative_line /\
  map (fun r => (row_name r, row_qty r))
      (filter (fun r => row_qty r <? 0) (current_rows session_with_negative_line))
  = [(py "manga", -3)].
Proof.
  assert (step new_session session_with_negative_line) as Hstep
    by apply step_add_item.
  split; [|split; [exact Hstep|vm_compute; reflexivity]].
  refine (reachable_step _ _ _ Hstep).
  apply reachable_init; [apply frame_refl|].
  apply (bool_decide_unpack _). vm_compute. exact I.
Qed.

(** C7.  The quantities of the working catalog of a session are at
    least zero as long as the order lines handed to [add_item] and
    [reset_cycle] are not negative: the property [session_inv] holds of
    a session when it is created, every operation with such lines keeps
    it, and it makes every quantity of the working catalog
    non-negative; so it is in every session these operations lead to.
    Such an operation leaves the working catalog with the same products
    and quantities that are not smaller (a merge adds an amount that is
    not negative), or with every quantity at zero (a full reset).  An
    extraction returns order lines with quantities that are not
    negative and a working catalog that is, row by row, not below the
    catalog passed in; so the messages, the timers, the resets and the
    reads of the queue, which are all the program runs, keep the
    property. *)
Theorem working_catalog_quantities :
  (forall session_id user_id now (h : heap) table,
      frame initial_heap h -> nonneg_heap h ->
      session_inv (init session_id user_id now h table)) /\
  (forall s s',
      session_inv s -> step_nonneg s s' ->
      session_inv s' /\
      (rows_le (current_rows s) (current_rows s') \/
       Forall (fun r => row_qty r = 0) (current_rows s'))) /\
  (forall s, session_inv s ->
             Forall (fun r => 0 <= row_qty r) (current_rows s)) /\
  (forall s, reachable_nonneg s ->
             Forall (fun r => 0 <= row_qty r) (current_rows s)) /\
  (forall message (db : catalog) (h : heap),
      valid h db ->
      match parse_order_interactive message db h with
      | (h', Ok (orders, working_db)) =>
        rows_le (rows_of h db) (rows_of h' working_db) /\
        Forall (fun o => 0 <= qty o) orders
      | (_, Raise _) => True
      end).
Proof.
  split; [|split; [|split; [|split]]].
  - intros. apply init_inv; assumption.
  - intros s s' Hinv Hstep.
    destruct (step_nonneg_effect _ _ Hstep) as [(Hp & _) E].
    apply (effect_inv s s' Hinv Hp E).
  - intros s (_ & V & _ & _ & N). apply nonneg_rows; assumption.
  - intros s Hr. destruct (reachable_nonneg_inv s Hr) as (_ & V & _ & _ & N).
    apply nonneg_rows; assumption.
  - intros message db h Hv.
    pose proof (parse_order_interactive_heap message db h Hv) as H.
    destruct (parse_order_interactive message db h) as [h' [[orders w]|e]];
      [|exact I].
    destruct H as (_ & _ & _ & _ & Hle & Ho). split; assumption.
Qed.

Lemma working_catalog_quantities_witness :
  session_inv session_with_mangas /\
  Forall (fun r => 0 <= row_qty r) (current_rows session_with_mangas).
Proof.
  assert (session_inv session_with_mangas) as Hinv.
  { apply (bool_decide_unpack _). vm_compute. exact I. }
  split; [exact Hinv|].
  apply (proj1 (proj2 (proj2 working_catalog_quantities))). exact Hinv.
Defined.

(** ** Messages and timers *)

(** The working catalog after a reset. *)
Lemma reset_rows s (copy : list nat) (h' : list row) :
  session_shape s ->
  deepcopy (products_db s) (memory s) = (copy, h') ->
  Forall (fun r => row_qty r = 0) (rows_of h' copy) /\
  map row_name (rows_of h' copy) =
  map row_name (rows_of (memory s) (products_db s)).
Proof.
  intros (V1 & _ & Z & _) Hdc.
  destruct (deepcopy_spec _ _ _ _ V1 Hdc) as (_ & _ & _ & Hr & _).
  rewrite Hr. split; [|reflexivity].
  unfold rows_of. apply Forall_fmap. exact Z.
Qed.

(** C3 fails as stated: a cancel phrase does emit a message, the restart
    notice that [start_new_conversation] puts on the outgoing queue. *)
Lemma cancel_queues_restart_notice :
  message_queue new_session = [] /\
  (process_message 1 (py "cancelar") new_session).2 = Ok (Reply true None) /\
  message_queue (process_message 1 (py "cancelar") new_session).1 =
    [restart_notice].
Proof. vm_compute. repeat split. Qed.

(** The accented cancel phrase is stored mis-encoded in the source and
    matches no text in lower case; a message "hoje não" is not taken for
    a cancel command. *)
Lemma hoje_nao_accented_not_matched :
  _check_cancel_command (strip (lower (py "hoje não"))) = false /\
  _check_cancel_command (strip (lower (py "hoje nao"))) = true.
Proof. vm_compute. split; reflexivity. Qed.

(** C3, amended.  In every state of a session whose catalogs are well
    formed, a text that contains "cancelar" or "hoje nao" once in lower
    case and stripped makes [process_message] return a successful
    result without a message, leave the session in state
    [waiting_for_next] with the reminder count at zero and no timer, and
    replace the working catalog by a copy of the catalog with every
    quantity at zero; the restart notice is appended to the outgoing
    queue. *)
Theorem cancel_restarts :
  forall (now : Z) (message : str) (s : OrderSession.t),
    session_inv s ->
    contains (strip (lower message)) (py "cancelar") = true \/
    contains (strip (lower message)) (py "hoje nao") = true ->
    exists s',
      process_message now message s = (s', Ok (Reply true None)) /\
      state s' = waiting_for_next /\
      reminder_count s' = 0 /\
      active_timer s' = None /\
      Forall (fun r => row_qty r = 0) (current_rows s') /\
      map row_name (current_rows s') =
        map row_name (rows_of (memory s) (products_db s)) /\
      message_queue s' = message_queue s ++ [restart_notice].
Proof.
  intros now message s Hinv Hc.
  unfold process_message. cbv zeta.
  assert (_check_cancel_command (strip (lower message)) = true) as ->.
  { unfold _check_cancel_command, cancel_commands. cbn [existsb].
    destruct Hc as [-> | ->]; rewrite ?orb_true_r; reflexivity. }
  eexists. split; [reflexivity|].
  unfold start_new_conversation. session_cbn.
  destruct (deepcopy _ _) as [copy h'] eqn:Hdc. session_cbn.
  destruct (reset_rows s copy h' (session_inv_shape s Hinv) Hdc) as [Hz Hn].
  unfold current_rows. session_cbn.
  split; [reflexivity|]. split; [reflexivity|]. split; [reflexivity|].
  split; [exact Hz|]. split; [exact Hn|].
  reflexivity.
Qed.

Lemma cancel_restarts_witness :
  session_inv session_confirming /\
  (contains (strip (lower (py "Cancelar"))) (py "cancelar") = true \/
   contains (strip (lower (py "Cancelar"))) (py "hoje nao") = true) /\
  exists s',
    process_message 30 (py "Cancelar") session_confirming =
      (s', Ok (Reply true None)) /\
    state s' = waiting_for_next.
Proof.
  assert (session_inv session_confirming) as Hinv.
  { apply (bool_decide_unpack _). vm_compute. exact I. }
  split; [exact Hinv|]. split; [left; reflexivity|].
  destruct (cancel_restarts 30 (py "Cancelar") session_confirming Hinv
              (or_introl eq_refl)) as (s' & Hp & Hst & _).
  exists s'. split; [exact Hp|exact Hst].
Defined.

Lemma mem_two (ml a b : str) : mem ml [a; b] = true -> ml = a \/ ml = b.
Proof.
  unfold mem. cbn [existsb]. rewrite orb_false_r.
  intros H. apply orb_true_iff in H as [H|H]; apply bool_decide_eq_true in H; auto.
Qed.

Ltac decide_state Hs :=
  session_cbn; rewrite ?Hs;
  repeat first
    [ rewrite bool_decide_eq_true_2 by reflexivity
    | rewrite bool_decide_eq_false_2 by discriminate ].

(** C8 fails as stated: in state [waiting_for_next] a confirmation
    message with nothing in the working catalog is accepted. *)
Lemma confirmation_accepted_when_waiting :
  state new_session = waiting_for_next /\
  has_items new_session = false /\
  match (process_message 1 (py "confirmar") new_session).2 with
  | Ok r => success r = true
  | Raise _ => False
  end.
Proof. vm_compute. repeat split. Qed.

(** C8, amended.  With no positive quantity in the working catalog, the
    message "pronto" or "confirmar" is rejected in state [collecting],
    and in state [option] while a choice is awaited, and the session is
    left as it was but for the time of the last activity; in state
    [waiting_for_next] it is accepted like any first message and
    answered with the menu.  In no state does a message remove an entry
    from the confirmed orders of the session: the list before the
    message is a prefix of the list after it. *)
Theorem confirmation_without_items :
  (forall now message s,
      state s = collecting -> has_items s = false ->
      mem (strip (lower message)) [py "pronto"; py "confirmar"] = true ->
      exists text,
        process_message now message s =
        (set_last_activity now s, Ok (Reply false (Some text)))) /\
  (forall now message s,
      state s = option_ -> waiting_for_option s = true ->
      mem (strip (lower message)) [py "pronto"; py "confirmar"] = true ->
      exists text,
        process_message now message s =
        (set_last_activity now s, Ok (Reply false (Some text)))) /\
  (forall now message s,
      state s = waiting_for_next ->
      mem (strip (lower message)) [py "pronto"; py "confirmar"] = true ->
      exists s' text,
        process_message now message s = (s', Ok (Reply true (Some text))) /\
        state s' = option_) /\
  (forall now message s,
      confirmed_orders s `prefix_of`
      confirmed_orders (process_message now message s).1).
Proof.
  assert (forall ml, mem ml [py "pronto"; py "confirmar"] = true ->
                     _check_cancel_command ml = false) as Hcancel.
  { intros ml H. apply mem_two in H as [-> | ->]; vm_compute; reflexivity. }
  split; [|split; [|split]].
  - intros now message s Hs Hi Hm. unfold process_message. cbv zeta.
    rewrite (Hcancel _ Hm). decide_state Hs. cbn [andb].
    rewrite Hm. unfold has_items, current_rows in *. session_cbn. rewrite Hi.
    eexists. reflexivity.
  - intros now message s Hs Hw Hm. unfold process_message. cbv zeta.
    rewrite (Hcancel _ Hm). decide_state Hs. rewrite Hw. cbn [andb].
    apply mem_two in Hm as [-> | ->];
      (change (str_eqb _ (py "1")) with false; change (str_eqb _ (py "2")) with false;
       cbv iota; eexists; reflexivity).
  - intros now message s Hs Hm. unfold process_message. cbv zeta.
    rewrite (Hcancel _ Hm). decide_state Hs.
    eexists _, _. split; reflexivity.
  - intros now message s. apply process_message_effect.
Qed.

Lemma confirmation_without_items_witness :
  state session_without_items = collecting /\
  has_items session_without_items = false /\
  mem (strip (lower (py "Pronto"))) [py "pronto"; py "confirmar"] = true /\
  exists text,
    process_message 9 (py "Pronto") session_without_items =
    (set_last_activity 9 session_without_items, Ok (Reply false (Some text))).
Proof.
  split; [reflexivity|]. split; [reflexivity|]. split; [reflexivity|].
  exact (proj1 confirmation_without_items 9 (py "Pronto") session_without_items
           eq_refl eq_refl eq_refl).
Defined.

(** *** Reminders *)






Lemma dict_set_values {V} (P : V -> Prop) (d : dict V) k v :
  Forall (fun kv => P kv.2) d -> P v -> Forall (fun kv => P kv.2) (dict_set d k v).
Proof.
  induction d as [|[k' v'] d IH]; intros Hd Hv; simpl.
  - constructor; [exact Hv|constructor].
  - apply Forall_cons in Hd as [Hk Hd]. destruct (str_eqb k k').
    + constructor; [exact Hv|exact Hd].
    + constructor; [exact Hk|]. apply IH; assumption.
Qed.






Lemma auto_group_not_main (t : str) : py "auto_" ++ t <> main_group.
Proof.
  intros H. apply (f_equal head) in H. vm_compute in H. discriminate H.
Qed.




(** The inactivity timer brings a session that is collecting items to
    the state from which the reminders start. *)
Lemma fire_summary now rnd s :
  state s = collecting -> has_items s = true ->
  active_timer s = Some (Timer cb_send_summary true) ->
  exists s',
    fire now rnd s = Some s' /\
    state s' = confirming /\ reminder_count s' = 1 /\
    has_items s' = true /\
    active_timer s' = Some (Timer cb_send_reminder true) /\
    same_order s s'.
Proof.
  intros Hs Hi Ht. unfold fire. rewrite Ht. unfold _send_summary.
  unfold has_items, current_rows in *. decide_state Hs. rewrite Hi. cbn [andb].
  eexists. split; [reflexivity|]. session_cbn.
  split; [reflexivity|]. split; [reflexivity|]. split; [exact Hi|].
  split; [reflexivity|]. repeat split.
Qed.

(** * Further properties *)

(** ** The edit distance as a metric *)

Lemma ed_nil_r a : ed a [] = Z.of_nat (length a).
Proof. destruct a; reflexivity. Qed.

Lemma ed_cons_cons x a y b :
  ed (x :: a) (y :: b) =
  Z.min (Z.min (ed a (y :: b) + 1) (ed (x :: a) b + 1))
        (ed a b + (if bool_decide (x = y) then 0 else 1)).
Proof. reflexivity. Qed.

Lemma lev_ed a b : forall i j,
  (i <= length a)%nat -> (j <= length b)%nat ->
  lev a b i j = ed (rev (take i a)) (rev (take j b)).
Proof.
  induction i as [|i IHi]; intros j Hi Hj.
  - simpl. rewrite length_rev, length_take. lia.
  - destruct (lookup_lt_is_Some_2 a i ltac:(lia)) as [x Hx].
    assert (rev (take (S i) a) = x :: rev (take i a)) as Ea.
    { rewrite (take_S_r _ _ _ Hx), rev_app_distr. reflexivity. }
    induction j as [|j IHj].
    + rewrite lev_0_r. rewrite take_0. simpl rev at 2. rewrite ed_nil_r.
      rewrite length_rev, length_take. lia.
    + destruct (lookup_lt_is_Some_2 b j ltac:(lia)) as [y Hy].
      assert (rev (take (S j) b) = y :: rev (take j b)) as Eb.
      { rewrite (take_S_r _ _ _ Hy), rev_app_distr. reflexivity. }
      rewrite lev_S, IHj by lia. rewrite !IHi by lia.
      rewrite Ea, Eb, ed_cons_cons. rewrite <- Eb.
      unfold edit_cost.
      change (char_at a i = Some x) in Hx. change (char_at b j = Some y) in Hy.
      rewrite Hx, Hy.
      destruct (decide (x = y)) as [->|Hne].
      * rewrite !bool_decide_eq_true_2 by reflexivity. reflexivity.
      * rewrite !bool_decide_eq_false_2 by congruence. reflexivity.
Qed.

Lemma levenshtein_distance_ed a b :
  levenshtein_distance a b = ed (rev a) (rev b).
Proof.
  rewrite levenshtein_distance_lev, lev_ed by lia.
  rewrite !firstn_all. reflexivity.
Qed.

Lemma ed_bounds : forall a b,
  Z.abs (Z.of_nat (length a) - Z.of_nat (length b)) <= ed a b
  /\ ed a b <= Z.max (Z.of_nat (length a)) (Z.of_nat (length b)).
Proof.
  induction a as [|x a IHa]; intros b.
  - simpl. lia.
  - induction b as [|y b IHb].
    + simpl ed. simpl length. lia.
    + rewrite ed_cons_cons.
      pose proof (IHa (y :: b)). pose proof (IHa b).
      simpl length in *. destruct (bool_decide (x = y)); lia.
Qed.

Lemma ed_zero : forall a b, ed a b = 0 -> a = b.
Proof.
  induction a as [|x a IHa]; intros b.
  - simpl. destruct b; [reflexivity|simpl; lia].
  - induction b as [|y b IHb].
    + simpl. lia.
    + rewrite ed_cons_cons. intros H.
      pose proof (ed_bounds a (y :: b)). pose proof (ed_bounds (x :: a) b).
      pose proof (ed_bounds a b).
      destruct (bool_decide_reflect (x = y)) as [->|Hne].
      * f_equal. apply IHa. lia.
      * lia.
Qed.

Lemma ed_refl : forall a, ed a a = 0.
Proof.
  induction a as [|x a IH]; [reflexivity|].
  rewrite ed_cons_cons. rewrite bool_decide_eq_true_2 by reflexivity.
  pose proof (ed_bounds a (x :: a)). pose proof (ed_bounds (x :: a) a). lia.
Qed.

Lemma ed_triangle n : forall a b c,
  (length a + length b + length c <= n)%nat ->
  ed a c <= ed a b + ed b c.
Proof.
  induction n as [|n IH]; intros a b c Hn.
  - destruct a, b, c; simpl in Hn; try lia. simpl. lia.
  - destruct a as [|x a].
    { pose proof (ed_bounds b c).
      change (ed [] c) with (Z.of_nat (length c)).
      change (ed [] b) with (Z.of_nat (length b)). lia. }
    destruct c as [|z c].
    { pose proof (ed_bounds (x :: a) b). rewrite !ed_nil_r. lia. }
    destruct b as [|y b].
    { pose proof (ed_bounds (x :: a) (z :: c)). rewrite ed_nil_r.
      change (ed [] (z :: c)) with (Z.of_nat (length (z :: c))). lia. }
    simpl in Hn.
    pose proof (IH a (y :: b) (z :: c) ltac:(simpl; lia)) as I1.
    pose proof (IH (x :: a) (y :: b) c ltac:(simpl; lia)) as I2.
    pose proof (IH (x :: a) b (z :: c) ltac:(simpl; lia)) as I3.
    pose proof (IH (x :: a) b c ltac:(simpl; lia)) as I4.
    pose proof (IH a b (z :: c) ltac:(simpl; lia)) as I5.
    pose proof (IH a b c ltac:(simpl; lia)) as I6.
    pose proof (ed_cons_cons x a y b) as Eab.
    pose proof (ed_cons_cons y b z c) as Ebc.
    pose proof (ed_cons_cons x a z c) as Eac.
    assert ((if bool_decide (x = z) then 0 else 1) <=
            (if bool_decide (x = y) then 0 else 1)
            + (if bool_decide (y = z) then 0 else 1)) as Hc.
    { destruct (bool_decide_reflect (x = z)), (bool_decide_reflect (x = y)),
        (bool_decide_reflect (y = z)); first [lia|congruence]. }
    assert (0 <= (if bool_decide (x = y) then 0 else 1))
      by (destruct (bool_decide (x = y)); lia).
    assert (0 <= (if bool_decide (y = z) then 0 else 1))
      by (destruct (bool_decide (y = z)); lia).
    lia.
Qed.

(** X1. [levenshtein_distance] is a metric on strings: it is zero exactly
    on equal strings, symmetric, and satisfies the triangle inequality. *)
Theorem levenshtein_distance_metric (a b c : str) :
  (levenshtein_distance a b = 0 <-> a = b) /\
  levenshtein_distance a b = levenshtein_distance b a /\
  levenshtein_distance a c <= levenshtein_distance a b + levenshtein_distance b c.
Proof.
  split; [|split].
  - split.
    + rewrite levenshtein_distance_ed. intros H. apply ed_zero in H.
      apply (f_equal (@rev N)) in H. rewrite !rev_involutive in H. exact H.
    + intros ->. apply levenshtein_distance_refl.
  - apply levenshtein_distance_sym.
  - rewrite !levenshtein_distance_ed. eapply ed_triangle. reflexivity.
Qed.

(** X2. [levenshtein_distance] lies between the difference of the two
    lengths and the greater of them, so that it is the length of the
    other string when one is empty and [distance / max_len] is a
    fraction between 0 and 1. *)
Theorem levenshtein_distance_bounds (a b : str) :
  Z.abs (Z.of_nat (length a) - Z.of_nat (length b)) <= levenshtein_distance a b /\
  levenshtein_distance a b <= Z.max (Z.of_nat (length a)) (Z.of_nat (length b)) /\
  levenshtein_distance [] b = Z.of_nat (length b) /\
  levenshtein_distance a [] = Z.of_nat (length a).
Proof.
  rewrite !levenshtein_distance_ed.
  pose proof (ed_bounds (rev a) (rev b)) as H. rewrite !length_rev in H.
  split; [apply H|]. split; [apply H|]. split.
  - simpl. rewrite length_rev. reflexivity.
  - simpl rev at 2. rewrite ed_nil_r, length_rev. reflexivity.
Qed.

(** ** Normalizing twice *)

Lemma lstrip_idem s : lstrip (lstrip s) = lstrip s.
Proof.
  induction s as [|c s IH]; [reflexivity|]. simpl.
  destruct (isspace c) eqn:E; [exact IH|]. simpl. rewrite E. reflexivity.
Qed.

Lemma lstrip_head s c r : lstrip s = c :: r -> isspace c = false.
Proof.
  induction s as [|x s IH]; simpl; [discriminate|].
  destruct (isspace x) eqn:E; [exact IH|]. intros [= -> _]. exact E.
Qed.

Lemma lstrip_app_nonspace l c r :
  isspace c = false -> lstrip (l ++ c :: r) = lstrip l ++ c :: r.
Proof.
  intros Hc. induction l as [|x l IH]; simpl.
  - rewrite Hc. reflexivity.
  - destruct (isspace x); [exact IH|reflexivity].
Qed.

Lemma rstrip_cons_nonspace c r :
  isspace c = false -> rstrip (c :: r) = c :: rstrip r.
Proof.
  intros Hc. unfold rstrip. simpl rev at 2.
  rewrite (lstrip_app_nonspace (rev r) c [] Hc), rev_app_distr. reflexivity.
Qed.

Lemma rstrip_idem s : rstrip (rstrip s) = rstrip s.
Proof. unfold rstrip. rewrite rev_involutive, lstrip_idem. reflexivity. Qed.

Lemma strip_idem s : strip (strip s) = strip s.
Proof.
  unfold strip. destruct (lstrip s) as [|c r] eqn:E; [reflexivity|].
  pose proof (lstrip_head _ _ _ E) as Hc.
  rewrite (rstrip_cons_nonspace c r Hc). simpl lstrip. rewrite Hc.
  rewrite (rstrip_cons_nonspace c _ Hc), rstrip_idem. reflexivity.
Qed.

Lemma lstrip_Forall (P : N -> Prop) s : Forall P s -> Forall P (lstrip s).
Proof.
  induction 1 as [|c s Hc Hs IH]; simpl; [constructor|].
  destruct (isspace c); [exact IH|constructor; assumption].
Qed.

Lemma strip_Forall (P : N -> Prop) s : Forall P s -> Forall P (strip s).
Proof.
  intros H. unfold strip, rstrip.
  apply Forall_rev, lstrip_Forall, Forall_rev, lstrip_Forall. exact H.
Qed.

(** Every character [normalize] produces is left as it is by a second
    pass. *)
Lemma normalized_char_fixed c :
  latin1_or_mark c ->
  Forall (fun c' => strip_marks_char (lower_char c') = [c'])
         (strip_marks_char (lower_char c)).
Proof.
  intros [Hc|Hc].
  - assert (Forall (fun c => Forall (fun c' => strip_marks_char (lower_char c') = [c'])
                                    (strip_marks_char (lower_char c)))
                   (map N.of_nat (seq 0 256))) as Hall.
    { apply (bool_decide_unpack _). vm_compute. exact I. }
    rewrite Forall_forall in Hall. apply Hall.
    apply list_elem_of_fmap. exists (N.to_nat c). split; [lia|].
    apply list_elem_of_In, in_seq. lia.
  - assert (lower_char c = c) as ->.
    { unfold lower_char, in_range.
      destruct (N.leb_spec 65 c), (N.leb_spec c 90), (N.leb_spec 192 c),
        (N.leb_spec c 222); simpl; try reflexivity; lia. }
    unfold strip_marks_char at 2. unfold in_range at 1.
    destruct (N.leb_spec 768 c), (N.leb_spec c 879); try lia. constructor.
Qed.

Lemma strip_marks_fixed s :
  Forall (fun c' => strip_marks_char (lower_char c') = [c']) s ->
  concat (map strip_marks_char (lower s)) = s.
Proof.
  induction 1 as [|c s Hc Hs IH]; [reflexivity|].
  simpl. rewrite Hc, IH. reflexivity.
Qed.

Lemma normalize_idem text :
  Forall latin1_or_mark text -> normalize (normalize text) = normalize text.
Proof.
  intros H. unfold normalize at 1.
  rewrite strip_marks_fixed.
  - unfold normalize. apply strip_idem.
  - unfold normalize. apply strip_Forall.
    induction H as [|c s Hc Hs IH]; [constructor|].
    simpl. apply Forall_app. split; [|exact IH].
    apply normalized_char_fixed. exact Hc.
Qed.

(** X3. On text of Latin-1 characters and combining marks, [normalize]
    is idempotent, so [similarity_percentage] gives the same score on
    normalized strings as on the raw ones: normalizing before the call,
    as [parse_order_interactive] does, changes nothing. *)
Theorem normalize_idempotent (a b : str) :
  Forall latin1_or_mark a -> Forall latin1_or_mark b ->
  normalize (normalize a) = normalize a /\
  similarity_percentage (normalize a) (normalize b) = similarity_percentage a b.
Proof.
  intros Ha Hb. split; [apply normalize_idem; exact Ha|].
  unfold similarity_percentage. rewrite !normalize_idem by assumption.
  reflexivity.
Qed.

Lemma normalize_idempotent_witness :
  normalize (normalize (py "  Limões ")) = normalize (py "  Limões ") /\
  similarity_percentage (normalize (py "  Limões ")) (normalize (py "LIMÃO"))
    = similarity_percentage (py "  Limões ") (py "LIMÃO").
Proof.
  apply normalize_idempotent.
  - unfold latin1_or_mark. apply (bool_decide_unpack _). vm_compute. exact I.
  - unfold latin1_or_mark. apply (bool_decide_unpack _). vm_compute. exact I.
Defined.

(** ** The number words and the numbers of a message, again *)

Lemma dict_get_elem_of {V} (d : dict V) k v : dict_get d k = Some v -> (k, v) ∈ d.
Proof.
  induction d as [|[k' v'] d IH]; simpl; [discriminate|].
  unfold str_eqb. destruct (bool_decide_reflect (k = k')) as [->|Hk].
  - intros [= ->]. left.
  - intros H. right. auto.
Qed.

Lemma dict_get_None {V} (d : dict V) k : dict_get d k = None -> k ∉ keys d.
Proof.
  induction d as [|[k' v'] d IH]; simpl; [intros _; apply not_elem_of_nil|].
  unfold str_eqb. destruct (bool_decide_reflect (k = k')) as [->|Hk]; [discriminate|].
  intros H. apply not_elem_of_cons. split; [exact Hk|auto].
Qed.

Lemma dict_get_NoDup {V} (d : dict V) k v :
  NoDup (keys d) -> (k, v) ∈ d -> dict_get d k = Some v.
Proof.
  induction d as [|[k' v'] d IH]; simpl; intros Hnd Hin.
  - apply elem_of_nil in Hin. destruct Hin.
  - apply NoDup_cons in Hnd as [Hk' Hnd].
    unfold str_eqb. destruct (bool_decide_reflect (k = k')) as [->|Hk].
    + apply elem_of_cons in Hin as [[= ->]|Hin]; [reflexivity|].
      exfalso. apply Hk'. unfold keys. apply list_elem_of_fmap. exists (k', v). auto.
    + apply elem_of_cons in Hin as [[= -> ->]|Hin]; [congruence|]. auto.
Qed.

Lemma word2num_all_NoDup : NoDup (keys word2num_all).
Proof. apply (bool_decide_unpack _). vm_compute. exact I. Qed.

Lemma lexicon_included :
  Forall (fun kv => kv ∈ word2num_all) (hundreds ++ tens ++ teens ++ units).
Proof. apply (bool_decide_unpack _). vm_compute. exact I. Qed.

Lemma lexicon_covers :
  Forall (fun k => k ∈ keys hundreds ++ keys tens ++ keys teens ++ keys units)
         (keys word2num_all).
Proof. apply (bool_decide_unpack _). vm_compute. exact I. Qed.

Lemma word_value_of (d : dict Z) t v :
  (forall kv, kv ∈ d -> kv ∈ word2num_all) ->
  dict_get d t = Some v -> word_value t = v.
Proof.
  intros Hd H. unfold word_value.
  rewrite (dict_get_NoDup word2num_all t v word2num_all_NoDup); [reflexivity|].
  apply Hd. apply dict_get_elem_of. exact H.
Qed.

Lemma hundreds_value t v : dict_get hundreds t = Some v -> word_value t = v.
Proof.
  apply word_value_of. intros kv Hkv.
  pose proof lexicon_included as H. rewrite Forall_forall in H. apply H.
  rewrite !elem_of_app in *. tauto.
Qed.

Lemma tens_value t v : dict_get tens t = Some v -> word_value t = v.
Proof.
  apply word_value_of. intros kv Hkv.
  pose proof lexicon_included as H. rewrite Forall_forall in H. apply H.
  rewrite !elem_of_app in *. tauto.
Qed.

Lemma teens_value t v : dict_get teens t = Some v -> word_value t = v.
Proof.
  apply word_value_of. intros kv Hkv.
  pose proof lexicon_included as H. rewrite Forall_forall in H. apply H.
  rewrite !elem_of_app in *. tauto.
Qed.

Lemma units_value t v : dict_get units t = Some v -> word_value t = v.
Proof.
  apply word_value_of. intros kv Hkv.
  pose proof lexicon_included as H. rewrite Forall_forall in H. apply H.
  rewrite !elem_of_app in *. tauto.
Qed.

Lemma no_value t :
  dict_get hundreds t = None -> dict_get tens t = None ->
  dict_get teens t = None -> dict_get units t = None -> word_value t = 0.
Proof.
  intros H1 H2 H3 H4. unfold word_value.
  destruct (dict_get word2num_all t) as [v|] eqn:H; [|reflexivity].
  exfalso. apply dict_get_elem_of in H.
  assert (t ∈ keys word2num_all) as Ht.
  { unfold keys. apply list_elem_of_fmap. exists (t, v). auto. }
  pose proof lexicon_covers as Hc. rewrite Forall_forall in Hc. apply Hc in Ht.
  apply dict_get_None in H1, H2, H3, H4.
  rewrite !elem_of_app in Ht. tauto.
Qed.

Lemma parse_number_words_loop_sum n : forall tokens total,
  (length tokens <= n)%nat ->
  parse_number_words_loop tokens total = total + sum_values tokens.
Proof.
  induction n as [|n IH]; intros tokens total Hlen.
  - destruct tokens; [simpl; lia|simpl in Hlen; lia].
  - destruct tokens as [|t rest]; [simpl; lia|].
    simpl in Hlen. cbn [parse_number_words_loop sum_values foldr].
    fold (sum_values rest).
    destruct (dict_get hundreds t) as [hv|] eqn:H1.
    { rewrite IH by lia. rewrite (hundreds_value _ _ H1). lia. }
    destruct (dict_get tens t) as [val|] eqn:H2.
    { rewrite (tens_value _ _ H2).
      destruct rest as [|u rest']; [rewrite IH by (simpl; lia); simpl; lia|].
      destruct (dict_get units u) as [v|] eqn:Hu.
      - rewrite IH by (simpl in *; lia). cbn [sum_values foldr].
        rewrite (units_value _ _ Hu). fold (sum_values rest'). lia.
      - rewrite IH by (simpl in *; lia). lia. }
    destruct (dict_get teens t) as [v|] eqn:H3.
    { rewrite IH by lia. rewrite (teens_value _ _ H3). lia. }
    destruct (dict_get units t) as [v|] eqn:H4.
    { rewrite IH by lia. rewrite (units_value _ _ H4). lia. }
    rewrite IH by lia. rewrite (no_value _ H1 H2 H3 H4). lia.
Qed.

Lemma sum_values_Permutation ts ts' : ts ≡ₚ ts' -> sum_values ts = sum_values ts'.
Proof.
  unfold sum_values. induction 1; simpl; lia.
Qed.

Lemma parse_number_words_eq ts :
  parse_number_words ts =
    if 0 <? sum_values ts then Some (sum_values ts) else None.
Proof.
  unfold parse_number_words.
  rewrite (parse_number_words_loop_sum (length ts)) by lia.
  rewrite Z.add_0_l. reflexivity.
Qed.

(** X4. [parse_number_words] adds up the values the lexicon gives to the
    tokens and returns [None] when the sum is zero.  It checks no grammar
    (the order of the tokens does not matter) and has no upper bound. *)
Theorem parse_number_words_sum tokens :
  parse_number_words tokens =
    (if 0 <? sum_values tokens then Some (sum_values tokens) else None) /\
  (forall tokens', tokens ≡ₚ tokens' ->
     parse_number_words tokens' = parse_number_words tokens) /\
  (forall n : nat,
     parse_number_words (replicate (S n) (py "novecentos"))
       = Some (900 * (Z.of_nat n + 1))).
Proof.
  pose proof parse_number_words_eq as E.
  split; [apply E|]. split.
  - intros tokens' Hp. rewrite !E. rewrite (sum_values_Permutation _ _ Hp). reflexivity.
  - intros n. rewrite E.
    assert (sum_values (replicate (S n) (py "novecentos")) = 900 * (Z.of_nat n + 1)) as ->.
    { induction n as [|n IH]; [vm_compute; reflexivity|].
      change (replicate (S (S n)) (py "novecentos"))
        with (py "novecentos" :: replicate (S n) (py "novecentos")).
      cbn [sum_values foldr]. fold (sum_values (replicate (S n) (py "novecentos"))).
      rewrite IH. change (word_value (py "novecentos")) with 900. lia. }
    destruct (0 <? 900 * (Z.of_nat n + 1)) eqn:Hs; [reflexivity|].
    apply Z.ltb_ge in Hs. lia.
Qed.

(** ** Extraction of the numbers *)

Lemma dict_in_keys {V} (d : dict V) k : dict_in k d = true -> k ∈ keys d.
Proof.
  unfold dict_in. destruct (dict_get d k) as [v|] eqn:H; [|discriminate].
  intros _. apply dict_get_elem_of in H. unfold keys.
  apply list_elem_of_fmap. exists (k, v). auto.
Qed.

Lemma number_words_not_bad :
  Forall (fun k => bad_digit_token k = false) (keys word2num_all).
Proof. apply (bool_decide_unpack _). vm_compute. exact I. Qed.

Lemma number_word_not_bad t :
  dict_in t word2num_all = true -> bad_digit_token t = false.
Proof.
  intros H. apply dict_in_keys in H.
  pose proof number_words_not_bad as Hn. rewrite Forall_forall in Hn. auto.
Qed.

Lemma word_values_nonneg : Forall (fun kv : str * Z => 0 <= kv.2) word2num_all.
Proof. apply (bool_decide_unpack _). vm_compute. exact I. Qed.

Lemma word_value_nonneg t : 0 <= word_value t.
Proof.
  unfold word_value. destruct (dict_get word2num_all t) as [v|] eqn:H; [|simpl; lia].
  apply dict_get_elem_of in H.
  pose proof word_values_nonneg as Hn. rewrite Forall_forall in Hn.
  apply (Hn (t, v)). exact H.
Qed.

Lemma sum_values_nonneg ts : 0 <= sum_values ts.
Proof.
  unfold sum_values. induction ts as [|t ts IH]; simpl; [lia|].
  pose proof (word_value_nonneg t). lia.
Qed.

Lemma number_run_spec : forall rest run k,
  number_run rest = (run, k) ->
  run = take k rest /\ (k <= length rest)%nat /\
  Forall (fun t => bad_digit_token t = false) run.
Proof.
  fix IH 1. intros rest run k H.
  destruct rest as [|t1 [|t2 rest']]; simpl in H.
  - injection H as <- <-. repeat split; [simpl; lia|constructor].
  - injection H as <- <-. repeat split; [simpl; lia|constructor].
  - destruct (str_eqb t1 e_token && dict_in t2 word2num_all) eqn:Hc.
    + destruct (number_run rest') as [run' k'] eqn:Hr.
      injection H as <- <-. destruct (IH _ _ _ Hr) as (E & L & F).
      apply andb_true_iff in Hc as [H1 H2].
      unfold str_eqb in H1. apply bool_decide_eq_true in H1. subst t1.
      split; [simpl; congruence|]. split; [simpl; lia|].
      constructor; [reflexivity|]. constructor; [|exact F].
      apply number_word_not_bad. exact H2.
    + injection H as <- <-. repeat split; [simpl; lia|constructor].
Qed.

Lemma isdigit_int_of_str t :
  isdigit t = true ->
  (exists n, int_of_str t = Ok n /\ bad_digit_token t = false) \/
  (int_of_str t = Raise ValueError /\ bad_digit_token t = true).
Proof.
  intros Hd. unfold bad_digit_token. rewrite Hd.
  destruct (int_of_str t) as [n|[]]; cbn [andb].
  - left. exists n. split; reflexivity.
  - right. split; reflexivity.
Qed.

Lemma bad_digit_token_cases t :
  bad_digit_token t =
  isdigit t && (existsb superscript_digit t || (max_str_digits <? length t)%nat).
Proof.
  unfold bad_digit_token, int_of_str.
  destruct (isdigit t) eqn:Hd; [|reflexivity]. cbn [andb].
  assert (forallb isdecimal t = negb (existsb superscript_digit t)) as ->.
  { unfold isdigit in Hd. destruct t as [|c0 t0]; [discriminate|].
    revert Hd. generalize (c0 :: t0). clear. intros t.
    induction t as [|c t IH]; [reflexivity|]. cbn [forallb existsb].
    intros H. apply andb_true_iff in H as [Hc H]. rewrite (IH H).
    unfold isdigit_char in Hc.
    destruct (isdecimal c) eqn:Hdec.
    - assert (superscript_digit c = false) as ->; [|reflexivity].
      unfold isdecimal, in_range in Hdec. unfold superscript_digit.
      apply andb_true_iff in Hdec as [H1 H2]. apply N.leb_le in H1, H2.
      apply orb_false_iff. split; [apply orb_false_iff; split|];
        apply N.eqb_neq; lia.
    - cbn [orb] in Hc. unfold superscript_digit. rewrite Hc. reflexivity. }
  assert (negb (bool_decide (t = [])) = true) as ->.
  { destruct t; [discriminate|reflexivity]. }
  rewrite andb_true_r.
  destruct (existsb superscript_digit t); cbn [negb andb orb]; [reflexivity|].
  destruct (Nat.leb_spec (length t) max_str_digits) as [H|H].
  - symmetry. apply Nat.ltb_ge. exact H.
  - symmetry. apply Nat.ltb_lt. exact H.
Qed.

Lemma not_digit_not_bad t : isdigit t = false -> bad_digit_token t = false.
Proof. intros H. unfold bad_digit_token. rewrite H. reflexivity. Qed.

Lemma Exists_drop_notbad (P : str -> bool) k (l : list str) :
  Forall (fun t => P t = false) (take k l) ->
  Exists (fun t => P t = true) l <-> Exists (fun t => P t = true) (drop k l).
Proof.
  intros HF. rewrite <- (take_drop k l) at 1. rewrite Exists_app.
  split; [|auto]. intros [H|H]; [|exact H].
  exfalso. apply Exists_exists in H as (t & Ht & HP).
  rewrite Forall_forall in HF.
  rewrite (HF t Ht) in HP. discriminate.
Qed.

Lemma extract_from_raises : forall rest i skip,
  Forall (fun t => bad_digit_token t = false) (take skip rest) ->
  extract_from i skip rest = Raise ValueError <->
  Exists (fun t => bad_digit_token t = true) (drop skip rest).
Proof.
  induction rest as [|t rest IH]; intros i skip HF.
  - simpl. rewrite drop_nil. split; [discriminate|]. intros H. inversion H.
  - destruct skip as [|k].
    + rewrite drop_0. cbn [extract_from].
      destruct (isdigit t) eqn:Hd.
      * destruct (isdigit_int_of_str t Hd) as [(n & -> & Hb)|(-> & Hb)].
        -- cbn [bind]. rewrite Exists_cons, Hb.
           specialize (IH (S i) 0%nat (Forall_nil_2 _)). rewrite drop_0 in IH.
           rewrite <- IH.
           destruct (extract_from (S i) 0 rest) as [tl|[]]; simpl;
             split; try discriminate; try tauto.
           intros [?|?]; discriminate.
        -- cbn [bind]. split; [intros _; left; exact Hb|reflexivity].
      * pose proof (not_digit_not_bad t Hd) as Hb.
        rewrite Exists_cons, Hb.
        pose proof (IH (S i) 0%nat (Forall_nil_2 _)) as IH0. rewrite drop_0 in IH0.
        destruct (dict_in t word2num_all).
        -- destruct (number_run rest) as [run k] eqn:Hr.
           destruct (number_run_spec _ _ _ Hr) as (E & L & F).
           destruct (parse_number_words _).
           ++ rewrite E in F. specialize (IH (S i) k F).
              rewrite (Exists_drop_notbad bad_digit_token k rest F).
              rewrite <- IH.
              destruct (extract_from (S i) k rest) as [tl|[]]; simpl;
                split; try discriminate; try tauto.
              intros [?|?]; discriminate.
           ++ rewrite IH0. split; [tauto|]. intros [?|?]; [discriminate|assumption].
        -- rewrite IH0. split; [tauto|]. intros [?|?]; [discriminate|assumption].
    + cbn [extract_from]. rewrite skipn_cons. apply IH.
      simpl in HF. inversion HF; assumption.
Qed.

(** X5. On tokens of Latin-1 characters (and combining marks),
    [extract_numbers_and_positions] raises [ValueError] exactly when
    some token is accepted by [str.isdigit] and rejected by [int]: a
    token of digits with a superscript digit among them, or with more
    than 4300 digits.  In every other case it returns. *)
Theorem extract_numbers_and_positions_raises tokens :
  Forall (Forall latin1_or_mark) tokens ->
  (extract_numbers_and_positions tokens = Raise ValueError <->
   Exists (fun t => bad_digit_token t = true) tokens) /\
  (forall r, extract_numbers_and_positions tokens = r ->
             r = Raise ValueError \/ exists numbers, r = Ok numbers) /\
  (forall t, t ∈ tokens ->
     bad_digit_token t =
     isdigit t && (existsb superscript_digit t
                   || (max_str_digits <? length t)%nat)).
Proof.
  intros _. split; [|split].
  - unfold extract_numbers_and_positions.
    rewrite (extract_from_raises tokens 0 0 (Forall_nil_2 _)). rewrite drop_0.
    reflexivity.
  - intros r <-. destruct (extract_numbers_and_positions tokens) as [numbers|[]].
    + right. exists numbers. reflexivity.
    + left. reflexivity.
  - intros t _. apply bad_digit_token_cases.
Qed.

Lemma extract_numbers_and_positions_raises_witness :
  Forall (Forall latin1_or_mark) [py "2"; py "mangas"; py "²"] /\
  (extract_numbers_and_positions [py "2"; py "mangas"; py "²"]
     = Raise ValueError <->
   Exists (fun t => bad_digit_token t = true) [py "2"; py "mangas"; py "²"]) /\
  (forall r, extract_numbers_and_positions [py "2"; py "mangas"; py "²"] = r ->
             r = Raise ValueError \/ exists numbers, r = Ok numbers) /\
  (forall t, t ∈ [py "2"; py "mangas"; py "²"] ->
     bad_digit_token t =
     isdigit t && (existsb superscript_digit t
                   || (max_str_digits <? length t)%nat)).
Proof.
  assert (Forall (Forall latin1_or_mark) [py "2"; py "mangas"; py "²"]) as H.
  { unfold latin1_or_mark. apply (bool_decide_unpack _). vm_compute. exact I. }
  split; [exact H|].
  exact (extract_numbers_and_positions_raises [py "2"; py "mangas"; py "²"] H).
Defined.

Lemma extract_from_tokens : forall rest i skip numbers,
  extract_from i skip rest = Ok numbers ->
  Forall (fun x : nat * Z =>
    exists t, rest !! (x.1 - i)%nat = Some t /\
      if isdigit t then int_of_str t = Ok x.2
      else dict_in t word2num_all = true /\ 0 < x.2 /\ word_value t <= x.2)
    numbers.
Proof.
  induction rest as [|t rest IH]; intros i skip numbers H.
  - simpl in H. injection H as <-. constructor.
  - assert (forall k tl, extract_from (S i) k rest = Ok tl ->
              Forall (fun x : nat * Z =>
                exists t0, (t :: rest) !! (x.1 - i)%nat = Some t0 /\
                  if isdigit t0 then int_of_str t0 = Ok x.2
                  else dict_in t0 word2num_all = true /\ 0 < x.2
                       /\ word_value t0 <= x.2) tl) as Htl.
    { intros k tl Hk. pose proof (IH _ _ _ Hk) as HF.
      apply extract_from_spec in Hk as [Hb _].
      rewrite Forall_forall in HF, Hb. apply Forall_forall. intros x Hx.
      destruct (HF x Hx) as (t0 & Ht0 & Hv). destruct (Hb x Hx) as [Hle _].
      exists t0. split; [|exact Hv].
      replace (x.1 - i)%nat with (S (x.1 - S i)) by lia. exact Ht0. }
    simpl in H. destruct skip as [|k]; [|exact (Htl _ _ H)].
    destruct (isdigit t) eqn:Hd.
    + destruct (int_of_str t) as [n|] eqn:Hn; [|discriminate]. simpl in H.
      destruct (extract_from (S i) 0 rest) as [tl|] eqn:Ht; [|discriminate].
      simpl in H. injection H as <-. constructor; [|exact (Htl _ _ Ht)].
      exists t. simpl. rewrite Nat.sub_diag. split; [reflexivity|].
      rewrite Hd. exact Hn.
    + destruct (dict_in t word2num_all) eqn:Hw;
        [|exact (Htl _ _ H)].
      destruct (number_run rest) as [run k] eqn:Hr.
      destruct (parse_number_words _) as [number|] eqn:Hp;
        [|exact (Htl _ _ H)].
      destruct (extract_from (S i) k rest) as [tl|] eqn:Ht; [|discriminate].
      simpl in H. injection H as <-. constructor; [|exact (Htl _ _ Ht)].
      exists t. simpl. rewrite Nat.sub_diag. split; [reflexivity|].
      rewrite Hd. split; [exact Hw|].
      rewrite parse_number_words_eq in Hp.
      destruct (0 <? sum_values _) eqn:Hs; [|discriminate].
      injection Hp as <-. apply Z.ltb_lt in Hs. split; [exact Hs|].
      rewrite filter_cons.
      destruct (decide (negb (str_eqb t e_token))) as [Hne|Hne].
      * cbn [sum_values foldr].
        pose proof (sum_values_nonneg
                      (filter (fun t0 => negb (str_eqb t0 e_token)) run)) as Hnn.
        unfold sum_values in Hnn. lia.
      * apply negb_prop_classical in Hne. unfold str_eqb in Hne.
        apply bool_decide_unpack in Hne. subst t. vm_compute in Hw. discriminate.
Qed.

(** X6. The numbers [extract_numbers_and_positions] returns are in the
    order of their positions, without repetition; every position is the
    index of a token, which is either a string of digits, with its
    decimal value, or a number word, with a positive value not smaller
    than the word's own. *)
Theorem extract_numbers_and_positions_sound tokens numbers :
  extract_numbers_and_positions tokens = Ok numbers ->
  StronglySorted (fun x y : nat * Z => (x.1 < y.1)%nat) numbers /\
  Forall (fun x : nat * Z =>
    exists t, tokens !! x.1 = Some t /\
      if isdigit t then int_of_str t = Ok x.2
      else dict_in t word2num_all = true /\ 0 < x.2 /\ word_value t <= x.2)
    numbers.
Proof.
  intros H. split; [apply (extract_from_spec _ _ _ _ H)|].
  apply extract_from_tokens in H.
  eapply Forall_impl; [exact H|]. cbv beta. intros x (t & Ht & Hv).
  exists t. rewrite Nat.sub_0_r in Ht. auto.
Qed.

Lemma extract_numbers_and_positions_sound_witness :
  let numbers := [(0%nat, 2); (2%nat, 25)] in
  StronglySorted (fun x y : nat * Z => (x.1 < y.1)%nat) numbers /\
  Forall (fun x : nat * Z =>
    exists t, map py ["2"; "mangas"; "vinte"; "e"; "cinco"; "ovos"]%string !! x.1
                = Some t /\
      if isdigit t then int_of_str t = Ok x.2
      else dict_in t word2num_all = true /\ 0 < x.2 /\ word_value t <= x.2)
    numbers.
Proof.
  apply (extract_numbers_and_positions_sound
           (map py ["2"; "mangas"; "vinte"; "e"; "cinco"; "ovos"]%string)).
  vm_compute. reflexivity.
Defined.

(** ** The number of a product *)

Lemma max_by_pos_ge l : forall best y,
  y ∈ best :: l -> (y.1 <= (max_by_pos best l).1)%nat.
Proof.
  induction l as [|x l IH]; intros best y Hy; simpl.
  - apply list_elem_of_singleton in Hy. subst. lia.
  - set (b := if (best.1 <? x.1)%nat then x else best).
    assert ((best.1 <= b.1)%nat /\ (x.1 <= b.1)%nat) as [Hb Hx].
    { subst b. destruct (Nat.ltb_spec best.1 x.1); simpl; lia. }
    pose proof (IH b b (list_elem_of_here _ _)) as Hbb.
    apply elem_of_cons in Hy as [->|Hy]; [lia|].
    apply elem_of_cons in Hy as [->|Hy]; [lia|].
    apply IH. right. exact Hy.
Qed.

Lemma min_by_pos_le l : forall best y,
  y ∈ best :: l -> ((min_by_pos best l).1 <= y.1)%nat.
Proof.
  induction l as [|x l IH]; intros best y Hy; simpl.
  - apply list_elem_of_singleton in Hy. subst. lia.
  - set (b := if (x.1 <? best.1)%nat then x else best).
    assert ((b.1 <= best.1)%nat /\ (b.1 <= x.1)%nat) as [Hb Hx].
    { subst b. destruct (Nat.ltb_spec x.1 best.1); simpl; lia. }
    pose proof (IH b b (list_elem_of_here _ _)) as Hbb.
    apply elem_of_cons in Hy as [->|Hy]; [lia|].
    apply elem_of_cons in Hy as [->|Hy]; [lia|].
    apply IH. right. exact Hy.
Qed.

Lemma number_at_spec p numbers x :
  number_at p numbers = Some x -> x ∈ numbers /\ x.1 = p.
Proof.
  unfold number_at. intros H. split; [eapply find_elem_of; exact H|].
  apply find_some in H as [_ H]. apply Nat.eqb_eq in H. exact H.
Qed.

Lemma filter_nil_none {A} (P : A -> Prop) `{forall x, Decision (P x)} (l : list A) :
  filter P l = [] -> forall x, x ∈ l -> ~ P x.
Proof.
  intros Hf x Hx HP.
  assert (x ∈ filter P l) as Hin by (apply list_elem_of_filter; auto).
  rewrite Hf in Hin. apply elem_of_nil in Hin. exact Hin.
Qed.

(** X7. For a product position that is not beyond the end of the tokens,
    [find_associated_number] prefers what comes before the product:
    when a number lies before the product it returns the closest one
    before; when none does and a number lies after, the closest one
    after; and the default 1, with no position, when there is no number
    at another position than the product's. *)
Theorem find_associated_number_closest p toks numbers :
  (p <= length toks)%nat ->
  let r := find_associated_number p toks numbers in
  ((exists x, x ∈ numbers /\ (x.1 < p)%nat) ->
     exists x, x ∈ numbers /\ r = (x.2, Some x.1) /\ (x.1 < p)%nat /\
       forall y, y ∈ numbers -> (y.1 < p)%nat -> (y.1 <= x.1)%nat) /\
  ((forall x, x ∈ numbers -> (p <= x.1)%nat) ->
   (exists x, x ∈ numbers /\ (p < x.1)%nat) ->
     exists x, x ∈ numbers /\ r = (x.2, Some x.1) /\ (p < x.1)%nat /\
       forall y, y ∈ numbers -> (p < y.1)%nat -> (x.1 <= y.1)%nat) /\
  ((forall x, x ∈ numbers -> x.1 = p) -> r = (1, None)).
Proof.
  intros _. cbv zeta. unfold find_associated_number.
  destruct numbers as [|n0 numbers0].
  { split; [|split].
    - intros (x & Hx & _). apply elem_of_nil in Hx. destruct Hx.
    - intros _ (x & Hx & _). apply elem_of_nil in Hx. destruct Hx.
    - reflexivity. }
  set (numbers := n0 :: numbers0).
  set (pattern1 := if (0 <? p)%nat && is_number_token (toks !! (p - 1)%nat)
                   then number_at (p - 1) numbers else None).
  set (pattern3 := if (p + 1 <? length toks)%nat
                      && is_number_token (toks !! (p + 1)%nat)
                   then number_at (p + 1) numbers else None).
  assert (forall x, pattern1 = Some x -> x ∈ numbers /\ (x.1 < p)%nat /\ S x.1 = p) as H1.
  { intros x. subst pattern1.
    destruct (0 <? p)%nat eqn:Hp; [|simpl; discriminate]. apply Nat.ltb_lt in Hp.
    destruct (is_number_token (toks !! (p - 1)%nat)); [|simpl; discriminate].
    cbn [andb].
    intros Hx. apply number_at_spec in Hx as [Hx Hpos]. split; [exact Hx|lia]. }
  assert (forall x, pattern3 = Some x -> x ∈ numbers /\ x.1 = S p) as H3.
  { intros x. subst pattern3.
    destruct ((p + 1 <? length toks)%nat && is_number_token (toks !! (p + 1)%nat));
      [|discriminate].
    intros Hx. apply number_at_spec in Hx as [Hx Hpos]. split; [exact Hx|lia]. }
  split; [|split].
  - intros (x0 & Hx0 & Hlt0).
    destruct pattern1 as [[pos val]|] eqn:E1.
    { destruct (H1 _ eq_refl) as (Hin & Hlt & Hs). exists (pos, val).
      split; [exact Hin|]. split; [reflexivity|]. split; [exact Hlt|].
      intros y _ Hy. simpl in *. lia. }
    destruct (filter (fun x : nat * Z => (x.1 <? p)%nat) numbers)
      as [|first others] eqn:Hb.
    { exfalso. eapply (filter_nil_none _ _ Hb x0 Hx0).
      apply Is_true_true. apply Nat.ltb_lt. exact Hlt0. }
    pose proof (max_by_pos_in others first) as Hin. rewrite <- Hb in Hin.
    apply list_elem_of_filter in Hin as [Hlt Hin].
    apply Is_true_true in Hlt. apply Nat.ltb_lt in Hlt.
    exists (max_by_pos first others).
    split; [exact Hin|]. split; [reflexivity|]. split; [exact Hlt|].
    intros y Hy Hyp. apply max_by_pos_ge. rewrite <- Hb.
    apply list_elem_of_filter. split; [|exact Hy].
    apply Is_true_true. apply Nat.ltb_lt. exact Hyp.
  - intros Hge (x0 & Hx0 & Hgt0).
    destruct pattern1 as [[pos val]|] eqn:E1.
    { exfalso. destruct (H1 _ eq_refl) as (Hin & Hlt & _).
      specialize (Hge _ Hin). lia. }
    destruct (filter (fun x : nat * Z => (x.1 <? p)%nat) numbers)
      as [|first others] eqn:Hb.
    2:{ exfalso. assert (first ∈ filter (fun x : nat * Z => (x.1 <? p)%nat) numbers)
          as Hin by (rewrite Hb; left).
        apply list_elem_of_filter in Hin as [Hlt Hin].
        apply Is_true_true in Hlt. apply Nat.ltb_lt in Hlt.
        specialize (Hge _ Hin). lia. }
    destruct pattern3 as [[pos val]|] eqn:E3.
    { destruct (H3 _ eq_refl) as (Hin & Hs). exists (pos, val).
      split; [exact Hin|]. split; [reflexivity|]. simpl in *. split; [lia|].
      intros y _ Hy. lia. }
    destruct (filter (fun x : nat * Z => (p <? x.1)%nat) numbers)
      as [|first others] eqn:Ha.
    { exfalso. eapply (filter_nil_none _ _ Ha x0 Hx0).
      apply Is_true_true. apply Nat.ltb_lt. exact Hgt0. }
    pose proof (min_by_pos_in others first) as Hin. rewrite <- Ha in Hin.
    apply list_elem_of_filter in Hin as [Hgt Hin].
    apply Is_true_true in Hgt. apply Nat.ltb_lt in Hgt.
    exists (min_by_pos first others).
    split; [exact Hin|]. split; [reflexivity|]. split; [exact Hgt|].
    intros y Hy Hyp. apply min_by_pos_le. rewrite <- Ha.
    apply list_elem_of_filter. split; [|exact Hy].
    apply Is_true_true. apply Nat.ltb_lt. exact Hyp.
  - intros Hall.
    destruct pattern1 as [[pos val]|] eqn:E1.
    { exfalso. destruct (H1 _ eq_refl) as (Hin & Hlt & _).
      specialize (Hall _ Hin). lia. }
    destruct (filter (fun x : nat * Z => (x.1 <? p)%nat) numbers)
      as [|first others] eqn:Hb.
    2:{ exfalso. assert (first ∈ filter (fun x : nat * Z => (x.1 <? p)%nat) numbers)
          as Hin by (rewrite Hb; left).
        apply list_elem_of_filter in Hin as [Hlt Hin].
        apply Is_true_true in Hlt. apply Nat.ltb_lt in Hlt.
        specialize (Hall _ Hin). lia. }
    destruct pattern3 as [[pos val]|] eqn:E3.
    { exfalso. destruct (H3 _ eq_refl) as (Hin & Hs).
      specialize (Hall _ Hin). lia. }
    destruct (filter (fun x : nat * Z => (p <? x.1)%nat) numbers)
      as [|first others] eqn:Ha; [reflexivity|].
    exfalso. assert (first ∈ filter (fun x : nat * Z => (p <? x.1)%nat) numbers)
      as Hin by (rewrite Ha; left).
    apply list_elem_of_filter in Hin as [Hgt Hin].
    apply Is_true_true in Hgt. apply Nat.ltb_lt in Hgt.
    specialize (Hall _ Hin). lia.
Qed.

Lemma find_associated_number_closest_witness :
  (1 <= length [py "2"; py "mangas"])%nat /\
  let numbers := [(0%nat, 2)] in
  let r := find_associated_number 1 [py "2"; py "mangas"] numbers in
  ((exists x, x ∈ numbers /\ (x.1 < 1)%nat) ->
     exists x, x ∈ numbers /\ r = (x.2, Some x.1) /\ (x.1 < 1)%nat /\
       forall y, y ∈ numbers -> (y.1 < 1)%nat -> (y.1 <= x.1)%nat) /\
  ((forall x, x ∈ numbers -> (1 <= x.1)%nat) ->
   (exists x, x ∈ numbers /\ (1 < x.1)%nat) ->
     exists x, x ∈ numbers /\ r = (x.2, Some x.1) /\ (1 < x.1)%nat /\
       forall y, y ∈ numbers -> (1 < y.1)%nat -> (x.1 <= y.1)%nat) /\
  ((forall x, x ∈ numbers -> x.1 = 1%nat) -> r = (1, None)).
Proof.
  assert (1 <= length [py "2"; py "mangas"])%nat as H by (cbn; lia).
  split; [exact H|].
  exact (find_associated_number_closest 1 [py "2"; py "mangas"] [(0%nat, 2)] H).
Defined.

(** ** The order lines and the catalog *)

Lemma best_match_elem candidates phrase sc c :
  best_match candidates phrase = (sc, Some c) -> c ∈ candidates.
Proof.
  unfold best_match.
  assert (forall l (acc : float * option (str * nat)),
            (forall c, acc.2 = Some c -> c ∈ candidates) ->
            (forall c, c ∈ l -> c ∈ candidates) ->
            forall c,
              (fold_left (fun best cand =>
                 let score := similarity_percentage phrase (normalize cand.1) in
                 if (best.1 <? score)%float then (score, Some cand) else best)
                 l acc).2 = Some c -> c ∈ candidates) as H.
  { induction l as [|x l IH]; intros acc Hacc Hl c0; simpl; [apply Hacc|].
    apply IH.
    - destruct (_ <? _)%float; simpl; [|exact Hacc].
      intros c1 [= <-]. apply Hl. left.
    - intros c1 Hc1. apply Hl. right. exact Hc1. }
  intros E. apply (H candidates (0%float, None)); [discriminate|auto|].
  exact (f_equal snd E).
Qed.

Section LoopCandidates.
Variable tokens : list str.
Variable numbers : list (nat * Z).
Variable product_names : list str.
Variable sorted_products : list (str * nat).
Variable max_prod_words : nat.
Variable product_words : list str.
Variable working_db : list nat.
Variable P : list row -> list order -> Prop.
Variable Q : str * nat -> Prop.
Hypothesis numbers_nonneg : Forall (fun x : nat * Z => 0 <= x.2) numbers.
Hypothesis sorted_products_Q : Forall Q sorted_products.
Hypothesis product_names_Q : Forall Q (imap (fun idx p => (p, idx)) product_names).
Hypothesis P_commit :
  forall hp os idx q name sc,
    Q (name, idx) -> 0 <= q -> P hp os ->
    P (add_quantity working_db idx q hp) (os ++ [Order name q sc]).

Lemma commit_candidate st name idx sc size :
  Q (name, idx) ->
  holds P st -> holds P (commit tokens numbers working_db st name idx sc size).
Proof.
  unfold holds, commit. intros HQ H.
  pose proof (associated_quantity_nonneg (ps_i st) tokens numbers
                (used_numbers st) numbers_nonneg) as Hq.
  destruct (take_unused_number _ _ _) as [quantity number_position].
  simpl in *. apply P_commit; assumption.
Qed.

Lemma try_sizes_candidate sizes : forall st st',
  holds P st ->
  try_sizes tokens numbers sorted_products product_words working_db st sizes
    = Some st' ->
  holds P st'.
Proof.
  induction sizes as [|size smaller IH]; intros st st' H Ht; simpl in Ht.
  - discriminate.
  - destruct (length tokens <? ps_i st + size)%nat; [eauto|].
    destruct (skip_phrase _ _ _ _); [eauto|].
    destruct (best_match _ _) as [best_score [[best_product best_idx]|]] eqn:Hb;
      [|eauto].
    destruct (similarity_threshold <=? best_score)%float; [|eauto].
    injection Ht as <-. unfold holds. simpl.
    apply (commit_candidate st best_product best_idx best_score size); [|exact H].
    apply best_match_elem in Hb. rewrite Forall_forall in sorted_products_Q. auto.
Qed.

Lemma fallback_candidate st :
  holds P st ->
  holds P (fallback tokens numbers product_names working_db st).
Proof.
  intros H. unfold fallback, holds. simpl.
  destruct (best_match _ _) as [best_score [[best_product best_idx]|]] eqn:Hb;
    [|exact H].
  destruct (_ && _); [|exact H].
  apply (commit_candidate st best_product best_idx best_score 1); [|exact H].
  apply best_match_elem in Hb. rewrite Forall_forall in product_names_Q. auto.
Qed.

Lemma parse_step_candidate st :
  holds P st ->
  holds P (parse_step tokens numbers product_names sorted_products
           max_prod_words product_words working_db st).
Proof.
  intros H. unfold parse_step.
  destruct (bool_decide _); [exact H|].
  destruct (_ || _); [exact H|].
  destruct (try_sizes _ _ _ _ _ _ _) as [st'|] eqn:Ht.
  - eapply try_sizes_candidate; eauto.
  - apply fallback_candidate. exact H.
Qed.

Lemma parse_loop_candidate fuel : forall st,
  holds P st ->
  holds P (parse_loop tokens numbers product_names sorted_products
           max_prod_words product_words working_db fuel st).
Proof.
  induction fuel as [|fuel IH]; intros st H; simpl; [exact H|].
  destruct (ps_i st <? length tokens)%nat; [|exact H].
  apply IH. apply parse_step_candidate. exact H.
Qed.
End LoopCandidates.

Lemma ordered_quantity_app name os os' :
  ordered_quantity name (os ++ os') =
  ordered_quantity name os + ordered_quantity name os'.
Proof.
  unfold ordered_quantity. induction os as [|o os IH]; simpl; [lia|].
  rewrite IH. lia.
Qed.

Lemma imap_candidates (names : list str) :
  Forall (fun c : str * nat => names !! c.2 = Some c.1)
         (imap (fun idx p => (p, idx)) names).
Proof.
  apply Forall_forall. intros [p idx] Hin.
  apply elem_of_lookup_imap in Hin as (i & x & [= -> ->] & Hx). exact Hx.
Qed.

Lemma insert_desc_elem {A} (key : A -> nat) x (l : list A) y :
  y ∈ insert_desc key x l -> y = x \/ y ∈ l.
Proof.
  induction l as [|z l IH]; simpl.
  - intros H. apply list_elem_of_singleton in H. auto.
  - destruct (key z <? key x)%nat.
    + intros H. apply elem_of_cons in H as [->|H]; auto.
    + intros H. apply elem_of_cons in H as [->|H]; [right; left|].
      destruct (IH H) as [->|Hl]; [auto|right; right; exact Hl].
Qed.

Lemma sorted_desc_elem {A} (key : A -> nat) (l : list A) y :
  y ∈ sorted_desc key l -> y ∈ l.
Proof.
  unfold sorted_desc.
  assert (forall acc, y ∈ fold_left (fun acc x => insert_desc key x acc) l acc ->
                      y ∈ acc \/ y ∈ l) as H.
  { induction l as [|x l IH]; intros acc; simpl; [auto|].
    intros Hy. destruct (IH _ Hy) as [Hacc|Hl].
    - apply insert_desc_elem in Hacc as [->|Hacc]; [right; left|auto].
    - right. right. exact Hl. }
  intros Hy. destruct (H [] Hy) as [Hn|Hl]; [|exact Hl].
  apply elem_of_nil in Hn. destruct Hn.
Qed.

(** X8. When the products of the catalog have distinct names, a run of
    [parse_order_interactive] that returns gives order lines that name
    products of the catalog, with quantities that are not negative, and
    the working catalog it returns is the catalog passed in with the
    quantities of the lines added, product by product. *)
Theorem parse_order_interactive_merges message (db : list nat) (h : list row) :
  valid h db ->
  NoDup (map row_name (rows_of h db)) ->
  match parse_order_interactive message db h with
  | (h', Ok (orders, working_db)) =>
    Forall (fun o => product o ∈ map row_name (rows_of h db) /\ 0 <= qty o)
           orders /\
    rows_of h' working_db = merge_lines orders (rows_of h db)
  | (_, Raise _) => True
  end.
Proof.
  intros Hv Hnd.
  destruct (parse_order_interactive message db h) as [h' [[orders working_db]|e]]
    eqn:Hrun; [|exact I].
  revert Hrun. rewrite parse_order_interactive_unfold. cbv zeta.
  destruct (deepcopy db h) as [wdb h1] eqn:Hdc.
  destruct (deepcopy_spec db h wdb h1 Hv Hdc)
    as (F1 & Hfresh & Hvalid & Hrows & HP).
  destruct (extract_numbers_and_positions (tokenize message))
    as [numbers|e] eqn:Hex; [|discriminate].
  destruct (max_of _) as [max_prod_words|e]; [|discriminate].
  pose proof (extract_nonneg _ _ Hex) as Hnn.
  rewrite (rows_of_frame h h1 db F1 Hv).
  set (names := map row_name (rows_of h db)) in *.
  set (st0 := ParseState 0 [] [] [] h1).
  match goal with |- context [parse_loop ?t ?n ?pn ?sp ?mx ?pw ?w ?fuel st0] =>
    set (st := parse_loop t n pn sp mx pw w fuel st0)
  end.
  assert (map row_name (rows_of h1 wdb) = names) as Hnames
    by (rewrite Hrows; reflexivity).
  assert (NoDup wdb) as Hndw.
  { apply (NoDup_fmap_1 (fun l : nat => row_name (h1 !!! l))).
    unfold rows_of in Hnames. rewrite map_map in Hnames.
    change (NoDup (map (fun l : nat => row_name (h1 !!! l)) wdb)).
    rewrite Hnames. exact Hnd. }
  assert (forall k (l : nat), wdb !! k = Some l ->
            names !! k = Some (row_name (h1 !!! l))) as Hname.
  { intros k l Hk. rewrite <- Hnames. unfold rows_of. rewrite map_map.
    change (((fun l : nat => row_name (h1 !!! l)) <$> wdb) !! k
            = Some (row_name (h1 !!! l))).
    rewrite list_lookup_fmap, Hk. reflexivity. }
  assert (holds (fun hp os =>
            length hp = length h1 /\
            (forall l : nat, l ∈ wdb ->
               row_name (hp !!! l) = row_name (h1 !!! l) /\
               row_qty (hp !!! l) =
                 row_qty (h1 !!! l) + ordered_quantity (row_name (h1 !!! l)) os) /\
            Forall (fun o => product o ∈ names /\ 0 <= qty o) os) st)
    as (Hlen & Hq & Ho).
  { subst st.
    apply (parse_loop_candidate _ _ _ _ _ _ _ _
             (fun c : str * nat => names !! c.2 = Some c.1)).
    - exact Hnn.
    - apply Forall_forall. intros c Hc. apply sorted_desc_elem in Hc.
      pose proof (imap_candidates names) as Hi. rewrite Forall_forall in Hi. auto.
    - apply imap_candidates.
    - intros hp os idx q name sc HQ Hq0 (Hlen & Hq & Ho). simpl in HQ.
      assert (length wdb = length names) as Hl.
      { rewrite <- Hnames. unfold rows_of. rewrite !length_map. reflexivity. }
      apply lookup_lt_Some in HQ as Hidx. rewrite <- Hl in Hidx.
      apply lookup_lt_is_Some in Hidx as [l' Hl'].
      unfold add_quantity. rewrite Hl'.
      split; [rewrite length_alter; exact Hlen|]. split.
      + intros l Hin. destruct (Hq l Hin) as [Hn1 Hq1].
        rewrite ordered_quantity_app. cbn [ordered_quantity foldr product qty].
        apply list_elem_of_lookup in Hin as [k Hk].
        pose proof (Hname _ _ Hk) as Hnk.
        destruct (decide (l' = l)) as [->|Hne].
        * rewrite list_lookup_total_alter_eq.
          2:{ rewrite Hlen. unfold valid in Hvalid.
              rewrite Forall_forall in Hvalid. apply Hvalid.
              apply list_elem_of_lookup. eauto. }
          simpl. split; [exact Hn1|].
          assert (k = idx) as -> by (eapply NoDup_lookup; eauto).
          rewrite HQ in Hnk. injection Hnk as Hnk.
          unfold str_eqb. rewrite bool_decide_eq_true_2 by exact Hnk. lia.
        * rewrite list_lookup_total_alter_ne by exact Hne.
          split; [exact Hn1|].
          assert (name <> row_name (h1 !!! l)) as Hnn'.
          { intros ->. apply Hne.
            assert (idx = k) as -> by (eapply (NoDup_lookup names); eauto).
            congruence. }
          unfold str_eqb. rewrite bool_decide_eq_false_2 by exact Hnn'. lia.
      + apply Forall_app. split; [exact Ho|]. constructor; [|constructor].
        simpl. split; [|exact Hq0]. apply list_elem_of_lookup. eauto.
    - unfold holds. subst st0. cbn [ps_heap parsed_orders].
      split; [reflexivity|]. split; [|constructor].
      intros l _. simpl. split; [reflexivity|lia]. }
  clearbody st. clear st0. intros [= <- <- <-].
  split; [exact Ho|].
  unfold merge_lines. rewrite <- Hrows. unfold rows_of. rewrite map_map.
  apply map_ext_in. intros l Hin. rewrite <- list_elem_of_In in Hin.
  destruct (Hq l Hin) as [Hn1 Hq1].
  destruct (ps_heap st !!! l) as [n q] eqn:E. simpl in *. subst. reflexivity.
Qed.

Lemma parse_order_interactive_merges_witness :
  match parse_order_interactive (py "2 mangas e 3 queijos") global_products_db
                                initial_heap with
  | (h', Ok (orders, working_db)) =>
    Forall (fun o => product o ∈ map row_name (rows_of initial_heap global_products_db)
                     /\ 0 <= qty o) orders /\
    rows_of h' working_db = merge_lines orders (rows_of initial_heap global_products_db)
  | (_, Raise _) => True
  end.
Proof.
  assert (valid initial_heap global_products_db) as Hv.
  { unfold valid. apply (bool_decide_unpack _). vm_compute. exact I. }
  assert (NoDup (map row_name (rows_of initial_heap global_products_db))) as Hnd.
  { apply (bool_decide_unpack _). vm_compute. exact I. }
  exact (parse_order_interactive_merges (py "2 mangas e 3 queijos") global_products_db
           initial_heap Hv Hnd).
Defined.

Lemma max_of_raises l : max_of l = Raise ValueError <-> l = [].
Proof.
  destruct l; simpl; split; try reflexivity; discriminate.
Qed.

Lemma parse_order_interactive_raises_iff message (db : list nat) (h : list row) :
  (parse_order_interactive message db h).2 = Raise ValueError <->
  db = [] \/ Exists (fun t => bad_digit_token t = true) (tokenize message).
Proof.
  rewrite parse_order_interactive_unfold. cbv zeta.
  destruct (deepcopy db h) as [wdb h1].
  pose proof (extract_from_raises (tokenize message) 0 0 (Forall_nil_2 _)) as Hx.
  rewrite drop_0 in Hx. fold (extract_numbers_and_positions (tokenize message)) in Hx.
  destruct (extract_numbers_and_positions (tokenize message)) as [numbers|[]].
  - destruct (max_of _) as [mx|[]] eqn:Hm; cbn [snd].
    + split; [discriminate|]. intros [->|Hb].
      * cbn [rows_of map max_of] in Hm. discriminate.
      * apply Hx in Hb. discriminate.
    + split; [|reflexivity]. intros _. left.
      apply max_of_raises in Hm. unfold rows_of in Hm.
      destruct db; [reflexivity|discriminate].
  - cbn [snd]. split; [|reflexivity]. intros _. right. apply Hx. reflexivity.
Qed.

(** X9. For a message of Latin-1 characters (and combining marks),
    [parse_order_interactive] raises [ValueError] in two cases only: the
    catalog is empty, or a token of the message is accepted by
    [str.isdigit] and rejected by [int] (digits with a superscript digit
    among them, or more than 4300 digits); in every other case it
    returns.  The message "2 mangas ²" is one that makes it raise,
    whatever the catalog. *)
Theorem parse_order_interactive_raises message (db : list nat) (h : list row) :
  Forall latin1_or_mark message ->
  ((parse_order_interactive message db h).2 = Raise ValueError <->
   db = [] \/ Exists (fun t => bad_digit_token t = true) (tokenize message)) /\
  (db <> [] ->
   Forall (fun t => bad_digit_token t = false) (tokenize message) ->
   exists orders working_db,
     (parse_order_interactive message db h).2 = Ok (orders, working_db)) /\
  (parse_order_interactive (py "2 mangas ²") db h).2 = Raise ValueError.
Proof.
  intros _. split; [apply parse_order_interactive_raises_iff|]. split.
  - intros Hdb Hgood.
    destruct (parse_order_interactive message db h).2 as [[orders w]|[]] eqn:E.
    + exists orders, w. reflexivity.
    + exfalso. apply parse_order_interactive_raises_iff in E as [E|E];
        [exact (Hdb E)|].
      apply Exists_exists in E as (t & Ht & Hb).
      rewrite Forall_forall in Hgood. rewrite (Hgood t Ht) in Hb. discriminate.
  - apply parse_order_interactive_raises_iff. right. vm_compute.
    apply Exists_cons_tl. apply Exists_cons_tl. apply Exists_cons_hd. reflexivity.
Qed.

Lemma parse_order_interactive_raises_witness :
  Forall latin1_or_mark (py "dois mangas") /\
  ((parse_order_interactive (py "dois mangas") global_products_db initial_heap).2
     = Raise ValueError <->
   global_products_db = [] \/
   Exists (fun t => bad_digit_token t = true) (tokenize (py "dois mangas"))) /\
  (global_products_db <> [] ->
   Forall (fun t => bad_digit_token t = false) (tokenize (py "dois mangas")) ->
   exists orders working_db,
     (parse_order_interactive (py "dois mangas") global_products_db
                              initial_heap).2 = Ok (orders, working_db)) /\
  (parse_order_interactive (py "2 mangas ²") global_products_db initial_heap).2
    = Raise ValueError.
Proof.
  assert (Forall latin1_or_mark (py "dois mangas")) as H.
  { unfold latin1_or_mark. apply (bool_decide_unpack _). vm_compute. exact I. }
  split; [exact H|].
  exact (parse_order_interactive_raises (py "dois mangas") global_products_db
           initial_heap H).
Defined.

(** ** The control of a session *)

(** *** What every operation keeps of the catalogs *)

Lemma merge_shape s s' :
  session_shape s -> products_db s' = products_db s ->
  current_db s' = current_db s ->
  length (memory s') = length (memory s) ->
  (forall l : nat, l ∉ current_db s -> memory s' !! l = memory s !! l) ->
  session_shape s'.
Proof.
  intros (V1 & V2 & Z & D) Hp Hc Hl Hf. unfold session_shape, valid.
  rewrite Hp, Hc, Hl. split; [exact V1|]. split; [exact V2|].
  split; [|exact D].
  rewrite Forall_forall in *. intros l Hin.
  assert (l ∉ current_db s) as Hnot.
  { intros Hcur. exact (D l Hcur Hin). }
  rewrite !list_lookup_total_alt, (Hf l Hnot).
  rewrite <- list_lookup_total_alt. auto.
Qed.

Lemma effect_shape s s' :
  session_shape s -> products_db s' = products_db s -> catalog_effect s s' ->
  session_shape s'.
Proof.
  intros H Hp E. pose proof H as (V1 & V2 & Z & D).
  destruct E as [E1 E2|E|msg r E1 E2|E1 E2 E3 E4].
  - unfold session_shape. rewrite Hp, E1, E2. exact H.
  - destruct (deepcopy_spec _ _ _ _ V1 E) as (F & Hf & Hv & Hr & HP).
    unfold session_shape. rewrite Hp.
    split; [eapply valid_frame; eassumption|]. split; [exact Hv|].
    split; [eapply zero_rows_frame; eassumption|].
    eapply fresh_not_in; eassumption.
  - pose proof (parse_order_interactive_heap msg _ _ V2) as Hh.
    rewrite E1 in Hh. destruct Hh as (F & Hn & Hr).
    unfold session_shape. rewrite Hp.
    destruct E2 as [E2|[orders ->]].
    + rewrite E2.
      split; [eapply valid_frame; eassumption|].
      split; [eapply valid_frame; eassumption|].
      split; [eapply zero_rows_frame; eassumption|exact D].
    + destruct Hr as (Hf & Hv & _).
      split; [eapply valid_frame; eassumption|]. split; [exact Hv|].
      split; [eapply zero_rows_frame; eassumption|].
      eapply fresh_not_in; eassumption.
  - exact (merge_shape s s' H Hp E1 E3 E4).
Qed.

(** The loop of [add_item] and [reset_cycle], whatever the lines: it
    writes to rows of the working catalog only. *)
Lemma add_orders_frame parsed_orders : forall s,
  keeps s (add_orders parsed_orders s) /\
  current_db (add_orders parsed_orders s) = current_db s /\
  length (memory (add_orders parsed_orders s)) = length (memory s) /\
  (forall l : nat, l ∉ current_db s ->
     memory (add_orders parsed_orders s) !! l = memory s !! l).
Proof.
  unfold add_orders.
  induction parsed_orders as [|o os IH]; intros s; cbn [fold_left].
  - split; [solve_keeps|]. split; [reflexivity|]. split; [reflexivity|].
    intros; reflexivity.
  - match goal with |- context [fold_left ?f os ?x] => set (s1 := x) end.
    assert (keeps s s1 /\ current_db s1 = current_db s /\
            length (memory s1) = length (memory s) /\
            (forall l : nat, l ∉ current_db s -> memory s1 !! l = memory s !! l))
      as (K1 & C1 & L1 & F1).
    { subst s1. destruct (find _ _) as [[idx r]|].
      - session_cbn. split; [solve_keeps|]. split; [reflexivity|].
        split; [apply add_quantity_length|].
        intros l Hl. unfold add_quantity.
        destruct (current_db s !! idx) as [l0|] eqn:Hl0; [|reflexivity].
        apply list_lookup_alter_ne. intros ->. apply Hl.
        eapply list_elem_of_lookup_2. exact Hl0.
      - split; [solve_keeps|]. split; [reflexivity|]. split; [reflexivity|].
        intros; reflexivity. }
    clearbody s1. destruct (IH s1) as (K2 & C2 & L2 & F2).
    split; [eapply keeps_trans; eassumption|]. split; [congruence|].
    split; [congruence|].
    intros l Hl. rewrite F2 by (rewrite C1; exact Hl). auto.
Qed.

Lemma step_cases s s' :
  step s s' ->
  step_nonneg s s' \/
  exists parsed_orders s0,
    keeps s s0 /\ memory s0 = memory s /\ current_db s0 = current_db s /\
    keeps (add_orders parsed_orders s0) s' /\
    memory s' = memory (add_orders parsed_orders s0) /\
    current_db s' = current_db (add_orders parsed_orders s0).
Proof.
  intros [now message s0|now rnd s0 s1 Hf|s0|s0|os s0|os s0].
  - left. constructor.
  - left. econstructor. exact Hf.
  - left. constructor.
  - left. constructor.
  - right. exists os, s0. unfold add_item. session_cbn.
    split; [solve_keeps|]. split; [reflexivity|]. split; [reflexivity|].
    set (s1 := add_orders os s0). clearbody s1. session_cbn.
    split; [solve_keeps|]. split; reflexivity.
  - right. exists os, (_cancel_timer s0). unfold reset_cycle. session_cbn.
    split; [solve_keeps|]. split; [reflexivity|]. split; [reflexivity|].
    set (s1 := add_orders os (_cancel_timer s0)). clearbody s1. session_cbn.
    split; [solve_keeps|]. split; reflexivity.
Qed.

Lemma step_keeps s s' : step s s' -> keeps s s'.
Proof.
  intros Hstep. destruct (step_cases s s' Hstep)
    as [Hn|(os & s0 & K0 & _ & _ & K1 & _)].
  - apply (step_nonneg_effect _ _ Hn).
  - destruct (add_orders_frame os s0) as (K & _).
    eapply keeps_trans; [exact K0|]. eapply keeps_trans; [exact K|exact K1].
Qed.

Lemma step_shape s s' : session_shape s -> step s s' -> session_shape s'.
Proof.
  intros H Hstep. pose proof (step_keeps s s' Hstep) as (Hp & _).
  destruct (step_cases s s' Hstep)
    as [Hn|(os & s0 & K0 & M0 & C0 & K1 & M1 & C1)].
  - destruct (step_nonneg_effect _ _ Hn) as [_ E].
    exact (effect_shape s s' H Hp E).
  - destruct (add_orders_frame os s0) as (_ & C & L & F).
    apply (merge_shape s s' H Hp).
    + congruence.
    + congruence.
    + intros l Hl. rewrite M1, F by (rewrite C0; exact Hl). rewrite M0.
      reflexivity.
Qed.

Lemma reachable_shape s : reachable s -> session_shape s.
Proof.
  induction 1 as [sid uid now h table F N|s s' _ IH Hstep].
  - apply session_inv_shape. apply init_inv; assumption.
  - exact (step_shape s s' IH Hstep).
Qed.

(** *** The control of a session *)

Lemma has_items_frame (s : OrderSession.t) (h' : list row) :
  valid (memory s) (current_db s) -> frame (memory s) h' ->
  has_items (set_memory h' s) = has_items s.
Proof.
  intros Hv F. unfold has_items, current_rows. session_cbn.
  rewrite (rows_of_frame _ _ _ F Hv). reflexivity.
Qed.

Lemma add_orders_memory_only parsed_orders : forall s,
  add_orders parsed_orders s = set_memory (memory (add_orders parsed_orders s)) s.
Proof.
  unfold add_orders. induction parsed_orders as [|o os IH]; intros s; cbn [fold_left].
  - destruct s; reflexivity.
  - rewrite IH. destruct (find _ _) as [[idx r]|].
    + session_cbn. destruct s; reflexivity.
    + destruct s; reflexivity.
Qed.

Ltac wf_leaf :=
  unfold session_wf, live in *; session_cbn;
  repeat match goal with |- _ /\ _ => split end;
  try first [ assumption | discriminate | reflexivity | lia
            | (intros; congruence)
            | (intros [?|?]; first [discriminate | congruence | auto])
            | (intros; discriminate) ].

Lemma start_new_conversation_wf s :
  pending_orders s = [] -> session_wf (start_new_conversation s).
Proof.
  intros Hpo. unfold start_new_conversation. split_deepcopy. wf_leaf.
Qed.

Lemma _send_summary_wf s :
  session_wf s -> session_wf (_send_summary s).
Proof.
  intros H. pose proof H as (Hpc & Hpo & Hrc & Hopt & Hconf & Hidle).
  unfold _send_summary.
  destruct (bool_decide_reflect (state s = collecting)) as [Hs|Hs];
    [|cbn [andb]; exact H].
  destruct (has_items s) eqn:Hi; cbn [andb].
  - unfold session_wf, live, has_items, current_rows in *. session_cbn.
    repeat match goal with |- _ /\ _ => split end;
      try first [assumption|discriminate|lia].
    + intros _. repeat split; [exact Hi|lia].
    + intros [?|?]; discriminate.
  - wf_leaf; rewrite Hs; discriminate.
Qed.

Lemma _reset_current_wf s :
  pending_orders s = [] -> session_wf (_reset_current s).
Proof.
  intros Hpo. unfold _reset_current. split_deepcopy. wf_leaf.
Qed.

Lemma _mark_as_pending_wf now rnd s :
  pending_orders s = [] -> has_items s = true ->
  session_wf (_mark_as_pending now rnd s).
Proof.
  intros Hpo Hi. unfold _mark_as_pending. rewrite Hi.
  unfold _reset_current. session_cbn. split_deepcopy. wf_leaf.
Qed.

Lemma fire_wf now rnd s s' :
  session_wf s -> fire now rnd s = Some s' -> session_wf s'.
Proof.
  intros H. pose proof H as (Hpc & Hpo & Hrc & Hopt & Hconf & Hidle).
  unfold fire. destruct (active_timer s) as [[cb [|]]|] eqn:Ht; try discriminate.
  intros [= <-].
  assert (state s = collecting \/ state s = confirming) as Hst.
  { destruct (state s) eqn:Hs; auto; try congruence;
      (exfalso; assert (live s = false) as Hl by (apply Hidle; auto);
       unfold live in Hl; rewrite Ht in Hl; discriminate). }
  destruct cb.
  - (* the inactivity timer *)
    destruct Hst as [Hs|Hs].
    2:{ destruct (Hconf Hs) as (_ & _ & Ht'). congruence. }
    apply _send_summary_wf. wf_leaf; rewrite Hs; discriminate.
  - (* the reminder timer *)
    unfold _send_reminder. session_cbn.
    destruct Hst as [Hs|Hs].
    + rewrite Hs. rewrite bool_decide_eq_false_2 by discriminate. cbn [andb].
      wf_leaf; rewrite Hs; discriminate.
    + rewrite Hs. rewrite bool_decide_eq_true_2 by reflexivity. cbn [andb].
      destruct (Hconf Hs) as (Hi & H1 & _).
      destruct (reminder_count s <=? 5) eqn:H5; [|apply Z.leb_gt in H5; lia].
      destruct (reminder_count s =? 5) eqn:E5.
      * apply _mark_as_pending_wf; [exact Hpo|exact Hi].
      * apply Z.eqb_neq in E5.
        unfold session_wf, live, has_items, current_rows in *. session_cbn.
        repeat match goal with |- _ /\ _ => split end;
          try first [assumption|discriminate|lia].
        -- intros _. repeat split; [exact Hi|lia].
        -- rewrite Hs. intros [?|?]; discriminate.
Qed.

Lemma parse_current_wf message s s1 r :
  session_shape s -> session_wf s ->
  parse_current message s = (s1, r) ->
  session_wf s1 /\ state s1 = state s /\
  waiting_for_option s1 = waiting_for_option s /\
  active_timer s1 = active_timer s.
Proof.
  intros (_ & V & _) H Hp. apply parse_current_effect in Hp as [Hp Hs1].
  pose proof (parse_order_interactive_heap message _ _ V) as Hh.
  rewrite Hp in Hh. destruct Hh as (F & _).
  rewrite Hs1. session_cbn. split; [|repeat split].
  destruct H as (Hpc & Hpo & Hrc & Hopt & Hconf & Hidle).
  unfold session_wf, live. rewrite (has_items_frame s _ V F). session_cbn.
  repeat split; first [assumption | lia | (apply Hconf; assumption)].
Qed.

Lemma process_message_wf now message s :
  session_shape s -> session_wf s ->
  session_wf (process_message now message s).1.
Proof.
  intros Hinv H. unfold process_message. cbv zeta.
  set (ml := strip (lower message)).
  set (s0 := set_last_activity now s).
  assert (session_shape s0) as Hinv0 by exact Hinv.
  assert (session_wf s0) as H0 by exact H.
  clearbody s0. clear H Hinv.
  pose proof H0 as (Hpc & Hpo & Hrc & Hopt & Hconf & Hidle).
  destruct (_check_cancel_command ml).
  { cbn [fst]. apply start_new_conversation_wf. exact Hpo. }
  destruct (bool_decide_reflect (state s0 = waiting_for_next)) as [Hs|Hs].
  { cbn [fst]. assert (live s0 = false) as Hl by auto. wf_leaf. }
  destruct (bool_decide_reflect (state s0 = option_)) as [Ho|Ho].
  { assert (live s0 = false) as Hl by auto.
    rewrite (Hopt Ho). cbn [andb].
    destruct (str_eqb ml (py "1")); [|destruct (str_eqb ml (py "2"))];
      cbn [fst]; [wf_leaf|wf_leaf|exact H0]. }
  cbn [andb].
  rewrite (bool_decide_eq_false_2 _ Hpc).
  destruct (bool_decide_reflect (state s0 = confirming)) as [Hc|Hc].
  { destruct (Hconf Hc) as (Hi & H1 & Ht).
    destruct (any_word _ ml).
    { cbn [fst]. apply _reset_current_wf. exact Hpo. }
    destruct (any_word _ ml).
    { cbn [fst]. unfold _reset_current. session_cbn. split_deepcopy. wf_leaf. }
    destruct (parse_current message s0) as [s1 r] eqn:Hp.
    destruct (parse_current_wf _ _ _ _ Hinv0 H0 Hp) as (H1' & Hst & Hw & Htm).
    destruct r as [[[|o os] updated_db]|e]; cbn [fst]; try exact H1'.
    destruct H1' as (A1 & A2 & A3 & A4 & A5 & A6). wf_leaf. }
  destruct (bool_decide_reflect (state s0 = collecting)) as [Hcol|Hcol].
  { destruct (mem ml _).
    - destruct (has_items s0); cbn [fst]; [|exact H0].
      apply _send_summary_wf. exact H0.
    - destruct (parse_current message s0) as [s1 r] eqn:Hp.
      destruct (parse_current_wf _ _ _ _ Hinv0 H0 Hp) as (H1' & Hst & Hw & Htm).
      destruct H1' as (A1 & A2 & A3 & A4 & A5 & A6).
      destruct r as [[[|o os] updated_db]|e]; cbn [fst]; wf_leaf. }
  exact H0.
Qed.

Lemma step_wf s s' :
  session_shape s -> session_wf s -> step s s' -> session_wf s'.
Proof.
  intros Hinv H Hstep. revert Hinv H.
  destruct Hstep as [now message s0|now rnd s0 s1 Hf|s0|s0|os s0|os s0];
    intros Hinv H.
  - apply process_message_wf; assumption.
  - eapply fire_wf; eassumption.
  - apply start_new_conversation_wf. apply H.
  - destruct H as (Hpc & Hpo & Hrc & Hopt & Hconf & Hidle).
    unfold get_pending_message. destruct (message_queue s0); cbn [fst]; wf_leaf.
  - destruct H as (Hpc & Hpo & Hrc & Hopt & Hconf & Hidle).
    unfold add_item. rewrite add_orders_memory_only. wf_leaf.
  - destruct H as (Hpc & Hpo & Hrc & Hopt & Hconf & Hidle).
    unfold reset_cycle. rewrite add_orders_memory_only. wf_leaf.
Qed.

Lemma init_wf session_id user_id now (h : list row) table :
  session_wf (init session_id user_id now h table).
Proof.
  unfold init. split_deepcopy. wf_leaf.
Qed.

Lemma reachable_wf s : reachable s -> session_wf s.
Proof.
  induction 1 as [session_id user_id now h table F N|s s' Hr IH Hstep].
  - apply init_wf.
  - eapply step_wf; [apply reachable_shape| |]; eassumption.
Qed.

Lemma reply_differs (b : bool) (text : option str) :
  (b = true \/ text ≫= head <> Some 69%N) ->
  Ok (Reply b text) <> Ok unrecognised_state.
Proof.
  intros Hb [= Hs Hc]. destruct Hb as [->|Hb]; [discriminate|].
  apply Hb. rewrite Hc. vm_compute. reflexivity.
Qed.

Ltac not_unrecognised :=
  cbn [snd];
  first [ discriminate
        | apply reply_differs;
          first [left; reflexivity | right; vm_compute; discriminate] ].

Lemma process_message_recognised now message s :
  state s <> pending_confirmation ->
  (state s = option_ -> waiting_for_option s = true) ->
  (process_message now message s).2 <> Ok unrecognised_state.
Proof.
  intros Hpc Hopt. unfold process_message. cbv zeta.
  set (ml := strip (lower message)).
  set (s0 := set_last_activity now s).
  assert (state s0 <> pending_confirmation) as Hpc0 by exact Hpc.
  assert (state s0 = option_ -> waiting_for_option s0 = true) as Hopt0 by exact Hopt.
  clearbody s0. clear Hpc Hopt.
  destruct (_check_cancel_command ml); [not_unrecognised|].
  destruct (bool_decide_reflect (state s0 = waiting_for_next)) as [Hs|Hs];
    [not_unrecognised|].
  destruct (bool_decide_reflect (state s0 = option_)) as [Ho|Ho].
  { rewrite (Hopt0 Ho). cbn [andb].
    destruct (str_eqb ml (py "1")); [|destruct (str_eqb ml (py "2"))];
      not_unrecognised. }
  cbn [andb]. rewrite (bool_decide_eq_false_2 _ Hpc0).
  destruct (bool_decide_reflect (state s0 = confirming)) as [Hc|Hc].
  { destruct (any_word _ ml); [not_unrecognised|].
    destruct (any_word _ ml); [not_unrecognised|].
    destruct (parse_current message s0) as [s1 r].
    destruct r as [[[|o os] updated_db]|e]; not_unrecognised. }
  destruct (bool_decide_reflect (state s0 = collecting)) as [Hcol|Hcol].
  { destruct (mem ml _).
    - destruct (has_items s0); not_unrecognised.
    - destruct (parse_current message s0) as [s1 r].
      destruct r as [[[|o os] updated_db]|e]; not_unrecognised. }
  destruct (state s0); congruence.
Qed.

Lemma new_session_reachable : reachable new_session.
Proof.
  apply reachable_init.
  - apply frame_refl.
  - apply (bool_decide_unpack _). vm_compute. exact I.
Qed.

Lemma session_with_mangas_reachable : reachable session_with_mangas.
Proof.
  assert (session_with_mangas =
          (process_message 3 (py "2 mangas")
             (process_message 2 (py "1")
                (process_message 1 (py "oi") new_session).1).1).1) as ->
    by (vm_compute; reflexivity).
  exact (reachable_step _ _
           (reachable_step _ _
              (reachable_step _ _ new_session_reachable
                 (step_process_message 1 (py "oi") new_session))
              (step_process_message 2 (py "1")
                 (process_message 1 (py "oi") new_session).1))
           (step_process_message 3 (py "2 mangas")
              (process_message 2 (py "1")
                 (process_message 1 (py "oi") new_session).1).1)).
Qed.

Lemma session_confirming_reachable : reachable session_confirming.
Proof.
  assert (fire 8 [] session_with_mangas = Some session_confirming) as Hf
    by (vm_compute; reflexivity).
  exact (reachable_step _ _ session_with_mangas_reachable
           (step_fire 8 [] _ _ Hf)).
Qed.

(** X10. No session of a run is ever in state [pending_confirmation] or
    holds a pending order, and a session in state [option] always waits
    for the choice: the branch of [process_message] for pending orders
    and its last line are dead code, and no message is answered with
    the reply for an unrecognised state. *)
Theorem pending_confirmation_unreachable s :
  reachable s ->
  state s <> pending_confirmation /\
  pending_orders s = [] /\
  (state s = option_ -> waiting_for_option s = true) /\
  forall now message,
    (process_message now message s).2 <> Ok unrecognised_state.
Proof.
  intros Hr. destruct (reachable_wf s Hr) as (Hpc & Hpo & _ & Hopt & _).
  split; [exact Hpc|]. split; [exact Hpo|]. split; [exact Hopt|].
  intros now message. apply process_message_recognised; assumption.
Qed.

Lemma pending_confirmation_unreachable_witness :
  state session_confirming <> pending_confirmation /\
  pending_orders session_confirming = [] /\
  (state session_confirming = option_ ->
   waiting_for_option session_confirming = true) /\
  forall now message,
    (process_message now message session_confirming).2 <> Ok unrecognised_state.
Proof.
  exact (pending_confirmation_unreachable session_confirming
           session_confirming_reachable).
Defined.



(** *** A session in state [confirming] is auto-confirmed in the end *)





(** ** Confirmations, the table and messages that raise *)




(** *** The table only grows *)

Lemma save_rows_written (s : OrderSession.t) (orders : list (dict Z))
    (status group : str) :
  (status = py "confirmed" /\ group = main_group) \/
  (status = py "auto_confirmed" /\ group <> main_group) ->
  Forall (written_by s)
    (concat (map (fun order : dict Z =>
               map (fun kv => SqlRow (user_id s) (session_id s) kv.1 kv.2
                                     status group)
                   (filter (fun kv => 0 <? kv.2) order))
             orders)).
Proof.
  intros Hsg. apply Forall_concat, Forall_fmap, Forall_forall. intros order _.
  cbv beta. apply Forall_fmap, Forall_forall. intros kv Hkv.
  apply list_elem_of_filter in Hkv as [Hpos _].
  apply Is_true_true, Z.ltb_lt in Hpos.
  unfold written_by. cbn. repeat split; try assumption.
Qed.

Lemma table_grows_refl s : table_grows s s.
Proof. exists []. split; [symmetry; apply app_nil_r|constructor]. Qed.

Lemma table_grows_trans a b c :
  user_id b = user_id a -> session_id b = session_id a ->
  table_grows a b -> table_grows b c -> table_grows a c.
Proof.
  intros Hu Hs (r1 & E1 & F1) (r2 & E2 & F2). exists (r1 ++ r2). split.
  - rewrite E2, E1, app_assoc. reflexivity.
  - apply Forall_app. split; [exact F1|].
    eapply Forall_impl; [exact F2|]. unfold written_by. rewrite Hu, Hs. auto.
Qed.

Ltac table_leaf :=
  unfold table_grows; session_cbn;
  first [ exists []; split; [symmetry; apply app_nil_r|constructor]
        | eexists; split; [reflexivity|];
          apply save_rows_written;
          first [ left; split; reflexivity
                | right; split; [reflexivity|apply auto_group_not_main] ] ].

Lemma _send_summary_table s : table_grows s (_send_summary s).
Proof.
  unfold _send_summary.
  destruct (bool_decide (state s = collecting) && has_items s).
  - table_leaf.
  - destruct (bool_decide (state s = collecting)); table_leaf.
Qed.

Lemma _reset_current_table s : table_grows s (_reset_current s).
Proof. unfold _reset_current. split_deepcopy. table_leaf. Qed.

Lemma start_new_conversation_table s : table_grows s (start_new_conversation s).
Proof. unfold start_new_conversation. split_deepcopy. table_leaf. Qed.

Lemma _mark_as_pending_table now rnd s : table_grows s (_mark_as_pending now rnd s).
Proof.
  unfold _mark_as_pending. destruct (has_items s); [|apply table_grows_refl].
  unfold _reset_current. session_cbn. split_deepcopy. table_leaf.
Qed.

Lemma fire_table now rnd s s' : fire now rnd s = Some s' -> table_grows s s'.
Proof.
  unfold fire. destruct (active_timer s) as [[cb [|]]|]; try discriminate.
  intros [= <-]. destruct cb.
  - apply (_send_summary_table (set_active_timer _ s)).
  - unfold _send_reminder.
    destruct (bool_decide (state _ = confirming) && (reminder_count _ <=? 5));
      [|table_leaf].
    destruct (reminder_count _ =? 5); [|table_leaf].
    match goal with |- table_grows _ (_mark_as_pending now rnd ?x) =>
      apply (_mark_as_pending_table now rnd x) end.
Qed.

Lemma process_message_table now message s :
  table_grows s (process_message now message s).1.
Proof.
  unfold process_message. cbv zeta.
  set (ml := strip (lower message)).
  change (table_grows s) with (table_grows (set_last_activity now s)).
  set (s0 := set_last_activity now s). clearbody s0.
  destruct (_check_cancel_command ml).
  { cbn [fst]. apply start_new_conversation_table. }
  destruct (bool_decide (state s0 = waiting_for_next)); [table_leaf|].
  destruct (bool_decide (state s0 = option_) && waiting_for_option s0).
  { destruct (str_eqb ml (py "1")); [|destruct (str_eqb ml (py "2"))];
      table_leaf. }
  destruct (bool_decide (state s0 = pending_confirmation)).
  { destruct (any_word _ ml).
    - destruct (pending_orders s0) eqn:Hpend.
      + destruct (any_word _ ml); table_leaf.
      + table_leaf.
    - destruct (parse_current message _) as [s1 r] eqn:Hp.
      apply parse_current_effect in Hp as [Hp Hs1]. rewrite Hs1. clear Hs1.
      destruct r as [[[|o os] updated_db]|e]; table_leaf. }
  destruct (bool_decide (state s0 = confirming)).
  { destruct (any_word _ ml).
    - unfold _reset_current. session_cbn. split_deepcopy. table_leaf.
    - destruct (any_word _ ml).
      + unfold _reset_current. session_cbn. split_deepcopy. table_leaf.
      + destruct (parse_current message _) as [s1 r] eqn:Hp.
        apply parse_current_effect in Hp as [Hp Hs1]. rewrite Hs1. clear Hs1.
        destruct r as [[[|o os] updated_db]|e]; table_leaf. }
  destruct (bool_decide (state s0 = collecting)).
  { destruct (mem ml _).
    - destruct (has_items s0); [|table_leaf].
      cbn [fst]. apply _send_summary_table.
    - destruct (parse_current message _) as [s1 r] eqn:Hp.
      apply parse_current_effect in Hp as [Hp Hs1]. rewrite Hs1. clear Hs1.
      destruct r as [[[|o os] updated_db]|e]; table_leaf. }
  table_leaf.
Qed.

Lemma step_table s s' : step s s' -> table_grows s s'.
Proof.
  intros [now message s0|now rnd s0 s1 Hf|s0|s0|os s0|os s0].
  - apply process_message_table.
  - eapply fire_table. exact Hf.
  - apply start_new_conversation_table.
  - unfold get_pending_message. destruct (message_queue s0); table_leaf.
  - unfold add_item. rewrite add_orders_memory_only. table_leaf.
  - unfold reset_cycle. rewrite add_orders_memory_only. table_leaf.
Qed.

(** X14. Whatever happens to a session (messages, timers, resets), the
    table of confirmed orders only grows: the rows it had stay in place
    and unchanged, and every row added has a positive quantity, the
    identifiers of the session, and either the status "confirmed" in the
    group "main" or the status "auto_confirmed" in another group. *)
Theorem table_only_grows s s' :
  steps s s' ->
  exists rows,
    confirmed_orders_table s' = confirmed_orders_table s ++ rows /\
    Forall (written_by s) rows.
Proof.
  intros H.
  assert (table_grows s s' /\ user_id s' = user_id s /\
          session_id s' = session_id s) as [G _]; [|exact G].
  induction H as [s|s s' s'' H IH Hstep].
  - split; [apply table_grows_refl|split; reflexivity].
  - destruct IH as (G & Hu & Hs).
    destruct (step_keeps _ _ Hstep) as (_ & Hs' & Hu' & _).
    split; [|split; congruence].
    eapply table_grows_trans; [exact Hu|exact Hs|exact G|].
    apply step_table. exact Hstep.
Qed.

Lemma table_only_grows_witness :
  exists rows,
    confirmed_orders_table (process_message 9 (py "sim") session_confirming).1 =
      confirmed_orders_table session_confirming ++ rows /\
    Forall (written_by session_confirming) rows.
Proof.
  exact (table_only_grows _ _
           (steps_step _ _ _ (steps_refl session_confirming)
              (step_process_message 9 (py "sim") session_confirming))).
Defined.

(** *** Messages that make [process_message] raise *)

Lemma deepcopy_length (db : list nat) (h : list row) copy h' :
  valid h db -> deepcopy db h = (copy, h') -> length copy = length db.
Proof.
  intros Hv Hdc. destruct (deepcopy_spec db h copy h' Hv Hdc) as (_ & _ & _ & Hr & _).
  apply (f_equal length) in Hr. rewrite !rows_of_length in Hr. exact Hr.
Qed.

Lemma reachable_sizes s :
  reachable s ->
  length (products_db s) = length global_products_db /\
  length (current_db s) = length global_products_db.
Proof.
  induction 1 as [session_id user_id now h table F N|s s' Hr IH Hstep].
  - unfold init.
    pose proof (valid_frame _ _ _ F global_valid) as Hv.
    destruct (deepcopy global_products_db h) as [pdb h1] eqn:H1.
    destruct (deepcopy_spec _ _ _ _ Hv H1) as (F1 & _).
    pose proof (valid_frame _ _ _ F1 Hv) as Hv1.
    destruct (deepcopy global_products_db h1) as [cdb h2] eqn:H2.
    session_cbn.
    split; [exact (deepcopy_length _ _ _ _ Hv H1)|exact (deepcopy_length _ _ _ _ Hv1 H2)].
  - destruct IH as [Hp Hc].
    pose proof (reachable_shape s Hr) as (V1 & V2 & _).
    pose proof (step_keeps _ _ Hstep) as (Hpk & _).
    split; [congruence|].
    destruct (step_cases _ _ Hstep)
      as [Hn|(os & s0 & _ & _ & C0 & _ & _ & C1)].
    2:{ destruct (add_orders_frame os s0) as (_ & C & _). congruence. }
    destruct (step_nonneg_effect _ _ Hn) as [_ E].
    destruct E as [E1 E2|E|msg r E1 E2|E1 E2 E3 E4].
    + congruence.
    + rewrite (deepcopy_length _ _ _ _ V1 E). exact Hp.
    + destruct E2 as [E2|[orders ->]]; [congruence|].
      pose proof (parse_order_interactive_heap msg _ _ V2) as Hh.
      rewrite E1 in Hh. destruct Hh as (_ & _ & _ & _ & Hle & _).
      apply Forall2_length in Hle. rewrite !rows_of_length in Hle. congruence.
    + congruence.
Qed.

Lemma parse_current_raises message s s1 :
  parse_current message s = (s1, Raise ValueError) ->
  current_db s = [] \/
  Exists (fun t => bad_digit_token t = true) (tokenize message).
Proof.
  intros Hp. apply parse_current_effect in Hp as [Hp _].
  apply (proj1 (parse_order_interactive_raises_iff message (current_db s) (memory s))).
  rewrite Hp. reflexivity.
Qed.

Lemma parse_current_raises_iff message s s1 r :
  current_db s <> [] ->
  parse_current message s = (s1, r) ->
  r = Raise ValueError <->
  Exists (fun t => bad_digit_token t = true) (tokenize message).
Proof.
  intros Hne Hp. apply parse_current_effect in Hp as [Hp _].
  pose proof (parse_order_interactive_raises_iff message (current_db s) (memory s))
    as H.
  rewrite Hp in H. cbn [snd] in H. rewrite H. split; [|auto].
  intros [E|E]; [contradiction|exact E].
Qed.

Lemma parse_current_same message s s1 r :
  valid (memory s) (current_db s) ->
  parse_current message s = (s1, r) ->
  state s1 = state s /\ active_timer s1 = active_timer s /\
  current_rows s1 = current_rows s /\
  confirmed_orders_table s1 = confirmed_orders_table s.
Proof.
  intros V Hp. apply parse_current_effect in Hp as [Hp Hs1].
  pose proof (parse_order_interactive_heap message _ _ V) as Hh.
  rewrite Hp in Hh. destruct Hh as (F & _).
  rewrite Hs1. unfold current_rows. session_cbn.
  rewrite (rows_of_frame _ _ _ F V). repeat split.
Qed.

(** X15. [process_message] on a session of a run and a message of Latin-1
    characters (and combining marks).  With a cancel phrase, and in the
    states [waiting_for_next] and [option], it returns.  Where it hands
    the message to the extraction, it raises [ValueError] exactly when a
    token of the message is accepted by [str.isdigit] and rejected by
    [int], and returns otherwise; when it raises, the session keeps its
    state, its timer, its working catalog and the table.  "2 mangas ²"
    sent to a session that is collecting makes it raise. *)
Theorem process_message_raises now message s :
  reachable s -> Forall latin1_or_mark message ->
  (_check_cancel_command (strip (lower message)) = true \/
   state s = waiting_for_next \/ state s = option_ ->
   exists reply, (process_message now message s).2 = Ok reply) /\
  (runs_extraction s message = true ->
   ((process_message now message s).2 = Raise ValueError <->
    Exists (fun t => bad_digit_token t = true) (tokenize message)) /\
   (Forall (fun t => bad_digit_token t = false) (tokenize message) ->
    exists reply, (process_message now message s).2 = Ok reply) /\
   ((process_message now message s).2 = Raise ValueError ->
    state (process_message now message s).1 = state s /\
    active_timer (process_message now message s).1 = active_timer s /\
    current_rows (process_message now message s).1 = current_rows s /\
    confirmed_orders_table (process_message now message s).1 =
      confirmed_orders_table s)) /\
  (process_message 9 (py "2 mangas ²") session_with_mangas).2 = Raise ValueError.
Proof.
  intros Hr _. split; [|split; [|vm_compute; reflexivity]].
  - destruct (reachable_wf s Hr) as (_ & _ & _ & Hopt & _).
    unfold process_message. cbv zeta.
    set (ml := strip (lower message)).
    set (s0 := set_last_activity now s).
    assert (state s0 = state s) as Hst by reflexivity.
    assert (waiting_for_option s0 = waiting_for_option s) as Hw by reflexivity.
    clearbody s0. rewrite <- Hst, <- Hw in *. clear Hst Hw.
    intros H. destruct (_check_cancel_command ml); [eexists; reflexivity|].
    destruct H as [H|[H|H]]; [discriminate| |].
    + rewrite H. rewrite bool_decide_eq_true_2 by reflexivity.
      eexists; reflexivity.
    + rewrite H. rewrite bool_decide_eq_false_2 by discriminate.
      rewrite bool_decide_eq_true_2 by reflexivity. rewrite (Hopt H). cbn [andb].
      destruct (str_eqb ml (py "1")); [|destruct (str_eqb ml (py "2"))];
        eexists; reflexivity.
  - destruct (reachable_sizes s Hr) as [_ Hsize].
    assert (current_db s <> []) as Hne.
    { intros E. rewrite E in Hsize. vm_compute in Hsize. discriminate. }
    destruct (reachable_shape s Hr) as (_ & V & _).
    unfold runs_extraction. cbv zeta. unfold process_message. cbv zeta.
    set (ml := strip (lower message)).
    set (s0 := set_last_activity now s).
    assert (state s0 = state s) as Hst by reflexivity.
    assert (current_db s0 = current_db s) as Hdb by reflexivity.
    assert (memory s0 = memory s) as Hmem by reflexivity.
    assert (active_timer s0 = active_timer s) as Htm by reflexivity.
    assert (current_rows s0 = current_rows s) as Hrows by reflexivity.
    assert (confirmed_orders_table s0 = confirmed_orders_table s) as Htab
      by reflexivity.
    clearbody s0. rewrite <- Hst, <- Hdb, <- Hmem, <- Htm, <- Hrows, <- Htab in *.
    clear Hst Hdb Hmem Htm Hrows Htab.
    intros H. apply andb_true_iff in H as [Hc H]. apply negb_true_iff in Hc.
    rewrite Hc.
    assert (forall (k : OrderSession.t -> list order -> catalog ->
                        OrderSession.t * result reply),
              (forall s1 orders db, exists reply, (k s1 orders db).2 = Ok reply) ->
              let out := match parse_current message s0 with
                         | (s1, Raise e) => (s1, Raise e)
                         | (s1, Ok (orders, db)) => k s1 orders db
                         end in
              (out.2 = Raise ValueError <->
               Exists (fun t => bad_digit_token t = true) (tokenize message)) /\
              (Forall (fun t => bad_digit_token t = false) (tokenize message) ->
               exists reply, out.2 = Ok reply) /\
              (out.2 = Raise ValueError ->
               state out.1 = state s0 /\ active_timer out.1 = active_timer s0 /\
               current_rows out.1 = current_rows s0 /\
               confirmed_orders_table out.1 = confirmed_orders_table s0)) as Hk.
    { intros k Hok out. subst out.
      destruct (parse_current message s0) as [s1 r] eqn:Hp.
      pose proof (parse_current_raises_iff _ _ _ _ Hne Hp) as Hiff.
      pose proof (parse_current_same _ _ _ _ V Hp) as Hsame.
      destruct r as [[orders db]|[]]; cbn [fst snd].
      - destruct (Hok s1 orders db) as [reply Hreply].
        split; [|split].
        + rewrite Hreply, <- Hiff. split; discriminate.
        + intros _. exists reply. exact Hreply.
        + rewrite Hreply. discriminate.
      - split; [|split].
        + rewrite <- Hiff. split; reflexivity.
        + intros Hgood. exfalso.
          pose proof (proj1 Hiff eq_refl) as Hex.
          apply Exists_exists in Hex as (t & Hin & Hb).
          rewrite Forall_forall in Hgood.
          rewrite (Hgood t Hin) in Hb. discriminate.
        + intros _. exact Hsame. }
    apply orb_true_iff in H as [H|H].
    + apply andb_true_iff in H as [H Hno]. apply andb_true_iff in H as [Hs Hyes].
      apply bool_decide_eq_true in Hs. apply negb_true_iff in Hyes, Hno.
      rewrite Hs. repeat first
        [ rewrite bool_decide_eq_true_2 by reflexivity
        | rewrite bool_decide_eq_false_2 by discriminate ].
      cbn [andb]. rewrite Hyes, Hno.
      rewrite <- Hs.
      apply (Hk (fun s1 orders db =>
                   match orders with
                   | _ :: _ => _
                   | [] => _
                   end)).
      intros s1 [|o os] db; eexists; reflexivity.
    + apply andb_true_iff in H as [Hs Hno].
      apply bool_decide_eq_true in Hs. apply negb_true_iff in Hno.
      rewrite Hs. repeat first
        [ rewrite bool_decide_eq_true_2 by reflexivity
        | rewrite bool_decide_eq_false_2 by discriminate ].
      cbn [andb]. rewrite Hno.
      rewrite <- Hs.
      apply (Hk (fun s1 orders db =>
                   match orders with
                   | _ :: _ => _
                   | [] => _
                   end)).
      intros s1 [|o os] db; eexists; reflexivity.
Qed.

Lemma process_message_raises_witness :
  Forall latin1_or_mark (py "3 queijos") /\
  (_check_cancel_command (strip (lower (py "3 queijos"))) = true \/
   state session_with_mangas = waiting_for_next \/
   state session_with_mangas = option_ ->
   exists reply,
     (process_message 9 (py "3 queijos") session_with_mangas).2 = Ok reply) /\
  (runs_extraction session_with_mangas (py "3 queijos") = true ->
   ((process_message 9 (py "3 queijos") session_with_mangas).2
      = Raise ValueError <->
    Exists (fun t => bad_digit_token t = true) (tokenize (py "3 queijos"))) /\
   (Forall (fun t => bad_digit_token t = false) (tokenize (py "3 queijos")) ->
    exists reply,
      (process_message 9 (py "3 queijos") session_with_mangas).2 = Ok reply) /\
   ((process_message 9 (py "3 queijos") session_with_mangas).2
      = Raise ValueError ->
    state (process_message 9 (py "3 queijos") session_with_mangas).1 =
      state session_with_mangas /\
    active_timer (process_message 9 (py "3 queijos") session_with_mangas).1 =
      active_timer session_with_mangas /\
    current_rows (process_message 9 (py "3 queijos") session_with_mangas).1 =
      current_rows session_with_mangas /\
    confirmed_orders_table
      (process_message 9 (py "3 queijos") session_with_mangas).1 =
      confirmed_orders_table session_with_mangas)) /\
  (process_message 9 (py "2 mangas ²") session_with_mangas).2 = Raise ValueError.
Proof.
  assert (Forall latin1_or_mark (py "3 queijos")) as H.
  { unfold latin1_or_mark. apply (bool_decide_unpack _). vm_compute. exact I. }
  split; [exact H|].
  exact (process_message_raises 9 (py "3 queijos") session_with_mangas
           session_with_mangas_reachable H).
Defined.

(** ** The routes *)

Lemma dict_get_set_eq {V} (d : dict V) k v : dict_get (dict_set d k v) k = Some v.
Proof.
  induction d as [|[k' v'] d IH]; simpl.
  - unfold str_eqb. rewrite bool_decide_eq_true_2 by reflexivity. reflexivity.
  - unfold str_eqb. destruct (bool_decide_reflect (k = k')) as [->|Hk]; simpl.
    + unfold str_eqb. rewrite bool_decide_eq_true_2 by reflexivity. reflexivity.
    + unfold str_eqb. rewrite bool_decide_eq_false_2 by exact Hk. exact IH.
Qed.

Lemma dict_get_set_ne {V} (d : dict V) k k0 v :
  k0 <> k -> dict_get (dict_set d k v) k0 = dict_get d k0.
Proof.
  intros Hne. induction d as [|[k' v'] d IH]; simpl.
  - unfold str_eqb. rewrite bool_decide_eq_false_2 by exact Hne. reflexivity.
  - unfold str_eqb at 1. destruct (bool_decide_reflect (k = k')) as [->|Hk]; simpl.
    + unfold str_eqb. rewrite bool_decide_eq_false_2 by exact Hne. reflexivity.
    + rewrite IH. reflexivity.
Qed.

Lemma dict_set_length_new {V} (d : dict V) k v :
  dict_get d k = None -> length (dict_set d k v) = S (length d).
Proof.
  induction d as [|[k' v'] d IH]; simpl; [reflexivity|].
  unfold str_eqb. destruct (bool_decide_reflect (k = k')) as [->|Hk]; [discriminate|].
  intros H. simpl. rewrite IH by exact H. reflexivity.
Qed.

Lemma dict_set_length_old {V} (d : dict V) k v v0 :
  dict_get d k = Some v0 -> length (dict_set d k v) = length d.
Proof.
  induction d as [|[k' v'] d IH]; simpl; [discriminate|].
  unfold str_eqb. destruct (bool_decide_reflect (k = k')) as [->|Hk]; [reflexivity|].
  intros H. simpl. rewrite IH by exact H. reflexivity.
Qed.

Lemma init_rows_zero session_id user_id now (h : list row) table :
  frame initial_heap h ->
  Forall (fun r => row_qty r = 0)
         (current_rows (OrderSession.init session_id user_id now h table)).
Proof.
  intros F. unfold OrderSession.init, current_rows.
  pose proof (valid_frame _ _ _ F global_valid) as V.
  destruct (deepcopy global_products_db h) as [pdb h1] eqn:E1.
  destruct (deepcopy global_products_db h1) as [cdb h2] eqn:E2.
  destruct (deepcopy_spec _ _ _ _ V E1) as (F1 & _).
  pose proof (valid_frame _ _ _ F1 V) as V'.
  destruct (deepcopy_spec _ _ _ _ V' E2) as (_ & _ & _ & Hr2 & _).
  session_cbn. rewrite Hr2, (rows_of_frame _ _ _ F1 V), (rows_of_frame _ _ _ F global_valid).
  exact global_rows_zero.
Qed.

Lemma init_fields session_id user_id now (h : list row) table :
  let s := OrderSession.init session_id user_id now h table in
  OrderSession.session_id s = session_id /\ OrderSession.user_id s = user_id /\
  state s = waiting_for_next /\ reminder_count s = 0 /\
  message_queue s = [] /\ confirmed_orders s = [] /\ pending_orders s = [] /\
  active_timer s = None /\ confirmed_orders_table s = table.
Proof.
  cbv zeta. unfold OrderSession.init. split_deepcopy. session_cbn. repeat split.
Qed.

Lemma no_items_no_orders s :
  Forall (fun r => row_qty r = 0) (current_rows s) -> get_current_orders s = [].
Proof.
  intros Hz. unfold get_current_orders.
  assert (filter (fun r => 0 <? row_qty r) (current_rows s) = []) as ->;
    [|reflexivity].
  induction Hz as [|r rows Hr Hrows IH]; [reflexivity|].
  rewrite filter_cons_False; [exact IH|]. rewrite Hr. cbn. auto.
Qed.

(** X16. [get_user_session] creates a session under a key that is not in
    the registry and returns the session stored under a key that is.
    Called without a session identifier, as every route calls it, it
    uses the fresh [uuid4]: the session it returns is new, in state
    [waiting_for_next], whatever sessions the user already has, and the
    registry has one entry more. *)
Theorem get_user_session_fresh user_id uuid4 now p :
  dict_get (user_sessions p) uuid4 = None ->
  let '(p', s) := get_user_session user_id None uuid4 now p in
  s = OrderSession.init uuid4 user_id now (process_heap p) (process_table p) /\
  state s = waiting_for_next /\
  dict_get (user_sessions p') uuid4 = Some s /\
  (forall k, k <> uuid4 ->
     dict_get (user_sessions p') k = dict_get (user_sessions p) k) /\
  length (user_sessions p') = S (length (user_sessions p)) /\
  (forall user_id' now',
     get_user_session user_id' (Some uuid4) [] now' p' = (p', load p' s)).
Proof.
  intros Hfresh. unfold get_user_session. cbn [truthy]. rewrite Hfresh.
  set (s := OrderSession.init uuid4 user_id now (process_heap p) (process_table p)).
  destruct (init_fields uuid4 user_id now (process_heap p) (process_table p))
    as (Hid & _ & Hst & _).
  fold s in Hid, Hst. unfold store. cbn [user_sessions]. rewrite Hid.
  split; [reflexivity|]. split; [exact Hst|].
  split; [apply dict_get_set_eq|].
  split; [intros k Hk; apply dict_get_set_ne; exact Hk|].
  split; [apply dict_set_length_new; exact Hfresh|].
  intros user_id' now'. cbn [user_sessions].
  destruct uuid4 as [|c u].
  - cbn [truthy]. rewrite dict_get_set_eq. reflexivity.
  - cbn [truthy from_option id]. rewrite dict_get_set_eq. reflexivity.
Qed.

Lemma get_user_session_fresh_witness :
  let '(p', s) := get_user_session (py "ana") None (py "0b3e-41") 7
                                   (Process [] initial_heap []) in
  s = OrderSession.init (py "0b3e-41") (py "ana") 7 initial_heap [] /\
  state s = waiting_for_next /\
  dict_get (user_sessions p') (py "0b3e-41") = Some s /\
  (forall k, k <> py "0b3e-41" -> dict_get (user_sessions p') k = None) /\
  length (user_sessions p') = 1%nat /\
  (forall user_id' now',
     get_user_session user_id' (Some (py "0b3e-41")) [] now' p' = (p', load p' s)).
Proof.
  exact (get_user_session_fresh (py "ana") (py "0b3e-41") 7
           (Process [] initial_heap []) eq_refl).
Defined.

(** The first message of a session. *)
Lemma first_message now text s :
  session_inv s -> state s = waiting_for_next ->
  Forall (fun r => row_qty r = 0) (current_rows s) ->
  let '(s', r) := process_message now text s in
  (exists result, r = Ok result) /\
  (state s' = option_ \/ state s' = waiting_for_next) /\
  get_current_orders s' = [] /\
  confirmed_orders s' = confirmed_orders s /\
  pending_orders s' = pending_orders s /\
  confirmed_orders_table s' = confirmed_orders_table s /\
  session_id s' = session_id s.
Proof.
  intros Hinv Hs Hz. unfold process_message. cbv zeta.
  destruct (_check_cancel_command _).
  - unfold start_new_conversation. session_cbn.
    destruct (deepcopy _ _) as [copy h'] eqn:Hdc. session_cbn.
    destruct (reset_rows s copy h' (session_inv_shape s Hinv) Hdc) as [Hz' _].
    split; [eexists; reflexivity|]. split; [right; reflexivity|].
    split; [|repeat split]. apply no_items_no_orders.
    unfold current_rows. session_cbn. exact Hz'.
  - decide_state Hs. split; [eexists; reflexivity|]. split; [left; reflexivity|].
    split; [|repeat split]. apply no_items_no_orders. exact Hz.
Qed.

(** X17. [send_message] answers every message from a session it has just
    created, because it asks for the session without a session
    identifier: when [uuid4] is fresh, the reply to a message that is
    not blank always has the status "option" or "waiting_for_next" and
    no current, confirmed or pending order; nothing is written to the
    table and the registry has one session more.  A blank message is
    answered with an error and changes nothing. *)
Theorem send_message_starts_over r uuid4 now p :
  dict_get (user_sessions p) uuid4 = None ->
  frame initial_heap (process_heap p) -> nonneg_heap (process_heap p) ->
  let '(p', answer) := send_message r uuid4 now p in
  if bool_decide (strip (from_option id [] (json_message r)) = []) then
    p' = p /\ answer = Ok (JsonError (py "Mensagem vazia"))
  else
    exists body,
      answer = Ok (Json body) /\
      (resp_status body = option_ \/ resp_status body = waiting_for_next) /\
      resp_current_orders body = [] /\
      resp_confirmed_orders body = [] /\
      resp_pending_orders body = [] /\
      process_table p' = process_table p /\
      length (user_sessions p') = S (length (user_sessions p)).
Proof.
  intros Hfresh F N. unfold send_message. cbv zeta.
  destruct (bool_decide (strip (from_option id [] (json_message r)) = []));
    [split; reflexivity|].
  unfold get_user_session. cbn [truthy]. rewrite Hfresh.
  set (s := OrderSession.init uuid4 (request_user_id r) now (process_heap p)
                              (process_table p)).
  destruct (init_fields uuid4 (request_user_id r) now (process_heap p)
                        (process_table p))
    as (Hid & _ & Hst & _ & _ & Hco & Hpo & _ & Htab).
  fold s in Hid, Hst, Hco, Hpo, Htab.
  pose proof (first_message now (strip (from_option id [] (json_message r))) s
                (init_inv _ _ _ _ _ F N) Hst (init_rows_zero _ _ _ _ _ F)) as H.
  destruct (process_message now _ s) as [s' res].
  destruct H as ([result ->] & Hstate & Hcur & Hco' & Hpo' & Htab' & Hid').
  eexists. split; [reflexivity|]. cbn [resp_status resp_current_orders
    resp_confirmed_orders resp_pending_orders].
  split; [exact Hstate|]. split; [exact Hcur|].
  split; [congruence|]. split; [congruence|].
  unfold store. cbn [process_table user_sessions].
  split; [congruence|].
  rewrite Hid', Hid.
  rewrite (dict_set_length_old _ uuid4 s' s) by apply dict_get_set_eq.
  apply dict_set_length_new. exact Hfresh.
Qed.

Lemma frame_take (h h' : list row) : take (length h) h' = h -> frame h h'.
Proof.
  intros E l Hl. transitivity (take (length h) h' !! l).
  - symmetry. apply lookup_take_lt. exact Hl.
  - rewrite E. reflexivity.
Qed.

Lemma send_message_starts_over_witness :
  let p := (send_message (Request (Some (py "1")) (Some (py "ana")) None)
              (py "0b3e-41") 7 (Process [] initial_heap [])).1 in
  let '(p', answer) :=
    send_message (Request (Some (py "2 mangas")) (Some (py "ana")) None)
                 (py "77aa-02") 9 p in
  if bool_decide (strip (from_option id [] (Some (py "2 mangas"))) = []) then
    p' = p /\ answer = Ok (JsonError (py "Mensagem vazia"))
  else
    exists body,
      answer = Ok (Json body) /\
      (resp_status body = option_ \/ resp_status body = waiting_for_next) /\
      resp_current_orders body = [] /\
      resp_confirmed_orders body = [] /\
      resp_pending_orders body = [] /\
      process_table p' = process_table p /\
      length (user_sessions p') = S (length (user_sessions p)).
Proof.
  cbv zeta.
  apply (send_message_starts_over
           (Request (Some (py "2 mangas")) (Some (py "ana")) None) (py "77aa-02") 9).
  - vm_compute. reflexivity.
  - apply frame_take. vm_compute. reflexivity.
  - apply (bool_decide_unpack _). vm_compute. exact I.
Defined.

(** X18. [get_updates] reads the queue of a session it has just created
    (for a fresh [uuid4]): it never has a message to deliver, and it
    always reports the state "waiting_for_next", no reminder sent and no
    order, whatever was sent before; the summaries and reminders that
    the timers of other sessions queue are not delivered by it. *)
Theorem get_updates_has_no_message r uuid4 now p :
  dict_get (user_sessions p) uuid4 = None ->
  frame initial_heap (process_heap p) ->
  let '(p', body) := get_updates r uuid4 now p in
  upd_has_message body = false /\ upd_bot_message body = None /\
  upd_state body = waiting_for_next /\ upd_reminders_sent body = 0 /\
  upd_current_orders body = [] /\ upd_confirmed_orders body = [] /\
  upd_pending_orders body = [] /\
  process_table p' = process_table p /\
  length (user_sessions p') = S (length (user_sessions p)).
Proof.
  intros Hfresh F. unfold get_updates. cbv zeta.
  unfold get_user_session. cbn [truthy]. rewrite Hfresh.
  set (s := OrderSession.init uuid4 (request_user_id r) now (process_heap p)
                              (process_table p)).
  destruct (init_fields uuid4 (request_user_id r) now (process_heap p)
                        (process_table p))
    as (Hid & _ & Hst & Hrc & Hq & Hco & Hpo & _ & Htab).
  fold s in Hid, Hst, Hrc, Hq, Hco, Hpo, Htab.
  unfold get_pending_message. rewrite Hq.
  cbn [upd_has_message upd_bot_message upd_state upd_reminders_sent
       upd_current_orders upd_confirmed_orders upd_pending_orders truthy].
  repeat split; try assumption.
  - apply no_items_no_orders. apply init_rows_zero. exact F.
  - unfold store. cbn [user_sessions]. rewrite Hid.
    rewrite (dict_set_length_old _ uuid4 s s) by apply dict_get_set_eq.
    apply dict_set_length_new. exact Hfresh.
Qed.

Lemma get_updates_has_no_message_witness :
  let p := (send_message (Request (Some (py "1")) (Some (py "ana")) None)
              (py "0b3e-41") 7 (Process [] initial_heap [])).1 in
  let '(p', body) :=
    get_updates (Request None (Some (py "ana")) None) (py "77aa-02") 9 p in
  upd_has_message body = false /\ upd_bot_message body = None /\
  upd_state body = waiting_for_next /\ upd_reminders_sent body = 0 /\
  upd_current_orders body = [] /\ upd_confirmed_orders body = [] /\
  upd_pending_orders body = [] /\
  process_table p' = process_table p /\
  length (user_sessions p') = S (length (user_sessions p)).
Proof.
  cbv zeta.
  apply (get_updates_has_no_message (Request None (Some (py "ana")) None)
           (py "77aa-02") 9).
  - vm_compute. reflexivity.
  - apply frame_take. vm_compute. reflexivity.
Defined.

(** ** The queries on the table *)

Lemma keys_dict_set {V} (d : dict V) k v :
  keys (dict_set d k v) = if dict_in k d then keys d else keys d ++ [k].
Proof.
  unfold dict_in, keys. induction d as [|[k' v'] d IH]; simpl; [reflexivity|].
  destruct (str_eqb k k'); simpl; [reflexivity|].
  rewrite IH. destruct (dict_get d k); reflexivity.
Qed.

Lemma dict_in_elem {V} (d : dict V) k : dict_in k d = false -> k ∉ keys d.
Proof.
  unfold dict_in. destruct (dict_get d k) eqn:E; [discriminate|].
  intros _. apply dict_get_None. exact E.
Qed.

Lemma dict_set_NoDup {V} (d : dict V) k v :
  NoDup (keys d) -> NoDup (keys (dict_set d k v)).
Proof.
  intros H. rewrite keys_dict_set. destruct (dict_in k d) eqn:E; [exact H|].
  apply NoDup_app. split; [exact H|]. split; [|apply NoDup_singleton].
  intros x Hx Hk. apply list_elem_of_singleton in Hk. subst x.
  exact (dict_in_elem d k E Hx).
Qed.

Lemma total_quantity_cons p r l :
  total_quantity p (r :: l) =
  (if str_eqb (sql_product r) p then sql_quantity r else 0) + total_quantity p l.
Proof. reflexivity. Qed.

Lemma total_quantity_app p l l' :
  total_quantity p (l ++ l') = total_quantity p l + total_quantity p l'.
Proof.
  unfold total_quantity. induction l as [|r l IH]; simpl; [lia|]. rewrite IH. lia.
Qed.

Lemma total_quantity_none p l :
  existsb (fun r => str_eqb (sql_product r) p) l = false -> total_quantity p l = 0.
Proof.
  unfold total_quantity. induction l as [|r l IH]; simpl; [reflexivity|].
  intros H. apply orb_false_iff in H as [H1 H2]. rewrite H1, IH by exact H2. lia.
Qed.

(** The groups of [sum_by_product]. *)
Lemma sum_by_product_spec rows :
  NoDup (keys (sum_by_product rows)) /\
  forall p, dict_get (sum_by_product rows) p =
            if existsb (fun r => str_eqb (sql_product r) p) rows
            then Some (total_quantity p rows) else None.
Proof.
  unfold sum_by_product.
  assert (forall l (acc : dict Z) done,
            NoDup (keys acc) ->
            (forall p, dict_get acc p =
                       if existsb (fun r => str_eqb (sql_product r) p) done
                       then Some (total_quantity p done) else None) ->
            NoDup (keys (fold_left (fun groups r =>
                      dict_set groups (sql_product r)
                        (from_option id 0 (dict_get groups (sql_product r))
                         + sql_quantity r)) l acc)) /\
            forall p, dict_get (fold_left (fun groups r =>
                      dict_set groups (sql_product r)
                        (from_option id 0 (dict_get groups (sql_product r))
                         + sql_quantity r)) l acc) p =
                      if existsb (fun r => str_eqb (sql_product r) p) (done ++ l)
                      then Some (total_quantity p (done ++ l)) else None) as H.
  { induction l as [|r l IH]; intros acc done Hnd Hacc.
    - rewrite app_nil_r. split; [exact Hnd|exact Hacc].
    - cbn [fold_left].
      replace (done ++ r :: l) with ((done ++ [r]) ++ l)
        by (rewrite <- app_assoc; reflexivity).
      apply IH; [apply dict_set_NoDup; exact Hnd|].
      intros p. rewrite existsb_app, total_quantity_app. cbn [existsb total_quantity foldr].
      rewrite orb_false_r, Z.add_0_r.
      unfold str_eqb at 2 3.
      destruct (bool_decide_reflect (sql_product r = p)) as [<-|Hne].
      + rewrite dict_get_set_eq, Hacc, orb_true_r.
        destruct (existsb _ done) eqn:E; simpl; [reflexivity|].
        rewrite (total_quantity_none _ _ E). reflexivity.
      + rewrite dict_get_set_ne by congruence. rewrite Hacc, orb_false_r.
        rewrite Z.add_0_r. reflexivity. }
  destruct (H rows [] [] (NoDup_nil_2) (fun p => eq_refl)) as [H1 H2].
  split; [exact H1|exact H2].
Qed.

Lemma dict_get_notin {V} (d : dict V) k : k ∉ keys d -> dict_get d k = None.
Proof.
  intros H. destruct (dict_get d k) as [v|] eqn:E; [|reflexivity].
  exfalso. apply H. apply dict_get_elem_of in E. unfold keys.
  apply list_elem_of_fmap. exists (k, v). auto.
Qed.

Lemma dict_get_Permutation {V} (d d' : dict V) k :
  NoDup (keys d) -> d ≡ₚ d' -> dict_get d' k = dict_get d k.
Proof.
  intros Hnd Hp.
  assert (keys d ≡ₚ keys d') as Hk by (unfold keys; rewrite Hp; reflexivity).
  assert (NoDup (keys d')) as Hnd' by (rewrite <- Hk; exact Hnd).
  destruct (dict_get d k) as [v|] eqn:E.
  - apply dict_get_NoDup; [exact Hnd'|]. rewrite <- Hp.
    apply dict_get_elem_of. exact E.
  - apply dict_get_notin. rewrite <- Hk. apply dict_get_None. exact E.
Qed.

(** The loop that fills [main_orders]. *)
Lemma main_orders_fold (data : list (str * Z)) : forall acc p,
  NoDup (keys data) ->
  dict_get (fold_left main_step data acc) p =
  match dict_get data p with
  | Some q => if negb (bool_decide (p = [])) && negb (q =? 0) then Some q
              else dict_get acc p
  | None => dict_get acc p
  end.
Proof.
  induction data as [|[k v] data IH]; intros acc p Hnd; [reflexivity|].
  cbn [keys map fst] in Hnd. apply NoDup_cons in Hnd as [Hk Hnd].
  cbn [fold_left]. rewrite IH by exact Hnd. unfold main_step. cbn [fst snd].
  cbn [dict_get]. unfold str_eqb.
  destruct (bool_decide_reflect (p = k)) as [->|Hne].
  - rewrite (dict_get_notin data k Hk).
    destruct (negb (bool_decide (k = [])) && negb (v =? 0)); [|reflexivity].
    apply dict_get_set_eq.
  - assert (dict_get (if negb (bool_decide (k = [])) && negb (v =? 0)
                      then dict_set acc k v else acc) p = dict_get acc p) as ->.
    { destruct (_ && _); [|reflexivity]. apply dict_get_set_ne. exact Hne. }
    reflexivity.
Qed.

(** ['main_orders'] of [get_global_orders]: for every product, the sum
    of the quantities of the confirmed rows of the user. *)
Lemma main_orders_get ob og s p :
  (forall l, ob l ≡ₚ l) ->
  get0 (get_global_orders ob og s).1 p =
  if bool_decide (p = []) then 0
  else total_quantity p
         (filter (fun r => is_main_order (user_id s) r) (confirmed_orders_table s)).
Proof.
  intros Hob. unfold get_global_orders, get0. cbn [fst].
  set (rows := filter (fun r => is_main_order (user_id s) r) (confirmed_orders_table s)).
  destruct (sum_by_product_spec rows) as [Hnd Hget].
  rewrite main_orders_fold.
  2:{ unfold keys. rewrite (Hob (sum_by_product rows)). exact Hnd. }
  rewrite (dict_get_Permutation (sum_by_product rows) _ p Hnd)
    by (symmetry; apply Hob).
  rewrite Hget. cbn [dict_get].
  destruct (existsb _ rows) eqn:E.
  - destruct (bool_decide (p = [])); cbn [negb andb from_option]; [reflexivity|].
    destruct (total_quantity p rows =? 0) eqn:E0; cbn [negb from_option id].
    + apply Z.eqb_eq in E0. lia.
    + reflexivity.
  - rewrite (total_quantity_none _ _ E). destruct (bool_decide (p = [])); reflexivity.
Qed.

Lemma auto_step_get d r g p :
  (dict_get (auto_step d r) g ≫= fun inner => dict_get inner p) =
  if str_eqb (sql_order_group r) g && str_eqb (sql_product r) p
  then Some (sql_quantity r)
  else dict_get d g ≫= fun inner => dict_get inner p.
Proof.
  unfold auto_step. cbv zeta.
  set (G := sql_order_group r).
  set (d' := if dict_in G d then d else dict_set d G []).
  assert (from_option id [] (dict_get d' G) = from_option id [] (dict_get d G)
          /\ forall k, k <> G -> dict_get d' k = dict_get d k) as [HG Hother].
  { subst d'. unfold dict_in. destruct (dict_get d G) eqn:E.
    - rewrite E. split; reflexivity.
    - rewrite dict_get_set_eq. split; [reflexivity|].
      intros k Hk. apply dict_get_set_ne. exact Hk. }
  unfold str_eqb. destruct (bool_decide_reflect (G = g)) as [<-|Hg]; cbn [andb].
  - rewrite dict_get_set_eq. cbn [mbind option_bind]. rewrite HG.
    destruct (bool_decide_reflect (sql_product r = p)) as [<-|Hp].
    + apply dict_get_set_eq.
    + rewrite dict_get_set_ne by congruence.
      destruct (dict_get d G); reflexivity.
  - rewrite dict_get_set_ne by congruence. rewrite Hother by congruence.
    reflexivity.
Qed.

Lemma auto_step_in d r g :
  dict_in g (auto_step d r) = dict_in g d || str_eqb (sql_order_group r) g.
Proof.
  unfold auto_step. cbv zeta. set (G := sql_order_group r).
  unfold str_eqb. destruct (bool_decide_reflect (G = g)) as [<-|Hg].
  - unfold dict_in at 1. rewrite dict_get_set_eq. rewrite orb_true_r. reflexivity.
  - unfold dict_in at 1. rewrite dict_get_set_ne by congruence.
    rewrite orb_false_r. unfold dict_in at 2.
    destruct (dict_in G d) eqn:E; [reflexivity|].
    rewrite dict_get_set_ne by congruence. reflexivity.
Qed.

Lemma find_app_first {A} (f : A -> bool) (l l' : list A) :
  find f (l ++ l') = match find f l with Some x => Some x | None => find f l' end.
Proof.
  induction l as [|x l IH]; simpl; [reflexivity|]. destruct (f x); [reflexivity|exact IH].
Qed.

Lemma auto_orders_fold l : forall d g p,
  (dict_get (fold_left auto_step l d) g ≫= fun inner => dict_get inner p) =
  match find (fun r => str_eqb (sql_order_group r) g && str_eqb (sql_product r) p)
             (rev l) with
  | Some r => Some (sql_quantity r)
  | None => dict_get d g ≫= fun inner => dict_get inner p
  end.
Proof.
  induction l as [|r l IH]; intros d g p; [reflexivity|].
  cbn [fold_left rev]. rewrite IH, find_app_first.
  destruct (find _ (rev l)); [reflexivity|].
  cbn [find]. rewrite auto_step_get.
  destruct (_ && _); reflexivity.
Qed.

Lemma auto_orders_fold_in l : forall d g,
  dict_in g (fold_left auto_step l d) =
  dict_in g d || existsb (fun r => str_eqb (sql_order_group r) g) l.
Proof.
  induction l as [|r l IH]; intros d g; cbn [fold_left existsb].
  - rewrite orb_false_r. reflexivity.
  - rewrite IH, auto_step_in, orb_assoc. reflexivity.
Qed.

Lemma filter_bool_cons {A} (f : A -> bool) x (l : list A) :
  filter (fun r => f r) (x :: l) =
  if f x then x :: filter (fun r => f r) l else filter (fun r => f r) l.
Proof.
  destruct (f x) eqn:E.
  - apply filter_cons_True. rewrite E. exact I.
  - apply filter_cons_False. rewrite E. exact id.
Qed.

Lemma find_unique (l : list sql_row) g p r :
  NoDup (map group_product l) -> r ∈ l ->
  sql_order_group r = g -> sql_product r = p ->
  find (fun r => str_eqb (sql_order_group r) g && str_eqb (sql_product r) p) l
    = Some r.
Proof.
  intros Hnd Hin Hg Hp. induction l as [|x l IH]; [inversion Hin|].
  cbn [map] in Hnd. apply NoDup_cons in Hnd as [Hx Hnd]. cbn [find].
  apply elem_of_cons in Hin as [->|Hin].
  - unfold str_eqb. rewrite !bool_decide_eq_true_2 by assumption. reflexivity.
  - unfold str_eqb.
    destruct (bool_decide_reflect (sql_order_group x = g)) as [Hxg|Hxg];
      [|cbn [andb]; auto].
    destruct (bool_decide_reflect (sql_product x = p)) as [Hxp|Hxp];
      [|cbn [andb]; auto].
    exfalso. apply Hx. apply list_elem_of_fmap. exists r. split; [|exact Hin].
    unfold group_product. congruence.
Qed.

Lemma find_Permutation (l l' : list sql_row) g p :
  NoDup (map group_product l) -> l ≡ₚ l' ->
  find (fun r => str_eqb (sql_order_group r) g && str_eqb (sql_product r) p) l'
  = find (fun r => str_eqb (sql_order_group r) g && str_eqb (sql_product r) p) l.
Proof.
  intros Hnd Hp.
  assert (NoDup (map group_product l')) as Hnd' by (rewrite <- Hp; exact Hnd).
  destruct (find _ l) as [r|] eqn:E.
  - apply find_some in E as [Hin Hm]. apply andb_true_iff in Hm as [Hg Hpp].
    unfold str_eqb in Hg, Hpp. apply bool_decide_eq_true in Hg, Hpp.
    apply find_unique; try assumption. rewrite <- Hp. apply list_elem_of_In. exact Hin.
  - destruct (find _ l') as [r|] eqn:E'; [|reflexivity].
    apply find_some in E' as [Hin Hm].
    pose proof (find_none _ _ E r) as Hn. cbv beta in Hn.
    rewrite Hn in Hm; [discriminate|].
    apply list_elem_of_In. rewrite Hp. apply list_elem_of_In. exact Hin.
Qed.

Lemma total_of_unique rows g p :
  NoDup (map group_product rows) ->
  total_quantity p (filter (fun r => str_eqb (sql_order_group r) g) rows) =
  match find (fun r => str_eqb (sql_order_group r) g && str_eqb (sql_product r) p)
             rows with
  | Some r => sql_quantity r
  | None => 0
  end.
Proof.
  induction rows as [|r rows IH]; intros Hnd; [reflexivity|].
  cbn [map] in Hnd. apply NoDup_cons in Hnd as [Hr Hnd].
  rewrite filter_bool_cons. cbn [find].
  destruct (str_eqb (sql_order_group r) g) eqn:Hg; cbn [andb].
  - rewrite total_quantity_cons, IH by exact Hnd.
    destruct (str_eqb (sql_product r) p) eqn:Hp; [|lia].
    destruct (find _ rows) as [r'|] eqn:E; [|lia].
    exfalso. apply find_some in E as [Hin Hm]. apply andb_true_iff in Hm as [Hg' Hp'].
    unfold str_eqb in Hg, Hp, Hg', Hp'. apply bool_decide_eq_true in Hg, Hp, Hg', Hp'.
    apply Hr. apply list_elem_of_fmap. exists r'.
    split; [unfold group_product; congruence|apply list_elem_of_In; exact Hin].
  - apply IH. exact Hnd.
Qed.

Lemma get00_lookup (d : dict (dict Z)) g p :
  get00 d g p =
  from_option id 0 (dict_get d g ≫= fun inner => dict_get inner p).
Proof. unfold get00, get0. destruct (dict_get d g); reflexivity. Qed.

(** ['auto_orders'] of [get_global_orders], when no two auto-confirmed
    rows of the user have the same group and product: for every group
    and product, the quantity of the row. *)
Lemma auto_orders_get ob og s g p :
  (forall l, og l ≡ₚ l) ->
  NoDup (map group_product
           (filter (fun r => is_auto_order (user_id s) r) (confirmed_orders_table s))) ->
  get00 (get_global_orders ob og s).2 g p =
  total_quantity p
    (filter (fun r => str_eqb (sql_order_group r) g)
       (filter (fun r => is_auto_order (user_id s) r) (confirmed_orders_table s))).
Proof.
  intros Hog Hnd. rewrite get00_lookup. unfold get_global_orders. cbn [snd].
  set (rows := filter (fun r => is_auto_order (user_id s) r) (confirmed_orders_table s)) in *.
  rewrite auto_orders_fold.
  rewrite (find_Permutation rows (rev (og rows)) g p Hnd).
  2:{ rewrite <- (Hog rows) at 1. apply Permutation_rev. }
  rewrite (total_of_unique rows g p Hnd).
  destruct (find _ rows); reflexivity.
Qed.

Lemma auto_orders_in ob og s g :
  (forall l, og l ≡ₚ l) ->
  dict_in g (get_global_orders ob og s).2 =
  existsb (fun r => str_eqb (sql_order_group r) g)
    (filter (fun r => is_auto_order (user_id s) r) (confirmed_orders_table s)).
Proof.
  intros Hog. unfold get_global_orders. cbn [snd].
  set (rows := filter (fun r => is_auto_order (user_id s) r) (confirmed_orders_table s)).
  rewrite auto_orders_fold_in. cbn [dict_in dict_get orb].
  apply eq_true_iff_eq. rewrite !existsb_exists.
  split; intros (r & Hin & Hr); exists r; (split; [|exact Hr]).
  - apply list_elem_of_In. rewrite <- (Hog rows). apply list_elem_of_In. exact Hin.
  - apply list_elem_of_In. rewrite (Hog rows). apply list_elem_of_In. exact Hin.
Qed.

(** *** What [get_global_orders] returns *)

Lemma filter_bool_ext {A} (f g : A -> bool) (l : list A) :
  (forall r, f r = g r) ->
  filter (fun r => f r) l = filter (fun r => g r) l.
Proof.
  intros H. induction l as [|x l IH]; [reflexivity|].
  rewrite !filter_bool_cons, H, IH. reflexivity.
Qed.

Lemma filter_bool_filter {A} (f g : A -> bool) (l : list A) :
  filter (fun r => f r) (filter (fun r => g r) l) =
  filter (fun r => g r && f r) l.
Proof.
  induction l as [|x l IH]; [reflexivity|].
  rewrite !filter_bool_cons. destruct (g x); cbn [andb].
  - rewrite filter_bool_cons, IH. reflexivity.
  - exact IH.
Qed.

Lemma filter_bool_app {A} (f : A -> bool) (l l' : list A) :
  filter (fun r => f r) (l ++ l') =
  filter (fun r => f r) l ++ filter (fun r => f r) l'.
Proof. apply filter_app. Qed.

Lemma filter_bool_none {A} (f : A -> bool) (l : list A) :
  existsb f l = false -> filter (fun r => f r) l = [].
Proof.
  induction l as [|x l IH]; [reflexivity|]. cbn [existsb].
  intros H. apply orb_false_iff in H as [Hx H].
  rewrite filter_bool_cons, Hx. exact (IH H).
Qed.

Lemma filter_bool_all {A} (f : A -> bool) (l : list A) :
  forallb f l = true -> filter (fun r => f r) l = l.
Proof.
  induction l as [|x l IH]; [reflexivity|]. cbn [forallb].
  intros H. apply andb_true_iff in H as [Hx H].
  rewrite filter_bool_cons, Hx, (IH H). reflexivity.
Qed.

Lemma existsb_filter {A} (f g : A -> bool) (l : list A) :
  existsb f (filter (fun r => g r) l) = existsb (fun r => g r && f r) l.
Proof.
  induction l as [|x l IH]; [reflexivity|].
  rewrite filter_bool_cons. cbn [existsb]. destruct (g x); cbn [andb orb existsb].
  - rewrite IH. reflexivity.
  - exact IH.
Qed.

Lemma existsb_ext {A} (f g : A -> bool) (l : list A) :
  (forall r, f r = g r) -> existsb f l = existsb g l.
Proof.
  intros H. induction l as [|x l IH]; [reflexivity|].
  cbn [existsb]. rewrite H, IH. reflexivity.
Qed.

Lemma NoDup_map_filter {A B} `{EqDecision B} (k : A -> B) (f g : A -> bool)
    (l : list A) :
  (forall r, g r = true -> f r = true) ->
  NoDup (map k (filter (fun r => f r) l)) ->
  NoDup (map k (filter (fun r => g r) l)).
Proof.
  intros H. induction l as [|x l IH]; [intros _; constructor|].
  rewrite !filter_bool_cons. destruct (g x) eqn:Hg.
  - rewrite (H x Hg). cbn [map]. rewrite !NoDup_cons. intros [Hx Hnd].
    split; [|exact (IH Hnd)].
    intros Hin. apply Hx. apply list_elem_of_fmap in Hin as (r & -> & Hr).
    apply list_elem_of_fmap. exists r. split; [reflexivity|].
    apply list_elem_of_filter in Hr as [Hgr Hr]. apply list_elem_of_filter.
    split; [|exact Hr]. apply Is_true_true. apply H. apply Is_true_true. exact Hgr.
  - destruct (f x); [|exact IH]. cbn [map]. rewrite NoDup_cons.
    intros [_ Hnd]. exact (IH Hnd).
Qed.

Lemma status_ne : py "auto_confirmed" <> py "confirmed".
Proof. intros H. vm_compute in H. discriminate. Qed.

Ltac rows_bool :=
  pose proof status_ne;
  unfold is_main_order, is_auto_order, is_auto_order_of, str_eqb;
  cbn [sql_status sql_order_group sql_user_id sql_product sql_quantity];
  repeat case_bool_decide; cbn [andb negb orb];
  try reflexivity; try congruence.

Lemma main_orders_lookup ob og s p :
  (forall l, ob l ≡ₚ l) ->
  let rows :=
    filter (fun r => is_main_order (user_id s) r) (confirmed_orders_table s) in
  dict_get (get_global_orders ob og s).1 p =
  if existsb (fun r => str_eqb (sql_product r) p) rows
     && negb (bool_decide (p = [])) && negb (total_quantity p rows =? 0)
  then Some (total_quantity p rows) else None.
Proof.
  intros Hob rows. unfold get_global_orders. cbn [fst]. fold rows.
  destruct (sum_by_product_spec rows) as [Hnd Hget].
  rewrite main_orders_fold.
  2:{ unfold keys. rewrite (Hob (sum_by_product rows)). exact Hnd. }
  rewrite (dict_get_Permutation (sum_by_product rows) _ p Hnd)
    by (symmetry; apply Hob).
  rewrite Hget. cbn [dict_get].
  destruct (existsb _ rows); cbn [andb]; reflexivity.
Qed.

(** X19. What [get_global_orders] returns, whatever the order in which
    the two SELECTs return their rows: ['main_orders'] gives for every
    product with a non-empty name the sum of the quantities of the
    rows of the session's user with status "confirmed" in the group
    "main" (no key when the sum is zero, and none for the empty name),
    and ['auto_orders'] has a key for exactly the groups of the user's
    rows with status "auto_confirmed" outside "main"; when no two of
    these rows have the same group and product, the dict of a group
    gives for every product the quantity of its row. *)
Theorem get_global_orders_sums
    (order_by_total : list (str * Z) -> list (str * Z))
    (order_by_group_product : list sql_row -> list sql_row)
    (s : OrderSession.t) :
  (forall l, order_by_total l ≡ₚ l) ->
  (forall l, order_by_group_product l ≡ₚ l) ->
  let orders := get_global_orders order_by_total order_by_group_product s in
  let main_rows :=
    filter (fun r => is_main_order (user_id s) r) (confirmed_orders_table s) in
  let auto_rows :=
    filter (fun r => is_auto_order (user_id s) r) (confirmed_orders_table s) in
  (forall product, product <> [] ->
     get0 orders.1 product = total_quantity product main_rows /\
     dict_in product orders.1 =
       existsb (fun r => str_eqb (sql_product r) product) main_rows
       && negb (total_quantity product main_rows =? 0)) /\
  dict_in [] orders.1 = false /\
  (forall g, dict_in g orders.2 =
             existsb (fun r => str_eqb (sql_order_group r) g) auto_rows) /\
  (NoDup (map group_product auto_rows) ->
   forall g product,
     get00 orders.2 g product =
     total_quantity product
       (filter (fun r => str_eqb (sql_order_group r) g) auto_rows)).
Proof.
  intros Hob Hog orders main_rows auto_rows. subst orders.
  split; [|split; [|split]].
  - intros p Hp. split.
    + rewrite main_orders_get by exact Hob.
      rewrite bool_decide_eq_false_2 by exact Hp. reflexivity.
    + unfold dict_in. rewrite main_orders_lookup by exact Hob. fold main_rows.
      rewrite (bool_decide_eq_false_2 _ Hp). cbn [negb]. rewrite andb_true_r.
      destruct (existsb _ main_rows && _); reflexivity.
  - unfold dict_in. rewrite main_orders_lookup by exact Hob.
    case_bool_decide; [|congruence].
    cbn [negb]. rewrite andb_false_r. reflexivity.
  - intros g. apply auto_orders_in. exact Hog.
  - intros Hnd g p. apply auto_orders_get; assumption.
Qed.

Lemma get_global_orders_sums_witness :
  (forall l : list sql_row, id l ≡ₚ l) /\
  let orders := get_global_orders id id session_with_table in
  let main_rows :=
    filter (fun r => is_main_order (py "user") r) sample_table in
  let auto_rows :=
    filter (fun r => is_auto_order (py "user") r) sample_table in
  (forall product, product <> [] ->
     get0 orders.1 product = total_quantity product main_rows /\
     dict_in product orders.1 =
       existsb (fun r => str_eqb (sql_product r) product) main_rows
       && negb (total_quantity product main_rows =? 0)) /\
  dict_in [] orders.1 = false /\
  (forall g, dict_in g orders.2 =
             existsb (fun r => str_eqb (sql_order_group r) g) auto_rows) /\
  (NoDup (map group_product auto_rows) ->
   forall g product,
     get00 orders.2 g product =
     total_quantity product
       (filter (fun r => str_eqb (sql_order_group r) g) auto_rows)).
Proof.
  split; [intros l; reflexivity|].
  exact (get_global_orders_sums id id session_with_table
           (fun l => Permutation_refl l) (fun l => Permutation_refl l)).
Defined.

(** *** The routes that move and delete a group *)

Lemma main_rows_confirm order_group uid table product :
  total_quantity product
    (filter (fun r => is_main_order uid r) (confirm_auto_order order_group uid table)) =
  total_quantity product (filter (fun r => is_main_order uid r) table) +
  total_quantity product (filter (fun r => is_auto_order_of order_group uid r) table).
Proof.
  unfold confirm_auto_order.
  induction table as [|r table IH]; [reflexivity|].
  cbn [map]. rewrite !filter_bool_cons.
  destruct (is_auto_order_of order_group uid r) eqn:E.
  - assert (is_main_order uid r = false) as ->.
    { revert E. destruct order_group; rows_bool. }
    assert (is_main_order uid
              (SqlRow (sql_user_id r) (sql_session_id r) (sql_product r)
                      (sql_quantity r) (py "confirmed") (py "main")) = true) as ->.
    { revert E. destruct order_group; rows_bool. }
    rewrite !total_quantity_cons, IH. cbn [sql_product sql_quantity]. lia.
  - destruct (is_main_order uid r); [rewrite !total_quantity_cons|]; rewrite IH; lia.
Qed.

Lemma auto_rows_confirm order_group uid table :
  filter (fun r => is_auto_order uid r) (confirm_auto_order order_group uid table) =
  filter (fun r => is_auto_order uid r && negb (is_auto_order_of order_group uid r))
         table.
Proof.
  unfold confirm_auto_order.
  induction table as [|r table IH]; [reflexivity|].
  cbn [map]. rewrite !filter_bool_cons, IH.
  destruct (is_auto_order_of order_group uid r) eqn:E.
  - assert (is_auto_order uid
              (SqlRow (sql_user_id r) (sql_session_id r) (sql_product r)
                      (sql_quantity r) (py "confirmed") (py "main")) = false) as ->
      by rows_bool.
    rewrite andb_false_r. reflexivity.
  - rewrite andb_true_r. reflexivity.
Qed.

Lemma main_rows_delete order_group uid table :
  filter (fun r => is_main_order uid r) (delete_auto_order order_group uid table) =
  filter (fun r => is_main_order uid r) table.
Proof.
  unfold delete_auto_order. rewrite filter_bool_filter.
  apply filter_bool_ext. intros r. destruct order_group; rows_bool.
Qed.

Lemma auto_rows_delete order_group uid table :
  filter (fun r => is_auto_order uid r) (delete_auto_order order_group uid table) =
  filter (fun r => is_auto_order uid r && negb (is_auto_order_of order_group uid r))
         table.
Proof.
  unfold delete_auto_order. rewrite filter_bool_filter.
  apply filter_bool_ext. intros r. apply andb_comm.
Qed.

Lemma auto_rows_of_group g uid (table : list sql_row) :
  g <> py "main" ->
  filter (fun r => is_auto_order_of (Some g) uid r) table =
  filter (fun r => str_eqb (sql_order_group r) g)
         (filter (fun r => is_auto_order uid r) table).
Proof.
  intros Hg. rewrite filter_bool_filter. apply filter_bool_ext.
  intros r. rows_bool.
Qed.

(** The automatically confirmed rows of a user without those of one
    group: what [get_global_orders] reads of them. *)
Lemma auto_orders_without ob og s g (table' : list sql_row) :
  (forall l, og l ≡ₚ l) ->
  NoDup (map group_product
           (filter (fun r => is_auto_order (user_id s) r) (confirmed_orders_table s))) ->
  filter (fun r => is_auto_order (user_id s) r) table' =
    filter (fun r => is_auto_order (user_id s) r
                     && negb (is_auto_order_of (Some g) (user_id s) r))
           (confirmed_orders_table s) ->
  let before := get_global_orders ob og s in
  let after := get_global_orders ob og (set_confirmed_orders_table table' s) in
  dict_in g after.2 = false /\
  (forall g', g' <> g -> dict_in g' after.2 = dict_in g' before.2) /\
  (forall g' product, g' <> g ->
     get00 after.2 g' product = get00 before.2 g' product).
Proof.
  intros Hog Hnd Hrows before after. subst before after.
  assert (NoDup (map group_product
            (filter (fun r => is_auto_order (user_id s) r) table'))) as Hnd'.
  { rewrite Hrows. revert Hnd. apply NoDup_map_filter.
    intros r Hr. apply andb_true_iff in Hr as [Hr _]. exact Hr. }
  split; [|split].
  - rewrite auto_orders_in by exact Hog.
    change (user_id (set_confirmed_orders_table table' s)) with (user_id s).
    change (confirmed_orders_table (set_confirmed_orders_table table' s)) with table'.
    rewrite Hrows, existsb_filter.
    apply not_true_is_false. intros H. apply existsb_exists in H as (r & _ & H).
    revert H. rows_bool.
  - intros g' Hg'. rewrite !auto_orders_in by exact Hog.
    change (user_id (set_confirmed_orders_table table' s)) with (user_id s).
    change (confirmed_orders_table (set_confirmed_orders_table table' s)) with table'.
    rewrite Hrows, !existsb_filter. apply existsb_ext. intros r. rows_bool.
  - intros g' p Hg'. rewrite !auto_orders_get by assumption.
    change (user_id (set_confirmed_orders_table table' s)) with (user_id s).
    change (confirmed_orders_table (set_confirmed_orders_table table' s)) with table'.
    rewrite Hrows, !filter_bool_filter. f_equal. apply filter_bool_ext.
    intros r. rows_bool.
Qed.

(** X20. The route [confirm_auto_order] with a group other than "main",
    read back with [get_global_orders] (no two automatically confirmed
    rows of the user having the same group and product): the table
    keeps its length, the group is gone from ['auto_orders'], the other
    groups are as before, and for every product with a non-empty name
    ['main_orders'] has grown by the quantity the group had for it. *)
Theorem confirm_auto_order_moves_group
    (order_by_total : list (str * Z) -> list (str * Z))
    (order_by_group_product : list sql_row -> list sql_row)
    (s : OrderSession.t) (g : str) :
  (forall l, order_by_total l ≡ₚ l) ->
  (forall l, order_by_group_product l ≡ₚ l) ->
  g <> py "main" ->
  NoDup (map group_product
           (filter (fun r => is_auto_order (user_id s) r) (confirmed_orders_table s))) ->
  let table' := confirm_auto_order (Some g) (user_id s) (confirmed_orders_table s) in
  let before := get_global_orders order_by_total order_by_group_product s in
  let after := get_global_orders order_by_total order_by_group_product
                 (set_confirmed_orders_table table' s) in
  length table' = length (confirmed_orders_table s) /\
  dict_in g after.2 = false /\
  (forall g', g' <> g -> dict_in g' after.2 = dict_in g' before.2) /\
  (forall g' product, g' <> g ->
     get00 after.2 g' product = get00 before.2 g' product) /\
  (forall product, product <> [] ->
     get0 after.1 product = get0 before.1 product + get00 before.2 g product).
Proof.
  intros Hob Hog Hg Hnd table' before after.
  split; [apply length_map|].
  destruct (auto_orders_without order_by_total order_by_group_product s g table'
              Hog Hnd (auto_rows_confirm _ _ _)) as (Hin & Hothers & Hget).
  split; [exact Hin|]. split; [exact Hothers|]. split; [exact Hget|].
  intros p Hp. subst before after.
  rewrite !main_orders_get by exact Hob.
  rewrite auto_orders_get by assumption.
  rewrite (bool_decide_eq_false_2 _ Hp).
  change (user_id (set_confirmed_orders_table table' s)) with (user_id s).
  change (confirmed_orders_table (set_confirmed_orders_table table' s)) with table'.
  subst table'. rewrite main_rows_confirm, (auto_rows_of_group g _ _ Hg).
  reflexivity.
Qed.

Lemma confirm_auto_order_moves_group_witness :
  py "auto_1" <> py "main" /\
  let table' := confirm_auto_order (Some (py "auto_1")) (py "user") sample_table in
  let before := get_global_orders id id session_with_table in
  let after := get_global_orders id id
                 (set_confirmed_orders_table table' session_with_table) in
  length table' = length sample_table /\
  dict_in (py "auto_1") after.2 = false /\
  (forall g', g' <> py "auto_1" -> dict_in g' after.2 = dict_in g' before.2) /\
  (forall g' product, g' <> py "auto_1" ->
     get00 after.2 g' product = get00 before.2 g' product) /\
  (forall product, product <> [] ->
     get0 after.1 product =
     get0 before.1 product + get00 before.2 (py "auto_1") product).
Proof.
  assert (py "auto_1" <> py "main") as Hg
    by (intros H; vm_compute in H; discriminate).
  assert (NoDup (map group_product
            (filter (fun r => is_auto_order (user_id session_with_table) r)
                    (confirmed_orders_table session_with_table)))) as Hnd.
  { apply (bool_decide_unpack _). vm_compute. exact I. }
  split; [exact Hg|].
  exact (confirm_auto_order_moves_group id id session_with_table (py "auto_1")
           (fun l => Permutation_refl l) (fun l => Permutation_refl l) Hg Hnd).
Defined.

(** X21. The route [delete_auto_order], read back with
    [get_global_orders] (no two automatically confirmed rows of the
    user having the same group and product): ['main_orders'] is what it
    was, the group is gone from ['auto_orders'] and the other groups are
    as before. *)
Theorem delete_auto_order_removes_group
    (order_by_total : list (str * Z) -> list (str * Z))
    (order_by_group_product : list sql_row -> list sql_row)
    (s : OrderSession.t) (g : str) :
  (forall l, order_by_group_product l ≡ₚ l) ->
  NoDup (map group_product
           (filter (fun r => is_auto_order (user_id s) r) (confirmed_orders_table s))) ->
  let table' := delete_auto_order (Some g) (user_id s) (confirmed_orders_table s) in
  let before := get_global_orders order_by_total order_by_group_product s in
  let after := get_global_orders order_by_total order_by_group_product
                 (set_confirmed_orders_table table' s) in
  after.1 = before.1 /\
  dict_in g after.2 = false /\
  (forall g', g' <> g -> dict_in g' after.2 = dict_in g' before.2) /\
  (forall g' product, g' <> g ->
     get00 after.2 g' product = get00 before.2 g' product).
Proof.
  intros Hog Hnd table' before after. split.
  - subst before after. unfold get_global_orders. cbn [fst].
    change (user_id (set_confirmed_orders_table table' s)) with (user_id s).
    change (confirmed_orders_table (set_confirmed_orders_table table' s)) with table'.
    subst table'. rewrite main_rows_delete. reflexivity.
  - exact (auto_orders_without order_by_total order_by_group_product s g table'
             Hog Hnd (auto_rows_delete _ _ _)).
Qed.

Lemma delete_auto_order_removes_group_witness :
  (forall l : list sql_row, id l ≡ₚ l) /\
  let table' := delete_auto_order (Some (py "auto_1")) (py "user") sample_table in
  let before := get_global_orders id id session_with_table in
  let after := get_global_orders id id
                 (set_confirmed_orders_table table' session_with_table) in
  after.1 = before.1 /\
  dict_in (py "auto_1") after.2 = false /\
  (forall g', g' <> py "auto_1" -> dict_in g' after.2 = dict_in g' before.2) /\
  (forall g' product, g' <> py "auto_1" ->
     get00 after.2 g' product = get00 before.2 g' product).
Proof.
  assert (NoDup (map group_product
            (filter (fun r => is_auto_order (user_id session_with_table) r)
                    (confirmed_orders_table session_with_table)))) as Hnd.
  { apply (bool_decide_unpack _). vm_compute. exact I. }
  split; [intros l; reflexivity|].
  exact (delete_auto_order_removes_group id id session_with_table (py "auto_1")
           (fun l => Permutation_refl l) Hnd).
Defined.

Lemma confirm_auto_order_none order_group uid table :
  existsb (is_auto_order_of order_group uid) table = false ->
  confirm_auto_order order_group uid table = table.
Proof.
  unfold confirm_auto_order. induction table as [|r table IH]; [reflexivity|].
  cbn [existsb map]. intros H. apply orb_false_iff in H as [Hr H].
  rewrite Hr, (IH H). reflexivity.
Qed.

Lemma delete_auto_order_none order_group uid table :
  existsb (is_auto_order_of order_group uid) table = false ->
  delete_auto_order order_group uid table = table.
Proof.
  unfold delete_auto_order. intros H. apply filter_bool_all.
  induction table as [|r table IH]; [reflexivity|].
  cbn [existsb forallb] in *. apply orb_false_iff in H as [Hr H].
  rewrite Hr, (IH H). reflexivity.
Qed.

Lemma confirm_auto_order_done order_group uid table :
  existsb (is_auto_order_of order_group uid)
          (confirm_auto_order order_group uid table) = false.
Proof.
  unfold confirm_auto_order. induction table as [|r table IH]; [reflexivity|].
  cbn [map existsb]. rewrite IH, orb_false_r.
  destruct (is_auto_order_of order_group uid r) eqn:E; [|exact E].
  destruct order_group; rows_bool.
Qed.

Lemma delete_auto_order_done order_group uid table :
  existsb (is_auto_order_of order_group uid)
          (delete_auto_order order_group uid table) = false.
Proof.
  unfold delete_auto_order. rewrite existsb_filter.
  induction table as [|r table IH]; [reflexivity|].
  cbn [existsb]. rewrite IH, orb_false_r. apply andb_negb_l.
Qed.

(** X22. The routes [confirm_auto_order] and [delete_auto_order] leave
    the table as it is when the request has no "order_group" and when
    the user has no automatically confirmed row of the group; so after
    one of them has run, running either again for the same group and
    user changes nothing. *)
Theorem auto_order_routes_without_rows (order_group : option str)
    (user_id : str) (table : list sql_row) :
  (confirm_auto_order None user_id table = table /\
   delete_auto_order None user_id table = table) /\
  (existsb (is_auto_order_of order_group user_id) table = false ->
   confirm_auto_order order_group user_id table = table /\
   delete_auto_order order_group user_id table = table) /\
  (let confirmed := confirm_auto_order order_group user_id table in
   let deleted := delete_auto_order order_group user_id table in
   confirm_auto_order order_group user_id confirmed = confirmed /\
   delete_auto_order order_group user_id confirmed = confirmed /\
   confirm_auto_order order_group user_id deleted = deleted /\
   delete_auto_order order_group user_id deleted = deleted).
Proof.
  assert (existsb (is_auto_order_of None user_id) table = false) as Hnone.
  { clear. induction table as [|r table IH]; [reflexivity|exact IH]. }
  split; [|split].
  - split; [apply confirm_auto_order_none|apply delete_auto_order_none];
      exact Hnone.
  - intros H.
    split; [apply confirm_auto_order_none|apply delete_auto_order_none]; exact H.
  - cbv zeta. repeat split;
      first [apply confirm_auto_order_none|apply delete_auto_order_none];
      first [apply confirm_auto_order_done|apply delete_auto_order_done].
Qed.

Lemma saved_rows_confirm uid sid g (orders : list (dict Z)) :
  confirm_auto_order (Some g) uid
    (concat (map (fun order : dict Z =>
               map (fun kv => SqlRow uid sid kv.1 kv.2 (py "auto_confirmed") g)
                   (filter (fun kv => 0 <? kv.2) order))
             orders)) =
  concat (map (fun order : dict Z =>
            map (fun kv => SqlRow uid sid kv.1 kv.2 (py "confirmed") (py "main"))
                (filter (fun kv => 0 <? kv.2) order))
          orders).
Proof.
  unfold confirm_auto_order.
  induction orders as [|order orders IH]; [reflexivity|].
  cbn [map concat]. rewrite map_app, IH. f_equal.
  induction (filter (fun kv : str * Z => 0 <? kv.2) order) as [|kv l IHl];
    [reflexivity|].
  cbn [map]. rewrite IHl. f_equal.
  assert (is_auto_order_of (Some g) uid
            (SqlRow uid sid kv.1 kv.2 (py "auto_confirmed") g) = true) as ->
    by rows_bool.
  reflexivity.
Qed.

Lemma saved_rows_delete uid sid g (orders : list (dict Z)) :
  delete_auto_order (Some g) uid
    (concat (map (fun order : dict Z =>
               map (fun kv => SqlRow uid sid kv.1 kv.2 (py "auto_confirmed") g)
                   (filter (fun kv => 0 <? kv.2) order))
             orders)) = [].
Proof.
  unfold delete_auto_order. apply filter_bool_none.
  induction orders as [|order orders IH]; [reflexivity|].
  cbn [map concat]. rewrite existsb_app, IH, orb_false_r.
  induction (filter (fun kv : str * Z => 0 <? kv.2) order) as [|kv l IHl];
    [reflexivity|].
  cbn [map existsb]. rewrite IHl, orb_false_r. rows_bool.
Qed.

(** X23. Orders saved with status "auto_confirmed" under a group of which
    the user has no such row yet: [confirm_auto_order] for the group
    then leaves the table that saving the same orders as "confirmed" in
    "main" would have given, and [delete_auto_order] for the group
    leaves the table as it was before they were saved. *)
Theorem auto_saved_then_confirmed_or_deleted (s : OrderSession.t)
    (orders_list : list (dict Z)) (g : str) :
  existsb (is_auto_order_of (Some g) (user_id s)) (confirmed_orders_table s)
    = false ->
  let saved := _save_final_orders orders_list (py "auto_confirmed") g s in
  confirm_auto_order (Some g) (user_id s) (confirmed_orders_table saved) =
    confirmed_orders_table
      (_save_final_orders orders_list (py "confirmed") (py "main") s) /\
  delete_auto_order (Some g) (user_id s) (confirmed_orders_table saved) =
    confirmed_orders_table s.
Proof.
  intros Hfresh saved. subst saved. unfold _save_final_orders.
  change (confirmed_orders_table (set_confirmed_orders_table ?t _)) with t.
  split.
  - unfold confirm_auto_order at 1. rewrite map_app.
    fold (confirm_auto_order (Some g) (user_id s) (confirmed_orders_table s)).
    rewrite (confirm_auto_order_none _ _ _ Hfresh). f_equal.
    apply saved_rows_confirm.
  - unfold delete_auto_order at 1. rewrite filter_bool_app.
    fold (delete_auto_order (Some g) (user_id s) (confirmed_orders_table s)).
    rewrite (delete_auto_order_none _ _ _ Hfresh).
    rewrite <- (app_nil_r (confirmed_orders_table s)) at 2. f_equal.
    apply saved_rows_delete.
Qed.

Lemma auto_saved_then_confirmed_or_deleted_witness :
  existsb (is_auto_order_of (Some (py "auto_3")) (py "user")) sample_table
    = false /\
  let orders_list := [[(py "manga", 2); (py "ovo", 0)]; [(py "manga", 1)]] in
  let saved := _save_final_orders orders_list (py "auto_confirmed") (py "auto_3")
                 session_with_table in
  confirm_auto_order (Some (py "auto_3")) (py "user") (confirmed_orders_table saved) =
    confirmed_orders_table
      (_save_final_orders orders_list (py "confirmed") (py "main")
                          session_with_table) /\
  delete_auto_order (Some (py "auto_3")) (py "user") (confirmed_orders_table saved) =
    sample_table.
Proof.
  split; [vm_compute; reflexivity|].
  apply (auto_saved_then_confirmed_or_deleted session_with_table
           [[(py "manga", 2); (py "ovo", 0)]; [(py "manga", 1)]] (py "auto_3")).
  vm_compute. reflexivity.
Defined.

(** *** Saving and reading back *)

Lemma saved_rows_forallb (f : sql_row -> bool) uid sid status group
    (orders : list (dict Z)) :
  (forall k v, f (SqlRow uid sid k v status group) = true) ->
  forallb f
    (concat (map (fun order : dict Z =>
               map (fun kv => SqlRow uid sid kv.1 kv.2 status group)
                   (filter (fun kv => 0 <? kv.2) order))
             orders)) = true.
Proof.
  intros H. induction orders as [|order orders IH]; [reflexivity|].
  cbn [map concat]. rewrite forallb_app, IH, andb_true_r.
  induction (filter (fun kv : str * Z => 0 <? kv.2) order) as [|kv l IHl];
    [reflexivity|].
  cbn [map forallb]. rewrite IHl, H. reflexivity.
Qed.

Lemma saved_rows_existsb (f : sql_row -> bool) uid sid status group
    (orders : list (dict Z)) :
  (forall k v, f (SqlRow uid sid k v status group) = false) ->
  existsb f
    (concat (map (fun order : dict Z =>
               map (fun kv => SqlRow uid sid kv.1 kv.2 status group)
                   (filter (fun kv => 0 <? kv.2) order))
             orders)) = false.
Proof.
  intros H. induction orders as [|order orders IH]; [reflexivity|].
  cbn [map concat]. rewrite existsb_app, IH, orb_false_r.
  induction (filter (fun kv : str * Z => 0 <? kv.2) order) as [|kv l IHl];
    [reflexivity|].
  cbn [map existsb]. rewrite IHl, H. reflexivity.
Qed.

Lemma total_quantity_saved uid sid status group (order : dict Z) p :
  NoDup (keys order) ->
  total_quantity p
    (map (fun kv => SqlRow uid sid kv.1 kv.2 status group)
         (filter (fun kv => 0 <? kv.2) order)) =
  Z.max 0 (get0 order p).
Proof.
  unfold get0. induction order as [|[k v] order IH]; intros Hnd; [reflexivity|].
  cbn [keys map fst] in Hnd. apply NoDup_cons in Hnd as [Hk Hnd].
  specialize (IH Hnd). unfold dict in IH |- *.
  rewrite (filter_bool_cons (fun kv : str * Z => 0 <? kv.2)). cbn [snd dict_get].
  unfold str_eqb.
  destruct (0 <? v) eqn:Hv; cbn [map fst snd].
  - rewrite total_quantity_cons. cbn [sql_product sql_quantity]. rewrite IH.
    apply Z.ltb_lt in Hv. unfold str_eqb.
    destruct (bool_decide_reflect (p = k)) as [->|Hne].
    + rewrite bool_decide_eq_true_2 by reflexivity.
      rewrite (dict_get_notin order k Hk). cbn [from_option id]. lia.
    + rewrite bool_decide_eq_false_2 by congruence. lia.
  - rewrite IH. apply Z.ltb_ge in Hv.
    destruct (bool_decide_reflect (p = k)) as [->|Hne]; [|reflexivity].
    rewrite (dict_get_notin order k Hk). cbn [from_option id]. lia.
Qed.

(** The sum over the orders of a list of what each has, above zero, of
    a product. *)
Lemma total_quantity_saved_list uid sid status group (orders : list (dict Z)) p :
  Forall (fun order : dict Z => NoDup (keys order)) orders ->
  total_quantity p
    (concat (map (fun order : dict Z =>
               map (fun kv => SqlRow uid sid kv.1 kv.2 status group)
                   (filter (fun kv => 0 <? kv.2) order))
             orders)) =
  foldr (fun order acc => Z.max 0 (get0 order p) + acc) 0 orders.
Proof.
  induction 1 as [|order orders Hnd _ IH]; [reflexivity|].
  cbn [map concat foldr]. rewrite total_quantity_app, IH.
  rewrite total_quantity_saved by exact Hnd. reflexivity.
Qed.

(** X24. Orders saved with status "confirmed" in the group "main" and
    read back with [get_global_orders]: for every product with a
    non-empty name ['main_orders'] has grown by the sum, over the saved
    orders, of the quantities above zero the orders have for it, and
    ['auto_orders'] is what it was. *)
Theorem saved_orders_in_main_orders
    (order_by_total : list (str * Z) -> list (str * Z))
    (order_by_group_product : list sql_row -> list sql_row)
    (s : OrderSession.t) (orders_list : list (dict Z)) :
  (forall l, order_by_total l ≡ₚ l) ->
  Forall (fun order : dict Z => NoDup (keys order)) orders_list ->
  let before := get_global_orders order_by_total order_by_group_product s in
  let after := get_global_orders order_by_total order_by_group_product
                 (_save_final_orders orders_list (py "confirmed") (py "main") s) in
  (forall product, product <> [] ->
     get0 after.1 product =
     get0 before.1 product +
     foldr (fun order acc => Z.max 0 (get0 order product) + acc) 0 orders_list) /\
  after.2 = before.2.
Proof.
  intros Hob Hnd before after. subst before after. split.
  - intros p Hp. rewrite !main_orders_get by exact Hob.
    rewrite (bool_decide_eq_false_2 _ Hp). unfold _save_final_orders.
    change (user_id (set_confirmed_orders_table ?t s)) with (user_id s).
    change (confirmed_orders_table (set_confirmed_orders_table ?t s)) with t.
    rewrite filter_bool_app, total_quantity_app. f_equal.
    rewrite (filter_bool_all (is_main_order (user_id s)) (concat _)).
    + apply total_quantity_saved_list. exact Hnd.
    + apply saved_rows_forallb. intros k v. rows_bool.
  - unfold get_global_orders, _save_final_orders. cbn [snd].
    change (user_id (set_confirmed_orders_table ?t s)) with (user_id s).
    change (confirmed_orders_table (set_confirmed_orders_table ?t s)) with t.
    rewrite filter_bool_app.
    rewrite (filter_bool_none (is_auto_order (user_id s)) (concat _)).
    + rewrite app_nil_r. reflexivity.
    + apply saved_rows_existsb. intros k v. rows_bool.
Qed.

Lemma saved_orders_in_main_orders_witness :
  Forall (fun order : dict Z => NoDup (keys order))
         [[(py "manga", 2); (py "ovo", 0)]; [(py "manga", 1)]] /\
  let orders_list := [[(py "manga", 2); (py "ovo", 0)]; [(py "manga", 1)]] in
  let before := get_global_orders id id session_with_table in
  let after := get_global_orders id id
                 (_save_final_orders orders_list (py "confirmed") (py "main")
                                     session_with_table) in
  (forall product, product <> [] ->
     get0 after.1 product =
     get0 before.1 product +
     foldr (fun order acc => Z.max 0 (get0 order product) + acc) 0 orders_list) /\
  after.2 = before.2.
Proof.
  assert (Forall (fun order : dict Z => NoDup (keys order))
            [[(py "manga", 2); (py "ovo", 0)]; [(py "manga", 1)]]) as Hnd.
  { apply (bool_decide_unpack _). vm_compute. exact I. }
  split; [exact Hnd|].
  exact (saved_orders_in_main_orders id id session_with_table
           [[(py "manga", 2); (py "ovo", 0)]; [(py "manga", 1)]]
           (fun l => Permutation_refl l) Hnd).
Defined.

Lemma saved_rows_NoDup uid sid status group (order : dict Z) :
  NoDup (keys order) ->
  NoDup (map group_product
           (map (fun kv => SqlRow uid sid kv.1 kv.2 status group)
                (filter (fun kv => 0 <? kv.2) order))).
Proof.
  intros Hnd. rewrite map_map. unfold group_product.
  cbn [sql_order_group sql_product].
  rewrite <- (map_map fst (pair group)).
  apply (NoDup_fmap_2 (pair group)).
  apply (sublist_NoDup _ (keys order)); [exact Hnd|].
  unfold keys. apply fmap_sublist. apply sublist_filter.
Qed.

Lemma saved_rows_groups uid sid status group (order : dict Z) :
  existsb (fun r => str_eqb (sql_order_group r) group)
    (map (fun kv => SqlRow uid sid kv.1 kv.2 status group)
         (filter (fun kv => 0 <? kv.2) order)) =
  existsb (fun kv => 0 <? kv.2) order.
Proof.
  unfold dict. induction order as [|[k v] order IH]; [reflexivity|].
  rewrite (filter_bool_cons (fun kv : str * Z => 0 <? kv.2)).
  cbn [existsb snd]. destruct (0 <? v); cbn [orb]; [|exact IH].
  cbn [map existsb sql_order_group]. unfold str_eqb at 1.
  rewrite bool_decide_eq_true_2 by reflexivity. reflexivity.
Qed.

(** X25. One order saved with status "auto_confirmed" under a group
    other than "main" of which the user has no such row yet, and read
    back with [get_global_orders] (no two automatically confirmed rows
    of the user having the same group and product): ['main_orders'] is
    what it was; ['auto_orders'] has the group exactly when the order
    has a quantity above zero, and gives under it, for every product,
    the quantity of the order when it is above zero; the other groups
    are as before. *)
Theorem auto_saved_order_in_auto_orders
    (order_by_total : list (str * Z) -> list (str * Z))
    (order_by_group_product : list sql_row -> list sql_row)
    (s : OrderSession.t) (order : dict Z) (g : str) :
  (forall l, order_by_group_product l ≡ₚ l) ->
  g <> py "main" ->
  NoDup (keys order) ->
  existsb (is_auto_order_of (Some g) (user_id s)) (confirmed_orders_table s)
    = false ->
  NoDup (map group_product
           (filter (fun r => is_auto_order (user_id s) r) (confirmed_orders_table s))) ->
  let before := get_global_orders order_by_total order_by_group_product s in
  let after := get_global_orders order_by_total order_by_group_product
                 (_save_final_orders [order] (py "auto_confirmed") g s) in
  after.1 = before.1 /\
  dict_in g after.2 = existsb (fun kv => 0 <? kv.2) order /\
  (forall product, get00 after.2 g product = Z.max 0 (get0 order product)) /\
  (forall g', g' <> g -> dict_in g' after.2 = dict_in g' before.2) /\
  (forall g' product, g' <> g ->
     get00 after.2 g' product = get00 before.2 g' product).
Proof.
  intros Hog Hg Hkeys Hfresh Hnd before after.
  set (uid := user_id s) in *. set (table := confirmed_orders_table s) in *.
  set (new := map (fun kv : str * Z =>
                     SqlRow uid (session_id s) kv.1 kv.2 (py "auto_confirmed") g)
                  (filter (fun kv : str * Z => 0 <? kv.2) order)).
  set (old := filter (fun r => is_auto_order uid r) table) in *.
  assert (user_id (_save_final_orders [order] (py "auto_confirmed") g s) = uid)
    as Huid by reflexivity.
  assert (confirmed_orders_table
            (_save_final_orders [order] (py "auto_confirmed") g s) = table ++ new)
    as Htable.
  { unfold _save_final_orders.
    change (confirmed_orders_table (set_confirmed_orders_table ?t s)) with t.
    cbn [map concat]. rewrite app_nil_r. reflexivity. }
  assert (forallb (fun r => is_auto_order uid r) new = true) as Hauto.
  { pose proof (saved_rows_forallb (is_auto_order uid) uid (session_id s)
                  (py "auto_confirmed") g [order]) as H.
    cbn [map concat] in H. rewrite app_nil_r in H. apply H.
    intros k v. rows_bool. }
  assert (forallb (fun r => str_eqb (sql_order_group r) g) new = true) as Hgroup.
  { pose proof (saved_rows_forallb (fun r => str_eqb (sql_order_group r) g)
                  uid (session_id s) (py "auto_confirmed") g [order]) as H.
    cbn [map concat] in H. rewrite app_nil_r in H. apply H.
    intros k v. rows_bool. }
  assert (existsb (fun r => is_main_order uid r) new = false) as Hmain.
  { pose proof (saved_rows_existsb (is_main_order uid) uid (session_id s)
                  (py "auto_confirmed") g [order]) as H.
    cbn [map concat] in H. rewrite app_nil_r in H. apply H.
    intros k v. rows_bool. }
  assert (existsb (fun r => str_eqb (sql_order_group r) g) old = false) as Hold.
  { subst old. rewrite existsb_filter. rewrite <- Hfresh.
    apply existsb_ext. intros r. rows_bool. }
  assert (forall g', g' <> g ->
            existsb (fun r => str_eqb (sql_order_group r) g') new = false) as Hnew.
  { intros g' Hg'. apply not_true_is_false. intros H.
    apply existsb_exists in H as (r & Hr & H).
    pose proof (proj1 (forallb_forall _ _) Hgroup r Hr) as H'. cbv beta in H'.
    unfold str_eqb in H, H'. apply bool_decide_eq_true in H, H'. congruence. }
  assert (filter (fun r => is_auto_order uid r) (table ++ new) = old ++ new)
    as Hrows.
  { rewrite filter_bool_app, (filter_bool_all _ new Hauto). reflexivity. }
  assert (NoDup (map group_product (old ++ new))) as Hnd'.
  { rewrite map_app. apply NoDup_app. split; [exact Hnd|]. split.
    - intros x Hx Hx'.
      apply list_elem_of_fmap in Hx as (r & -> & Hr).
      apply list_elem_of_fmap in Hx' as (r' & Heq & Hr').
      apply list_elem_of_In in Hr'.
      pose proof (proj1 (forallb_forall _ _) Hgroup r' Hr') as H'. cbv beta in H'.
      unfold str_eqb in H'. apply bool_decide_eq_true in H'.
      assert (existsb (fun r => str_eqb (sql_order_group r) g) old = true) as Ht.
      { apply existsb_exists. exists r. split; [apply list_elem_of_In; exact Hr|].
        unfold str_eqb. apply bool_decide_eq_true.
        unfold group_product in Heq. congruence. }
      congruence.
    - apply saved_rows_NoDup. exact Hkeys. }
  subst before after. split; [|split; [|split; [|split]]].
  - unfold get_global_orders. cbn [fst]. rewrite Huid, Htable. fold uid table.
    rewrite filter_bool_app, (filter_bool_none _ new Hmain), app_nil_r.
    reflexivity.
  - rewrite auto_orders_in by exact Hog. rewrite Huid, Htable, Hrows.
    rewrite existsb_app, Hold. cbn [orb]. apply saved_rows_groups.
  - intros p. rewrite auto_orders_get; rewrite ?Huid, ?Htable, ?Hrows;
      [|exact Hog|exact Hnd'].
    rewrite filter_bool_app, total_quantity_app.
    rewrite (filter_bool_none _ old Hold), (filter_bool_all _ new Hgroup).
    cbn [total_quantity foldr]. apply total_quantity_saved. exact Hkeys.
  - intros g' Hg'. rewrite !auto_orders_in by exact Hog.
    rewrite Huid, Htable, Hrows. fold uid table old.
    rewrite existsb_app, (Hnew g' Hg'). apply orb_false_r.
  - intros g' p Hg'. rewrite (auto_orders_get _ _ s) by assumption.
    rewrite auto_orders_get; rewrite ?Huid, ?Htable, ?Hrows;
      [|exact Hog|exact Hnd'].
    fold uid table old.
    rewrite filter_bool_app, total_quantity_app.
    rewrite (filter_bool_none _ new (Hnew g' Hg')). cbn [total_quantity foldr].
    lia.
Qed.

Lemma auto_saved_order_in_auto_orders_witness :
  py "auto_3" <> py "main" /\
  let order := [(py "manga", 2); (py "ovo", 0)] in
  let before := get_global_orders id id session_with_table in
  let after := get_global_orders id id
                 (_save_final_orders [order] (py "auto_confirmed") (py "auto_3")
                                     session_with_table) in
  after.1 = before.1 /\
  dict_in (py "auto_3") after.2 = existsb (fun kv => 0 <? kv.2) order /\
  (forall product,
     get00 after.2 (py "auto_3") product = Z.max 0 (get0 order product)) /\
  (forall g', g' <> py "auto_3" -> dict_in g' after.2 = dict_in g' before.2) /\
  (forall g' product, g' <> py "auto_3" ->
     get00 after.2 g' product = get00 before.2 g' product).
Proof.
  assert (py "auto_3" <> py "main") as Hg
    by (intros H; vm_compute in H; discriminate).
  assert (NoDup (keys [(py "manga", 2); (py "ovo", 0)])) as Hkeys.
  { apply (bool_decide_unpack _). vm_compute. exact I. }
  assert (NoDup (map group_product
            (filter (fun r => is_auto_order (user_id session_with_table) r)
                    (confirmed_orders_table session_with_table)))) as Hnd.
  { apply (bool_decide_unpack _). vm_compute. exact I. }
  assert (existsb (is_auto_order_of (Some (py "auto_3"))
                     (user_id session_with_table))
                  (confirmed_orders_table session_with_table) = false) as Hfresh
    by (vm_compute; reflexivity).
  split; [exact Hg|].
  exact (auto_saved_order_in_auto_orders id id session_with_table
           [(py "manga", 2); (py "ovo", 0)] (py "auto_3")
           (fun l => Permutation_refl l) Hg Hkeys Hfresh Hnd).
Defined.

(** *** The rows of other users *)

Lemma get_global_orders_own_rows ob og s (table' : list sql_row) :
  filter (fun r => str_eqb (sql_user_id r) (user_id s)) table' =
  filter (fun r => str_eqb (sql_user_id r) (user_id s)) (confirmed_orders_table s) ->
  get_global_orders ob og (set_confirmed_orders_table table' s) =
  get_global_orders ob og s.
Proof.
  intros H. unfold get_global_orders.
  change (user_id (set_confirmed_orders_table table' s)) with (user_id s).
  change (confirmed_orders_table (set_confirmed_orders_table table' s)) with table'.
  assert (forall (f : sql_row -> bool) (t : list sql_row),
            (forall r, f r = true -> str_eqb (sql_user_id r) (user_id s) = true) ->
            filter (fun r => f r) t =
            filter (fun r => f r)
                   (filter (fun r => str_eqb (sql_user_id r) (user_id s)) t)) as Hown.
  { intros f t Hf. rewrite filter_bool_filter. apply filter_bool_ext.
    intros r. specialize (Hf r). destruct (f r).
    - rewrite Hf by reflexivity. reflexivity.
    - rewrite andb_false_r. reflexivity. }
  rewrite (Hown (is_main_order (user_id s)) table'),
          (Hown (is_main_order (user_id s)) (confirmed_orders_table s)),
          (Hown (is_auto_order (user_id s)) table'),
          (Hown (is_auto_order (user_id s)) (confirmed_orders_table s)), H;
    try reflexivity.
  all: intros r Hr; apply andb_true_iff in Hr as [_ Hr]; exact Hr.
Qed.

(** X26. What [get_global_orders] returns for a user does not change
    when another user moves or deletes a group with
    [confirm_auto_order] or [delete_auto_order], or when a session of
    another user saves orders. *)
Theorem get_global_orders_of_other_users
    (order_by_total : list (str * Z) -> list (str * Z))
    (order_by_group_product : list sql_row -> list sql_row)
    (s : OrderSession.t) (other : str) :
  other <> user_id s ->
  let read table' :=
    get_global_orders order_by_total order_by_group_product
      (set_confirmed_orders_table table' s) in
  let orders := get_global_orders order_by_total order_by_group_product s in
  (forall order_group,
     read (confirm_auto_order order_group other (confirmed_orders_table s)) = orders) /\
  (forall order_group,
     read (delete_auto_order order_group other (confirmed_orders_table s)) = orders) /\
  (forall s2 orders_list status order_group,
     user_id s2 = other ->
     confirmed_orders_table s2 = confirmed_orders_table s ->
     read (confirmed_orders_table
             (_save_final_orders orders_list status order_group s2)) = orders).
Proof.
  intros Hother read orders. subst read orders. cbv beta.
  split; [|split].
  - intros order_group. apply get_global_orders_own_rows.
    unfold confirm_auto_order.
    induction (confirmed_orders_table s) as [|r table IH]; [reflexivity|].
    cbn [map]. rewrite !filter_bool_cons, IH.
    destruct (is_auto_order_of order_group other r) eqn:E; [|reflexivity].
    cbn [sql_user_id].
    assert (str_eqb (sql_user_id r) (user_id s) = false) as ->; [|reflexivity].
    revert E. destruct order_group; rows_bool.
  - intros order_group. apply get_global_orders_own_rows.
    unfold delete_auto_order. rewrite filter_bool_filter.
    apply filter_bool_ext. intros r. destruct order_group; rows_bool.
  - intros s2 orders_list status order_group Hs2 Htable.
    apply get_global_orders_own_rows. unfold _save_final_orders.
    change (confirmed_orders_table (set_confirmed_orders_table ?t s2)) with t.
    rewrite Htable, filter_bool_app.
    rewrite (filter_bool_none _ (concat _)); [apply app_nil_r|].
    apply saved_rows_existsb. intros k v. rewrite Hs2. rows_bool.
Qed.

Lemma get_global_orders_of_other_users_witness :
  py "other" <> py "user" /\
  let read table' :=
    get_global_orders id id (set_confirmed_orders_table table' session_with_table) in
  let orders := get_global_orders id id session_with_table in
  (forall order_group,
     read (confirm_auto_order order_group (py "other") sample_table) = orders) /\
  (forall order_group,
     read (delete_auto_order order_group (py "other") sample_table) = orders) /\
  (forall s2 orders_list status order_group,
     user_id s2 = py "other" ->
     confirmed_orders_table s2 = sample_table ->
     read (confirmed_orders_table
             (_save_final_orders orders_list status order_group s2)) = orders).
Proof.
  assert (py "other" <> py "user") as Hother
    by (intros H; vm_compute in H; discriminate).
  split; [exact Hother|].
  exact (get_global_orders_of_other_users id id session_with_table (py "other")
           Hother).
Defined.

(** ** The sheet of the orders and the reset of a session *)

(** *** The sheet of [download_excel] *)

Lemma get0_dict_set (d : dict Z) k v p :
  get0 (dict_set d k v) p = if str_eqb p k then v else get0 d p.
Proof.
  unfold get0, str_eqb. destruct (bool_decide_reflect (p = k)) as [->|Hne].
  - rewrite dict_get_set_eq. reflexivity.
  - rewrite dict_get_set_ne by exact Hne. reflexivity.
Qed.

Lemma get0_cons k v (d : dict Z) p :
  get0 ((k, v) :: d) p = if str_eqb p k then v else get0 d p.
Proof. unfold get0. cbn [dict_get]. destruct (str_eqb p k); reflexivity. Qed.

Lemma get0_notin (d : dict Z) p : p ∉ keys d -> get0 d p = 0.
Proof. intros H. unfold get0. rewrite (dict_get_notin d p H). reflexivity. Qed.

Lemma add_products_get (products : dict Z) : forall all_orders p,
  NoDup (keys products) ->
  get0 (add_products all_orders products) p = get0 all_orders p + get0 products p.
Proof.
  unfold add_products.
  induction products as [|[k v] products IH]; intros acc p Hnd.
  - cbn [fold_left]. unfold get0 at 3. cbn [dict_get from_option]. lia.
  - cbn [keys map fst] in Hnd. apply NoDup_cons in Hnd as [Hk Hnd].
    cbn [fold_left fst snd]. rewrite (IH _ p Hnd), get0_cons.
    assert (get0 (if dict_in k acc
                  then dict_set acc k (from_option id 0 (dict_get acc k) + v)
                  else dict_set acc k v) p =
            get0 acc p + if str_eqb p k then v else 0) as ->.
    { unfold dict_in. fold (get0 acc k).
      destruct (dict_get acc k) eqn:E; rewrite get0_dict_set;
        unfold str_eqb; destruct (bool_decide_reflect (p = k)) as [->|Hne];
        try lia.
      unfold get0. rewrite E. cbn [from_option id]. lia. }
    unfold str_eqb. destruct (bool_decide_reflect (p = k)) as [->|Hne]; [|lia].
    rewrite (get0_notin products k Hk). lia.
Qed.

Lemma copy_get (main_orders : dict Z) : forall acc p,
  NoDup (keys main_orders) ->
  get0 (fold_left (fun all_orders kv => dict_set all_orders kv.1 kv.2)
                  main_orders acc) p =
  if dict_in p main_orders then get0 main_orders p else get0 acc p.
Proof.
  induction main_orders as [|[k v] d IH]; intros acc p Hnd; [reflexivity|].
  cbn [keys map fst] in Hnd. apply NoDup_cons in Hnd as [Hk Hnd].
  cbn [fold_left fst snd]. rewrite (IH _ p Hnd), get0_cons, get0_dict_set.
  unfold dict_in. cbn [dict_get]. unfold str_eqb.
  destruct (bool_decide_reflect (p = k)) as [->|Hne]; [|reflexivity].
  rewrite (dict_get_notin d k Hk). reflexivity.
Qed.

(** The sum over the groups of what each has of a product. *)
Lemma groups_get (groups : dict (dict Z)) : forall all_orders p,
  Forall (fun group : str * dict Z => NoDup (keys group.2)) groups ->
  get0 (fold_left (fun all_orders group => add_products all_orders group.2)
                  groups all_orders) p =
  get0 all_orders p + foldr (fun group acc => get0 group.2 p + acc) 0 groups.
Proof.
  induction groups as [|[g inner] groups IH]; intros acc p Hnd.
  - cbn [fold_left foldr]. lia.
  - apply Forall_cons in Hnd as [Hinner Hnd].
    cbn [fold_left foldr fst snd] in *.
    rewrite (IH _ p Hnd), add_products_get by exact Hinner. lia.
Qed.

Lemma foldr_add_ext {A} (f f' : A -> Z) (l : list A) :
  (forall x, x ∈ l -> f x = f' x) ->
  foldr (fun x acc => f x + acc) 0 l = foldr (fun x acc => f' x + acc) 0 l.
Proof.
  induction l as [|x l IH]; intros H; [reflexivity|].
  cbn [foldr]. rewrite (H x), IH; [reflexivity| |apply list_elem_of_here].
  intros y Hy. apply H. apply list_elem_of_further. exact Hy.
Qed.

Lemma groups_by_key (groups : dict (dict Z)) p :
  NoDup (keys groups) ->
  foldr (fun group acc => get0 group.2 p + acc) 0 groups =
  foldr (fun g acc => get00 groups g p + acc) 0 (keys groups).
Proof.
  induction groups as [|[g inner] groups IH]; intros Hnd; [reflexivity|].
  cbn [keys map fst] in Hnd. apply NoDup_cons in Hnd as [Hg Hnd].
  cbn [keys map fst foldr snd]. rewrite (IH Hnd). f_equal.
  - unfold get00. cbn [dict_get]. unfold str_eqb.
    rewrite bool_decide_eq_true_2 by reflexivity. reflexivity.
  - apply foldr_add_ext. intros g' Hg'. unfold get00. cbn [dict_get].
    unfold str_eqb. rewrite bool_decide_eq_false_2; [reflexivity|].
    intros ->. exact (Hg Hg').
Qed.

Lemma foldr_add_split {A} (f f' : A -> Z) (l : list A) :
  foldr (fun x acc => (f x + f' x) + acc) 0 l =
  foldr (fun x acc => f x + acc) 0 l + foldr (fun x acc => f' x + acc) 0 l.
Proof. induction l as [|x l IH]; cbn [foldr]; lia. Qed.

Lemma foldr_add_one (ks : list str) g0 (x : Z) :
  NoDup ks ->
  foldr (fun g acc => (if str_eqb g0 g then x else 0) + acc) 0 ks =
  if bool_decide (g0 ∈ ks) then x else 0.
Proof.
  induction ks as [|k ks IH]; intros Hnd; [reflexivity|].
  apply NoDup_cons in Hnd as [Hk Hnd]. cbn [foldr]. rewrite (IH Hnd).
  unfold str_eqb. destruct (bool_decide_reflect (g0 = k)) as [->|Hne].
  - rewrite (bool_decide_eq_false_2 _ Hk).
    rewrite bool_decide_eq_true_2 by apply list_elem_of_here. lia.
  - destruct (bool_decide_reflect (g0 ∈ ks)) as [Hin|Hin].
    + rewrite bool_decide_eq_true_2 by (apply list_elem_of_further; exact Hin). lia.
    + rewrite bool_decide_eq_false_2; [lia|].
      intros H. apply elem_of_cons in H as [H|H]; [exact (Hne H)|exact (Hin H)].
Qed.

Lemma total_by_group (ks : list str) (rows : list sql_row) p :
  NoDup ks ->
  (forall r, r ∈ rows -> sql_order_group r ∈ ks) ->
  foldr (fun g acc =>
           total_quantity p (filter (fun r => str_eqb (sql_order_group r) g) rows)
           + acc) 0 ks =
  total_quantity p rows.
Proof.
  intros Hnd. induction rows as [|r rows IH]; intros Hin.
  - clear. cbn. induction ks as [|k ks IHk]; [reflexivity|].
    cbn [foldr]. rewrite IHk. reflexivity.
  - rewrite total_quantity_cons, <- IH
      by (intros r' Hr'; apply Hin; apply list_elem_of_further; exact Hr').
    transitivity
      (foldr (fun g acc =>
                (if str_eqb (sql_order_group r) g
                 then if str_eqb (sql_product r) p then sql_quantity r else 0
                 else 0) + acc) 0 ks +
       foldr (fun g acc =>
                total_quantity p
                  (filter (fun r => str_eqb (sql_order_group r) g) rows) + acc)
             0 ks).
    + rewrite <- foldr_add_split. apply foldr_add_ext. intros g _.
      rewrite filter_bool_cons.
      destruct (str_eqb (sql_order_group r) g); [apply total_quantity_cons|lia].
    + f_equal. rewrite foldr_add_one by exact Hnd.
      rewrite bool_decide_eq_true_2; [reflexivity|].
      apply Hin. apply list_elem_of_here.
Qed.

Lemma dict_get_values {V} (P : V -> Prop) (d : dict V) k v :
  Forall (fun kv : str * V => P kv.2) d -> dict_get d k = Some v -> P v.
Proof.
  intros Hd. induction d as [|[k' v'] d IH]; [discriminate|].
  apply Forall_cons in Hd as [Hk Hd]. cbn [dict_get].
  destruct (str_eqb k k'); [intros [= <-]; exact Hk|exact (IH Hd)].
Qed.

Lemma main_orders_NoDup (data : list (str * Z)) : forall acc,
  NoDup (keys acc) -> NoDup (keys (fold_left main_step data acc)).
Proof.
  induction data as [|row data IH]; intros acc H; [exact H|].
  cbn [fold_left]. apply IH. unfold main_step.
  destruct (_ && _); [apply dict_set_NoDup|]; exact H.
Qed.

Lemma auto_orders_NoDup (l : list sql_row) : forall d,
  NoDup (keys d) ->
  Forall (fun group : str * dict Z => NoDup (keys group.2)) d ->
  NoDup (keys (fold_left auto_step l d)) /\
  Forall (fun group : str * dict Z => NoDup (keys group.2))
         (fold_left auto_step l d).
Proof.
  induction l as [|r l IH]; intros d Hd Hin; [split; assumption|].
  cbn [fold_left]. unfold auto_step at 2 4. cbv zeta.
  set (d' := if dict_in (sql_order_group r) d then d
             else dict_set d (sql_order_group r) []).
  assert (NoDup (keys d') /\
          Forall (fun group : str * dict Z => NoDup (keys group.2)) d')
    as [Hd' Hin'].
  { subst d'. destruct (dict_in _ d); [split; assumption|].
    split; [apply dict_set_NoDup; exact Hd|].
    apply (dict_set_values (fun inner : dict Z => NoDup (keys inner)));
      [exact Hin|constructor]. }
  apply IH; [apply dict_set_NoDup; exact Hd'|].
  apply (dict_set_values (fun inner : dict Z => NoDup (keys inner)));
    [exact Hin'|].
  apply dict_set_NoDup.
  destruct (dict_get d' (sql_order_group r)) as [inner|] eqn:E;
    cbn [from_option id]; [|constructor].
  exact (dict_get_values (fun inner : dict Z => NoDup (keys inner)) d' _ _ Hin' E).
Qed.

Lemma add_products_NoDup (products : dict Z) : forall all_orders,
  NoDup (keys all_orders) -> NoDup (keys (add_products all_orders products)).
Proof.
  unfold add_products. induction products as [|kv products IH]; intros acc H;
    [exact H|].
  cbn [fold_left]. apply IH. destruct (dict_in kv.1 acc); apply dict_set_NoDup;
    exact H.
Qed.

(** What [download_excel] computes from what [get_all_orders_summary]
    returns for a session. *)
Lemma all_orders_get ob og s :
  (forall l, ob l ≡ₚ l) ->
  (forall l, og l ≡ₚ l) ->
  NoDup (map group_product
           (filter (fun r => is_auto_order (user_id s) r) (confirmed_orders_table s))) ->
  let orders := get_all_orders_summary ob og s in
  let all_orders :=
    fold_left (fun all_orders group => add_products all_orders group.2) orders.2
      (fold_left (fun all_orders kv => dict_set all_orders kv.1 kv.2) orders.1 []) in
  NoDup (keys all_orders) /\
  forall product,
    get0 all_orders product =
    (if bool_decide (product = []) then 0
     else total_quantity product
            (filter (fun r => is_main_order (user_id s) r) (confirmed_orders_table s)))
    + total_quantity product
        (filter (fun r => is_auto_order (user_id s) r) (confirmed_orders_table s)).
Proof.
  intros Hob Hog Hnd orders all_orders. subst all_orders orders.
  unfold get_all_orders_summary.
  assert (NoDup (keys (get_global_orders ob og s).1)) as Hmain.
  { unfold get_global_orders. cbn [fst]. apply main_orders_NoDup. constructor. }
  destruct (auto_orders_NoDup
              (og (filter (fun r => is_auto_order (user_id s) r)
                          (confirmed_orders_table s))) [])
    as [Hauto Hinner]; [constructor|constructor|].
  change (fold_left auto_step _ []) with (get_global_orders ob og s).2
    in Hauto, Hinner.
  split.
  - assert (forall (groups : dict (dict Z)) acc,
              NoDup (keys acc) ->
              NoDup (keys (fold_left (fun all_orders group =>
                                        add_products all_orders group.2)
                                     groups acc))) as Hgroups.
    { induction groups as [|group groups IH]; intros acc H; [exact H|].
      cbn [fold_left]. apply IH. apply add_products_NoDup. exact H. }
    apply Hgroups.
    assert (forall (d : dict Z) acc,
              NoDup (keys acc) ->
              NoDup (keys (fold_left (fun all_orders kv =>
                                        dict_set all_orders kv.1 kv.2) d acc)))
      as Hcopy.
    { induction d as [|kv d IH]; intros acc H; [exact H|].
      cbn [fold_left]. apply IH. apply dict_set_NoDup. exact H. }
    apply Hcopy. constructor.
  - intros p. rewrite groups_get by exact Hinner.
    rewrite copy_get by exact Hmain.
    assert ((if dict_in p (get_global_orders ob og s).1
             then get0 (get_global_orders ob og s).1 p else get0 [] p) =
            get0 (get_global_orders ob og s).1 p) as ->.
    { unfold dict_in, get0.
      destruct (dict_get (get_global_orders ob og s).1 p); reflexivity. }
    rewrite main_orders_get by exact Hob. f_equal.
    rewrite groups_by_key by exact Hauto.
    rewrite (foldr_add_ext _
               (fun g => total_quantity p
                  (filter (fun r => str_eqb (sql_order_group r) g)
                     (filter (fun r => is_auto_order (user_id s) r)
                             (confirmed_orders_table s)))))
      by (intros g _; apply auto_orders_get; assumption).
    apply total_by_group; [exact Hauto|].
    intros r Hr. apply dict_in_keys. rewrite auto_orders_in by exact Hog.
    apply existsb_exists. exists r. split; [apply list_elem_of_In; exact Hr|].
    unfold str_eqb. apply bool_decide_eq_true. reflexivity.
Qed.

Lemma total_quantity_split (f h : sql_row -> bool) (l : list sql_row) p :
  total_quantity p (filter (fun r => f r) l) =
  total_quantity p (filter (fun r => f r && h r) l) +
  total_quantity p (filter (fun r => f r && negb (h r)) l).
Proof.
  induction l as [|r l IH]; [reflexivity|].
  rewrite !filter_bool_cons.
  destruct (f r), (h r); cbn [andb negb]; rewrite ?total_quantity_cons; lia.
Qed.

Lemma download_excel_fresh ob og r uuid4 now p :
  dict_get (user_sessions p) uuid4 = None ->
  exists s,
    user_id s = from_option id (py "default") (cookie_user_id r) /\
    confirmed_orders_table s = process_table p /\
    (download_excel ob og r uuid4 now p).2 =
    fold_left (fun all_orders group => add_products all_orders group.2)
      (get_all_orders_summary ob og s).2
      (fold_left (fun all_orders kv => dict_set all_orders kv.1 kv.2)
                 (get_all_orders_summary ob og s).1 []).
Proof.
  intros Hfresh. unfold download_excel, get_user_session. cbn [truthy].
  rewrite Hfresh.
  destruct (init_fields uuid4 (from_option id (py "default") (cookie_user_id r))
              now (process_heap p) (process_table p))
    as (_ & Huid & _ & _ & _ & _ & _ & _ & Htable).
  eexists. split; [exact Huid|]. split; [exact Htable|]. reflexivity.
Qed.

Lemma download_excel_get ob og r uuid4 now p :
  (forall l, ob l ≡ₚ l) ->
  (forall l, og l ≡ₚ l) ->
  dict_get (user_sessions p) uuid4 = None ->
  NoDup (map group_product
           (filter (fun row =>
                      is_auto_order
                        (from_option id (py "default") (cookie_user_id r)) row)
                   (process_table p))) ->
  NoDup (keys (download_excel ob og r uuid4 now p).2) /\
  forall product,
    get0 (download_excel ob og r uuid4 now p).2 product =
    (if bool_decide (product = []) then 0
     else total_quantity product
            (filter (fun row =>
                       is_main_order
                         (from_option id (py "default") (cookie_user_id r)) row)
                    (process_table p)))
    + total_quantity product
        (filter (fun row =>
                   is_auto_order
                     (from_option id (py "default") (cookie_user_id r)) row)
                (process_table p)).
Proof.
  intros Hob Hog Hfresh Hnd.
  destruct (download_excel_fresh ob og r uuid4 now p Hfresh)
    as (s & Huid & Htable & ->).
  rewrite <- Huid, <- Htable in *.
  exact (all_orders_get ob og s Hob Hog Hnd).
Qed.

(** X27. The sheet of [download_excel], for a session identifier that is
    not in the registry, whatever the order in which the SELECTs return
    their rows, and when no two automatically confirmed rows of the
    user have the same group and product: no product has two rows, and
    the quantity of a product is the sum of the quantities of the
    user's rows with status "confirmed" in "main" (left out for the
    empty name) and of the user's rows with status "auto_confirmed"
    outside "main". *)
Theorem download_excel_totals
    (order_by_total : list (str * Z) -> list (str * Z))
    (order_by_group_product : list sql_row -> list sql_row)
    (r : request) (uuid4 : str) (now : Z) (p : process) :
  (forall l, order_by_total l ≡ₚ l) ->
  (forall l, order_by_group_product l ≡ₚ l) ->
  dict_get (user_sessions p) uuid4 = None ->
  NoDup (map group_product
           (filter (fun row =>
                      is_auto_order
                        (from_option id (py "default") (cookie_user_id r)) row)
                   (process_table p))) ->
  let user_id := from_option id (py "default") (cookie_user_id r) in
  let sheet :=
    (download_excel order_by_total order_by_group_product r uuid4 now p).2 in
  NoDup (keys sheet) /\
  forall product,
    get0 sheet product =
    (if bool_decide (product = []) then 0
     else total_quantity product
            (filter (fun row => is_main_order user_id row) (process_table p)))
    + total_quantity product
        (filter (fun row => is_auto_order user_id row) (process_table p)).
Proof.
  intros Hob Hog Hfresh Hnd user_id sheet.
  exact (download_excel_get order_by_total order_by_group_product r uuid4 now p
           Hob Hog Hfresh Hnd).
Qed.

Lemma download_excel_totals_witness :
  dict_get (user_sessions sample_process) (py "session9") = None /\
  let sheet :=
    (download_excel id id request_of_user (py "session9") 5 sample_process).2 in
  NoDup (keys sheet) /\
  forall product,
    get0 sheet product =
    (if bool_decide (product = []) then 0
     else total_quantity product
            (filter (fun row => is_main_order (py "user") row) sample_table))
    + total_quantity product
        (filter (fun row => is_auto_order (py "user") row) sample_table).
Proof.
  assert (NoDup (map group_product
            (filter (fun row =>
                       is_auto_order
                         (from_option id (py "default")
                                      (cookie_user_id request_of_user)) row)
                    (process_table sample_process)))) as Hnd.
  { apply (bool_decide_unpack _). vm_compute. exact I. }
  split; [reflexivity|].
  exact (download_excel_totals id id request_of_user (py "session9") 5
           sample_process (fun l => Permutation_refl l)
           (fun l => Permutation_refl l) eq_refl Hnd).
Defined.

(** X28. The sheet of [download_excel] after a group other than "main"
    was moved or deleted (same conditions): after [confirm_auto_order]
    every product with a non-empty name has the quantity it had, and
    after [delete_auto_order] every product has the quantity it had
    less the quantities of the rows of the group. *)
Theorem download_excel_moved_or_deleted
    (order_by_total : list (str * Z) -> list (str * Z))
    (order_by_group_product : list sql_row -> list sql_row)
    (r : request) (uuid4 : str) (now : Z) (p : process) (g : str) :
  (forall l, order_by_total l ≡ₚ l) ->
  (forall l, order_by_group_product l ≡ₚ l) ->
  dict_get (user_sessions p) uuid4 = None ->
  g <> py "main" ->
  NoDup (map group_product
           (filter (fun row =>
                      is_auto_order
                        (from_option id (py "default") (cookie_user_id r)) row)
                   (process_table p))) ->
  let user_id := from_option id (py "default") (cookie_user_id r) in
  let sheet table :=
    (download_excel order_by_total order_by_group_product r uuid4 now
       (Process (user_sessions p) (process_heap p) table)).2 in
  (forall product, product <> [] ->
     get0 (sheet (confirm_auto_order (Some g) user_id (process_table p))) product =
     get0 (sheet (process_table p)) product) /\
  (forall product,
     get0 (sheet (delete_auto_order (Some g) user_id (process_table p))) product =
     get0 (sheet (process_table p)) product -
     total_quantity product
       (filter (fun row => is_auto_order_of (Some g) user_id row)
               (process_table p))).
Proof.
  intros Hob Hog Hfresh Hg Hnd user_id sheet.
  assert (forall table,
            NoDup (map group_product
                     (filter (fun row => is_auto_order user_id row) table)) ->
            forall product,
              get0 (sheet table) product =
              (if bool_decide (product = []) then 0
               else total_quantity product
                      (filter (fun row => is_main_order user_id row) table))
              + total_quantity product
                  (filter (fun row => is_auto_order user_id row) table)) as Hsheet.
  { intros table Ht.
    exact (proj2 (download_excel_get order_by_total order_by_group_product
                    r uuid4 now
                    (Process (user_sessions p) (process_heap p) table)
                    Hob Hog Hfresh Ht)). }
  set (table := process_table p) in *.
  assert (forall order_group,
            NoDup (map group_product
                     (filter (fun row => is_auto_order user_id row
                                && negb (is_auto_order_of order_group user_id row))
                             table))) as Hnd'.
  { intros order_group. revert Hnd. apply NoDup_map_filter.
    intros row Hrow. apply andb_true_iff in Hrow as [Hrow _]. exact Hrow. }
  assert (forall product,
            total_quantity product
              (filter (fun row => is_auto_order user_id row) table) =
            total_quantity product
              (filter (fun row => is_auto_order_of (Some g) user_id row) table) +
            total_quantity product
              (filter (fun row => is_auto_order user_id row
                         && negb (is_auto_order_of (Some g) user_id row)) table))
    as Hsplit.
  { intros product.
    rewrite (total_quantity_split (is_auto_order user_id)
               (is_auto_order_of (Some g) user_id)).
    f_equal. f_equal. apply filter_bool_ext. intros row. rows_bool. }
  split.
  - intros product Hp.
    rewrite !Hsheet; [|exact Hnd|rewrite auto_rows_confirm; apply Hnd'].
    rewrite (bool_decide_eq_false_2 _ Hp).
    rewrite main_rows_confirm, auto_rows_confirm, (Hsplit product). lia.
  - intros product.
    rewrite !Hsheet; [|exact Hnd|rewrite auto_rows_delete; apply Hnd'].
    rewrite main_rows_delete, auto_rows_delete, (Hsplit product). lia.
Qed.

Lemma download_excel_moved_or_deleted_witness :
  py "auto_1" <> py "main" /\
  let sheet table :=
    (download_excel id id request_of_user (py "session9") 5
       (Process (user_sessions sample_process) (process_heap sample_process)
                table)).2 in
  (forall product, product <> [] ->
     get0 (sheet (confirm_auto_order (Some (py "auto_1")) (py "user") sample_table))
          product =
     get0 (sheet sample_table) product) /\
  (forall product,
     get0 (sheet (delete_auto_order (Some (py "auto_1")) (py "user") sample_table))
          product =
     get0 (sheet sample_table) product -
     total_quantity product
       (filter (fun row => is_auto_order_of (Some (py "auto_1")) (py "user") row)
               sample_table)).
Proof.
  assert (py "auto_1" <> py "main") as Hg
    by (intros H; vm_compute in H; discriminate).
  assert (NoDup (map group_product
            (filter (fun row =>
                       is_auto_order
                         (from_option id (py "default")
                                      (cookie_user_id request_of_user)) row)
                    (process_table sample_process)))) as Hnd.
  { apply (bool_decide_unpack _). vm_compute. exact I. }
  split; [exact Hg|].
  exact (download_excel_moved_or_deleted id id request_of_user (py "session9") 5
           sample_process (py "auto_1") (fun l => Permutation_refl l)
           (fun l => Permutation_refl l) eq_refl Hg Hnd).
Defined.

(** *** The route [reset_session] *)

(** X29. [reset_session] resets a session it has just created: for a
    session identifier that is not in the registry, every session of
    the registry is as it was and so are the rows of their catalogs and
    the table; the registry has one session more, of the user of the
    cookie (or "default"), in state "waiting_for_next" with the restart
    notice as its only queued message, no timer and no order. *)
Theorem reset_session_leaves_sessions r uuid4 now p :
  dict_get (user_sessions p) uuid4 = None ->
  frame initial_heap (process_heap p) ->
  let p' := reset_session r uuid4 now p in
  (forall k, k <> uuid4 ->
     dict_get (user_sessions p') k = dict_get (user_sessions p) k) /\
  length (user_sessions p') = S (length (user_sessions p)) /\
  frame (process_heap p) (process_heap p') /\
  process_table p' = process_table p /\
  exists s,
    dict_get (user_sessions p') uuid4 = Some s /\
    user_id s = from_option id (py "default") (cookie_user_id r) /\
    state s = waiting_for_next /\
    message_queue s = [restart_notice] /\
    active_timer s = None /\
    confirmed_orders s = [] /\ pending_orders s = [].
Proof.
  intros Hfresh F p'. subst p'. unfold reset_session, get_user_session.
  cbn [truthy]. rewrite Hfresh. unfold OrderSession.init.
  pose proof (valid_frame _ _ _ F global_valid) as V.
  destruct (deepcopy global_products_db (process_heap p)) as [pdb h1] eqn:E1.
  destruct (deepcopy global_products_db h1) as [cdb h2] eqn:E2.
  destruct (deepcopy_spec _ _ _ _ V E1) as (F1 & _ & Hv1 & _).
  pose proof (valid_frame _ _ _ F1 V) as V'.
  destruct (deepcopy_spec _ _ _ _ V' E2) as (F2 & _).
  pose proof (valid_frame _ _ _ F2 Hv1) as V2.
  unfold start_new_conversation. session_cbn.
  destruct (deepcopy pdb h2) as [db h3] eqn:E3.
  destruct (deepcopy_spec _ _ _ _ V2 E3) as (F3 & _).
  unfold store, put, _cancel_timer. session_cbn. cbn [user_sessions process_heap process_table].
  split; [|split; [|split; [|split]]].
  - intros k Hk. rewrite !dict_get_set_ne by exact Hk. reflexivity.
  - rewrite (dict_set_length_old _ uuid4 _ _ (dict_get_set_eq _ _ _)).
    apply dict_set_length_new. exact Hfresh.
  - exact (frame_trans _ _ _ (frame_trans _ _ _ F1 F2) F3).
  - reflexivity.
  - eexists. split; [apply dict_get_set_eq|]. session_cbn. repeat split.
Qed.

Lemma reset_session_leaves_sessions_witness :
  let p := (send_message (Request (Some (py "1")) (Some (py "ana")) None)
              (py "0b3e-41") 7 (Process [] initial_heap [])).1 in
  dict_get (user_sessions p) (py "77aa-02") = None /\
  let p' := reset_session (Request None None (Some (py "ana"))) (py "77aa-02") 9 p in
  (forall k, k <> py "77aa-02" ->
     dict_get (user_sessions p') k = dict_get (user_sessions p) k) /\
  length (user_sessions p') = S (length (user_sessions p)) /\
  frame (process_heap p) (process_heap p') /\
  process_table p' = process_table p /\
  exists s,
    dict_get (user_sessions p') (py "77aa-02") = Some s /\
    user_id s = from_option id (py "default") (Some (py "ana")) /\
    state s = waiting_for_next /\
    message_queue s = [restart_notice] /\
    active_timer s = None /\
    confirmed_orders s = [] /\ pending_orders s = [].
Proof.
  cbv zeta. split; [vm_compute; reflexivity|].
  apply (reset_session_leaves_sessions (Request None None (Some (py "ana")))
           (py "77aa-02") 9).
  - vm_compute. reflexivity.
  - apply frame_take. vm_compute. reflexivity.
Defined.
